(** * Invoice Builder workflows: a shallow embedding

    The development follows the Python sources of Part-3:

    - [invoice_utils.py]                    -> [Module invoice_utils]
    - [new_16_sequential_workflow.py]       -> [Module sequential_workflow]
    - [new_17_concurrent_workflow.py]       -> [Module concurrent_workflow]
    - [new_18_branching_workflow.py]        -> [Module branching_workflow]
    - [new_19_interactive_checkpointing.py] -> [Module interactive_checkpointing]

    Python [float] is IEEE binary64 and is rendered by Rocq's primitive
    [float]; [int] is [Z]; [str] is [string]; a [dict] is a [gmap] with
    string keys; dataclasses are records.  Console output ([print]) carries
    no information the statements below depend on and is left out; console
    input, the file system and module globals are explicit state. *)

From Stdlib Require Import ZArith Floats Ascii.
From stdpp Require Import base option list gmap strings.

Set Warnings "-inexact-float".

Local Open Scope string_scope.

(** * Part I: the programs *)

(** ** Python values and effects shared by all scripts *)

Module python.

(** Exceptions raised on the modelled paths. *)
Inductive exn : Type :=
| KeyError (key : string)
| IndexError
| StopIteration
| EOFError
| ValueError
| OverflowError.

(** Pure code that can raise: the exception or the value. *)
#[global] Instance result_ret : MRet (sum exn) := λ A x, inr x.
#[global] Instance result_bind : MBind (sum exn) := λ A B f r,
  match r with
  | inl e => inl e
  | inr x => f x
  end.

(** The binary64 nearest to the [int] [z], ties to even; it is infinite
    once [|z|] rounds to [2^1024]. *)
Definition float_of_int (z : Z) : float :=
  SF2Prim (binary_normalize prec emax z 0 false).

(** The conversion of an [int] to a float, as [float(z)] and the mixed
    arithmetic [z * x] apply it to their [int] operand: CPython raises
    OverflowError ("int too large to convert to float") where the nearest
    binary64 is infinite. *)
Definition int_as_float (z : Z) : exn + float :=
  let f := float_of_int z in
  if PrimFloat.is_infinity f then inl OverflowError else inr f.

(** [a >= b] and [a > b] on floats (false on NaN operands). *)
Definition float_ge (a b : float) : bool := PrimFloat.leb b a.
Definition float_gt (a b : float) : bool := PrimFloat.ltb b a.

(** Values of heterogeneous dictionaries. *)
Inductive value : Type :=
| VStr (s : string)
| VFloat (f : float)
| VInt (z : Z)
| VBool (b : bool).

(** What the interpreter and the installation provide: [int(s)] and
    [float(s)] on a string ([None] for [ValueError]; [int] ignores
    surrounding blanks, so [int(s.strip())] is [int(s)]), the format
    [f"{x:.2f}"], [str] of a float and of an int, [str.upper],
    [str.lower], [str.title], [s.strip().lower()], and the directory of
    the scripts, [Path(__file__).parent]. *)
Class Runtime : Type := {
  int_of_str : string → option Z;
  float_of_str : string → option float;
  str_lower : string → string;
  format_2f : float → string;
  str_of_float : float → string;
  str_of_int : Z → string;
  str_upper : string → string;
  str_title : string → string;
  str_strip_lower : string → string;
  BASE_DIR : string
}.

(** [str(v)], as an f-string renders a value. *)
Definition str `{!Runtime} (v : value) : string :=
  match v with
  | VStr s => s
  | VFloat f => str_of_float f
  | VInt z => str_of_int z
  | VBool true => "True"
  | VBool false => "False"
  end.

Definition newline : string := String "010"%char "".

(** [os.path.join(a, b)] on POSIX paths.  [str(Path / name)] denotes the
    same file, so one join serves both spellings of the sources. *)
Definition is_abs (b : string) : bool :=
  match b with
  | String c _ => Ascii.eqb c "/"%char
  | "" => false
  end.

Fixpoint last_char (a : string) : option ascii :=
  match a with
  | "" => None
  | String c a' =>
      match last_char a' with
      | None => Some c
      | Some c' => Some c'
      end
  end.

(** [not a or a.endswith('/')] *)
Definition ends_with_sep (a : string) : bool :=
  match last_char a with
  | None => true
  | Some c => Ascii.eqb c "/"%char
  end.

Definition path_join (a b : string) : string :=
  if is_abs b then b
  else if ends_with_sep a then a +:+ b
  else a +:+ "/" +:+ b.

(** The state of one script's process: the lines still to be read from
    the console, the paths that exist, the clock as
    [strftime("%Y%m%d_%H%M%S")] renders it, and the module global
    [selected_invoice_id]. *)
Record process : Type := mkProcess {
  stdin : list string;
  files : gset string;
  now : string;
  selected_invoice_id : option string
}.

Definition with_stdin (l : list string) (p : process) : process :=
  mkProcess l (files p) (now p) (selected_invoice_id p).
Definition with_files (f : gset string) (p : process) : process :=
  mkProcess (stdin p) f (now p) (selected_invoice_id p).
Definition with_selected_invoice_id (g : option string) (p : process) : process :=
  mkProcess (stdin p) (files p) (now p) g.

(** Effectful code: state passing with exceptions; an exception keeps
    the effects that came before it. *)
Definition io (A : Type) : Type := process → (exn + A) * process.

#[global] Instance io_ret : MRet io := λ A x p, (inr x, p).
#[global] Instance io_bind : MBind io := λ A B f m p,
  match m p with
  | (inl e, p') => (inl e, p')
  | (inr x, p') => f x p'
  end.

Definition raise {A : Type} (e : exn) : io A := λ p, (inl e, p).

(** Pure code that can raise, run inside effectful code. *)
Definition lift {A : Type} (r : exn + A) : io A := λ p, (r, p).

(** [d[key]] *)
Definition index {V : Type} (d : gmap string V) (key : string) : exn + V :=
  match d !! key with
  | Some v => inr v
  | None => inl (KeyError key)
  end.
Definition get_process : io process := λ p, (inr p, p).
Definition put_process (p' : process) : io unit := λ _, (inr tt, p').

(** [try: ... except Exception as e: ...] around a whole computation. *)
Definition try {A : Type} (m : io A) : io (exn + A) := λ p,
  let '(r, p') := m p in (inr r, p').

(** [input(prompt)]: the next line, [EOFError] at end of input. *)
Definition input : io string := λ p,
  match stdin p with
  | [] => (inl EOFError, p)
  | line :: rest => (inr line, with_stdin rest p)
  end.

(** [os.path.exists(path)] / [Path.exists()] *)
Definition path_exists (path : string) : io bool :=
  p ← get_process; mret (bool_decide (path ∈ files p)).

(** Creating a file or directory at [path] ([open(path, 'w')],
    [open(path, 'a')], [mkdir(exist_ok=True)]); contents are not kept,
    and failures of the operating system are not modelled. *)
Definition create (path : string) : io unit :=
  p ← get_process; put_process (with_files ({[path]} ∪ files p) p).

(** [shutil.move(src, dst)]: [src] is renamed to [dst]. *)
Definition move (src dst : string) : io unit :=
  p ← get_process; put_process (with_files ({[dst]} ∪ (files p ∖ {[src]})) p).

End python.

Import python.

Notation "a >=? b" := (float_ge a b) (at level 70, no associativity) : float_scope.
Notation "a >? b" := (float_gt a b) (at level 70, no associativity) : float_scope.

(** ** invoice_utils.py *)

Module invoice_utils.

(** [@dataclass class InvoiceData] *)
Record InvoiceData : Type := mkInvoiceData {
    invoice_id : string;
    client_name : string;
    client_email : string;
    is_preferred : bool;
    item_description : string;
    quantity : Z;
    unit_price : float;
    date : string
}.

(** [InvoiceData.subtotal] (a property): [quantity * unit_price], an
    [int] times a float.  [subtotal] is the product, the value of the
    property wherever it has one; evaluating the property converts the
    quantity first and raises OverflowError when it is too large for a
    float, which is [InvoiceData_subtotal].  The handlers of new_16 to
    new_19 are handed an invoice only after the menu of their script
    has listed the rows, which evaluates the property of every row. *)
Definition subtotal (self : InvoiceData) : float :=
    (float_of_int (quantity self) * unit_price self)%float.

Definition InvoiceData_subtotal (self : InvoiceData) : exn + float :=
    quantity ← int_as_float (quantity self);
    mret (quantity * unit_price self)%float.

(** [class InvoiceConfig]: the attributes set by [__init__]. *)
Record InvoiceConfig : Type := mkInvoiceConfig {
    tax_rate : float;
    high_value_threshold : float;
    high_value_discount : float;
    preferred_client_discount : float;
    company_name : string;
    company_address : string
}.

(** [InvoiceConfig()] in an environment that sets none of the variables. *)
Definition default_config : InvoiceConfig :=
    {| tax_rate := 0.10%float;
       high_value_threshold := 5000.00%float;
       high_value_discount := 0.05%float;
       preferred_client_discount := 0.03%float;
       company_name := "TechServices Inc.";
       company_address := "123 Business St, Tech City, TC 12345" |}.

(** [calculate_invoice_totals(invoice, config) -> dict] *)
Definition calculate_invoice_totals (invoice : InvoiceData) (config : InvoiceConfig)
    : gmap string float :=
    let subtotal := subtotal invoice in
    let high_value_discount :=
      if (subtotal >=? high_value_threshold config)%float
      then (subtotal * high_value_discount config)%float
      else 0.0%float in
    let preferred_discount :=
      if is_preferred invoice
      then (subtotal * preferred_client_discount config)%float
      else 0.0%float in
    let total_discount := (high_value_discount + preferred_discount)%float in
    let amount_after_discount := (subtotal - total_discount)%float in
    let tax := (amount_after_discount * tax_rate config)%float in
    let total := (amount_after_discount + tax)%float in
    <["subtotal" := subtotal]>
    (<["high_value_discount" := high_value_discount]>
    (<["preferred_discount" := preferred_discount]>
    (<["total_discount" := total_discount]>
    (<["amount_after_discount" := amount_after_discount]>
    (<["tax" := tax]>
    (<["total" := total]> ∅)))))).

(** The function as it is called: its first statement,
    [subtotal = invoice.subtotal], evaluates the property and raises
    OverflowError when the quantity is too large for a float; the
    dictionary is then built from [subtotal] by float arithmetic, which
    does not raise. *)
Module raising.

Definition calculate_invoice_totals (invoice : InvoiceData) (config : InvoiceConfig)
    : exn + gmap string float :=
    subtotal ← InvoiceData_subtotal invoice;
    let high_value_discount :=
      if (subtotal >=? high_value_threshold config)%float
      then (subtotal * high_value_discount config)%float
      else 0.0%float in
    let preferred_discount :=
      if is_preferred invoice
      then (subtotal * preferred_client_discount config)%float
      else 0.0%float in
    let total_discount := (high_value_discount + preferred_discount)%float in
    let amount_after_discount := (subtotal - total_discount)%float in
    let tax := (amount_after_discount * tax_rate config)%float in
    let total := (amount_after_discount + tax)%float in
    mret (<["subtotal" := subtotal]>
          (<["high_value_discount" := high_value_discount]>
          (<["preferred_discount" := preferred_discount]>
          (<["total_discount" := total_discount]>
          (<["amount_after_discount" := amount_after_discount]>
          (<["tax" := tax]>
          (<["total" := total]> ∅))))))).

End raising.

(** What the installation provides to [invoice_utils]: the configuration
    [InvoiceConfig()] reads from the environment, the rows
    [csv.DictReader(f)] yields for the file at a path (each a dictionary
    from the names of the header to the cells of the row; rows shorter
    than the header, whose missing cells would be [None], are not
    represented), and the text
    [render_invoice_text(invoice, totals, config)] lays out. *)
Class Installation : Type := {
  InvoiceConfig_init : InvoiceConfig;
  DictReader : string → list (gmap string string);
  render_invoice_text : InvoiceData → gmap string float → InvoiceConfig → string
}.

Section with_runtime.
Context `{!Runtime, !Installation}.

(** [int(s)] and [float(s)] on a cell *)
Definition str_as_int (s : string) : exn + Z :=
  match int_of_str s with
  | Some z => inr z
  | None => inl ValueError
  end.

Definition str_as_float (s : string) : exn + float :=
  match float_of_str s with
  | Some x => inr x
  | None => inl ValueError
  end.

(** [InvoiceData(invoice_id=row['invoice_id'], ...)]: the keyword
    arguments are evaluated in the order they are written. *)
Definition InvoiceData_of_row (row : gmap string string) : exn + InvoiceData :=
  invoice_id ← index row "invoice_id";
  client_name ← index row "client_name";
  client_email ← index row "client_email";
  is_preferred ← index row "is_preferred";
  let is_preferred := bool_decide (str_lower is_preferred = "true") in
  item_description ← index row "item_description";
  quantity ← index row "quantity";
  quantity ← str_as_int quantity;
  unit_price ← index row "unit_price";
  unit_price ← str_as_float unit_price;
  date ← index row "date";
  mret (mkInvoiceData invoice_id client_name client_email is_preferred
                      item_description quantity unit_price date).

(** The [for row in reader:] loop of [read_invoices_csv]. *)
Fixpoint read_rows (rows : list (gmap string string)) : exn + list InvoiceData :=
  match rows with
  | [] => inr []
  | row :: rest =>
      invoice ← InvoiceData_of_row row;
      invoices ← read_rows rest;
      mret (invoice :: invoices)
  end.

(** [read_invoices_csv(csv_path) -> List[InvoiceData]] *)
Definition read_invoices_csv (csv_path : string) : exn + list InvoiceData :=
  read_rows (DictReader csv_path).

End with_runtime.

(** [save_invoice_file(invoice_id, content, output_dir) -> filepath] *)
Definition save_invoice_file (invoice_id content output_dir : string) : io string :=
  let filename := invoice_id +:+ ".txt" in
  let filepath := path_join output_dir filename in
  create filepath;;
  mret filepath.

(** [archive_old_invoice(invoice_id, output_dir, archive_dir) -> bool] *)
Definition archive_old_invoice (invoice_id output_dir archive_dir : string) : io bool :=
  let filename := invoice_id +:+ ".txt" in
  let output_path := path_join output_dir filename in
  found ← path_exists output_path;
  if found : bool then
    p ← get_process;
    let timestamp := now p in
    let archive_filename := invoice_id +:+ "_" +:+ timestamp +:+ ".txt" in
    let archive_path := path_join archive_dir archive_filename in
    move output_path archive_path;;
    mret true
  else mret false.

(** [log_action(message, log_dir, log_file="invoice_workflow.log")]:
    appends a line; the file exists afterwards. *)
Definition log_action (message log_dir : string) : io unit :=
  let log_path := path_join log_dir "invoice_workflow.log" in
  create log_path.

(** [ensure_directories] over its argument list *)
Definition ensure_directories (dirs : list string) : io unit :=
  foldr (λ directory rest, create directory;; rest) (mret tt) dirs.

End invoice_utils.

Import invoice_utils.

(** ** new_16_sequential_workflow.py *)

Module sequential_workflow.

Section with_runtime.
Context `{!Runtime, !Installation}.

Definition DATA_DIR : string := path_join BASE_DIR "data".
Definition OUTPUT_DIR : string := path_join BASE_DIR "output".
Definition LOGS_DIR : string := path_join BASE_DIR "logs".

(** The loop of [show_menu(invoices)]: lines are read until one is an
    index of the list. *)
Fixpoint show_menu_loop (invoices : list InvoiceData) (lines : list string)
  : (exn + string) * list string :=
  match lines with
  | [] => (inl EOFError, [])
  | choice :: rest =>
      match int_of_str choice with
      | Some idx =>
          if bool_decide (1 ≤ idx ≤ Z.of_nat (length invoices))%Z then
            match invoices !! Z.to_nat (idx - 1) with
            | Some inv => (inr (invoice_id inv), rest)
            | None => (inl IndexError, rest)
            end
          else show_menu_loop invoices rest
      | None => show_menu_loop invoices rest
      end
  end.

(** The listing of [show_menu]: [for idx, inv in enumerate(invoices, 1)]
    prints every row, and the f-string formats [inv.subtotal]. *)
Fixpoint list_invoices (invoices : list InvoiceData) : exn + unit :=
  match invoices with
  | [] => inr tt
  | inv :: rest => InvoiceData_subtotal inv;; list_invoices rest
  end.

(** The [while True:] loop of [show_menu] on the console. *)
Definition select_invoice (invoices : list InvoiceData) : io string := λ p,
  let '(r, rest) := show_menu_loop invoices (stdin p) in (r, with_stdin rest p).

(** [show_menu(invoices) -> str] *)
Definition show_menu (invoices : list InvoiceData) : io string :=
  lift (list_invoices invoices);;
  select_invoice invoices.

(** [wait_for_user(step_name)] *)
Definition wait_for_user (step_name : string) : io unit :=
  input;; mret tt.

(** [next(inv for inv in all_invoices if inv.invoice_id == selected_invoice_id)],
    where [selected_invoice_id] is the module global. *)
Definition next_selected (all_invoices : list InvoiceData) : io InvoiceData :=
  p ← get_process;
  match
    List.find (λ inv, bool_decide (Some (invoice_id inv) = selected_invoice_id p))
              all_invoices
  with
  | Some inv => mret inv
  | None => raise StopIteration
  end.

(** [f"{selected_invoice_id}"] for the module global. *)
Definition str_of_global (g : option string) : string :=
  match g with Some v => v | None => "None" end.

(** [global selected_invoice_id; selected_invoice_id = v] *)
Definition set_selected_invoice_id (v : string) : io unit :=
  p ← get_process; put_process (with_selected_invoice_id (Some v) p).

(** [@executor(id="load_config") load_configuration] *)
Definition load_configuration (start_signal : string) : io InvoiceConfig :=
  let config := InvoiceConfig_init in
  log_action "Configuration loaded" LOGS_DIR;;
  wait_for_user "STEP 2 - Read Invoice Data";;
  mret config.

(** [@executor(id="read_invoices") read_invoice_data] *)
Definition read_invoice_data (config : InvoiceConfig) : io (InvoiceConfig * InvoiceData) :=
  let csv_path := path_join DATA_DIR "invoices.csv" in
  all_invoices ← lift (read_invoices_csv csv_path);
  selected ← show_menu all_invoices;
  set_selected_invoice_id selected;;
  selected_invoice ← next_selected all_invoices;
  p ← get_process;
  log_action ("Selected invoice " +:+ str_of_global (selected_invoice_id p)
              +:+ " for processing") LOGS_DIR;;
  wait_for_user "STEP 3 - Calculate Totals";;
  mret (config, selected_invoice).

(** [@executor(id="calculate_totals") calculate_totals_step] *)
Definition calculate_totals_step (data : InvoiceConfig * InvoiceData)
  : io (InvoiceData * gmap string float) :=
  let '(config, invoice) := data in
  let totals := calculate_invoice_totals invoice config in
  log_action "Calculated totals" LOGS_DIR;;
  wait_for_user "STEP 4 - Render Invoice";;
  mret (invoice, totals).

(** [@executor(id="render_invoice") render_invoice_step] *)
Definition render_invoice_step (data : InvoiceData * gmap string float)
  : io (InvoiceData * gmap string float * string) :=
  let '(invoice, totals) := data in
  let config := InvoiceConfig_init in
  let invoice_text := render_invoice_text invoice totals config in
  log_action "Rendered invoice" LOGS_DIR;;
  wait_for_user "STEP 5 - Save Invoice";;
  mret (invoice, totals, invoice_text).

(** [@executor(id="save_invoice") save_invoice_step]; the value is the
    output the handler yields. *)
Definition save_invoice_step (data : InvoiceData * gmap string float * string)
  : io string :=
  let '(invoice, totals, invoice_text) := data in
  ensure_directories [OUTPUT_DIR; LOGS_DIR];;
  filepath ← save_invoice_file (invoice_id invoice) invoice_text OUTPUT_DIR;
  log_action "Saved invoice" LOGS_DIR;;
  mret ("✅ Sequential workflow completed! Invoice " +:+ invoice_id invoice
        +:+ " processed successfully.").

(** [run_workflow()]: the chain of plain edges
    load_config -> read_invoices -> calculate_totals -> render_invoice ->
    save_invoice; each message sent is handed to the next executor. *)
Definition run_workflow : io string :=
  config ← load_configuration "start";
  selected ← read_invoice_data config;
  with_totals ← calculate_totals_step selected;
  rendered ← render_invoice_step with_totals;
  save_invoice_step rendered.

End with_runtime.

End sequential_workflow.


(** ** The workflow engine

    The scripts build their graphs with the [agent_framework] package,
    which is not among the sources; its behaviour is taken from the
    specification of the engine. *)

Module engine.

(** Modelled from the spec: the error taxonomy of section 7 (the package
    that raises them is missing from the sources). *)
Inductive error : Type :=
| GraphValidationError
| UnroutableMessageError
| HandlerError (e : exn)
| CheckpointIOError
| CorrelationMismatchError.

(** Modelled from the spec: an edge of a switch-case group, section 3:
    (source, target, predicate); [Case(condition=..., target=...)] in the
    scripts.  The builder that interprets it is missing. *)
Record Case (M N : Type) : Type := mkCase { condition : M → bool; target : N }.
Arguments mkCase {M N} _ _.
Arguments condition {M N} _ _.
Arguments target {M N} _.

(** Modelled from the spec: a switch-case group, M cases in declaration
    order and the default-flagged edge; [add_switch_case_edge_group] is
    missing. *)
Record SwitchCaseGroup (M N : Type) : Type :=
  mkGroup { cases : list (Case M N); default_target : N }.
Arguments mkGroup {M N} _ _.
Arguments cases {M N} _.
Arguments default_target {M N} _.

Section switch_case.
Context {M N : Type}.

(** Modelled from the spec: "predicates evaluated in declaration order;
    first match wins; if none match, the default-flagged edge fires"
    (section 3), for the missing evaluation of a group.  Edge [i < M] is
    the i-th case, edge [M] the default. *)
Definition none_matches (cs : list (Case M N)) (msg : M) : bool :=
  forallb (λ c, negb (condition c msg)) cs.

Definition edge_fires (g : SwitchCaseGroup M N) (msg : M) (i : nat) : bool :=
  match cases g !! i with
  | Some c => condition c msg && none_matches (take i (cases g)) msg
  | None => bool_decide (i = length (cases g)) && none_matches (cases g) msg
  end.

Definition edge_target (g : SwitchCaseGroup M N) (i : nat) : N :=
  match cases g !! i with
  | Some c => target c
  | None => default_target g
  end.

(** Modelled from the spec: the targets a message leaving the group is
    delivered to, section 4.3 (missing scheduler). *)
Definition deliveries (g : SwitchCaseGroup M N) (msg : M) : list N :=
  edge_target g <$> filter (λ i, edge_fires g msg i = true) (seq 0 (S (length (cases g)))).

(** The first case whose predicate holds, scanning in declaration order. *)
Fixpoint first_match (cs : list (Case M N)) (msg : M) : option nat :=
  match cs with
  | [] => None
  | c :: rest => if condition c msg then Some 0 else S <$> first_match rest msg
  end.

(** The edge the scan selects: the first case that matches, the default
    (index [M]) when none does. *)
Definition selected_edge (g : SwitchCaseGroup M N) (msg : M) : nat :=
  default (length (cases g)) (first_match (cases g) msg).

End switch_case.

(** Modelled from the spec: what a handler invocation produces, section
    4.2: no output, one or more outgoing messages, or a yielded terminal
    output.  The executor base class is missing. *)
Inductive outcome (M O : Type) : Type :=
| Send (msgs : list M)
| YieldOutput (output : O).
Arguments Send {M O} _.
Arguments YieldOutput {M O} _.

(** Modelled from the spec: the states of a run, section 4.3:
    Running -> {Paused, Completed, Failed}. *)
Inductive status (O : Type) : Type :=
| Running
| Paused
| Completed (output : O)
| Failed (e : error).
Arguments Running {O}.
Arguments Paused {O}.
Arguments Completed {O} _.
Arguments Failed {O} _.

Section runtime.
Context {N M O St : Type}.

(** Modelled from the spec: a built graph as the scheduler of section
    4.3 uses it: per node the handler bound to the payload's type
    ([None] when no handler accepts it), the targets of a message a node
    emits (its plain edges, fan-out or the selected switch-case edge),
    and which payloads are requests for external input.  [St] is the
    state the context gives handlers access to.  The builder and the
    scheduler are missing. *)
Record Graph : Type := mkGraph {
  handler : N → M → option (St → io (outcome M O * St));
  targets : N → M → list N;
  is_request : M → bool
}.

(** Modelled from the spec: RunState, section 3: run id, the sequence
    number the next message gets, the state shared by the executors of
    the run, the pending deliveries, the request the run waits on when
    paused (its sequence number and the nodes its response goes to), and
    the status. *)
Record RunState : Type := mkRunState {
  run_id : nat;
  next_seq : nat;
  shared : St;
  pending : list (N * M);
  awaiting : option (nat * list N);
  run_status : status O
}.

(** Modelled from the spec: a resume response, correlated "by run id plus
    the original request's sequence number" (section 4.3). *)
Record Response : Type := mkResponse { request_seq : nat; payload : M }.

(** Modelled from the spec: [start(graph, initialPayload)]: creates the
    RunState, enqueues the initial message to the start node, Running. *)
Definition start (start_node : N) (id : nat) (s0 : St) (initial : M) : RunState :=
  mkRunState id 0 s0 [(start_node, initial)] None Running.

Definition enqueue (g : Graph) (source : N) (msgs : list M) : list (N * M) :=
  msg ← msgs; (λ t, (t, msg)) <$> targets g source msg.

(** What a run lets an observer see: which handler was invoked on which
    message, and which messages the handlers emitted. *)
Inductive step : Type :=
| Invoked (n : N) (m : M)
| Emitted (n : N) (m : M).

(** The nodes whose handlers a run invoked, in order. *)
Definition invocations (steps : list step) : list N :=
  omap (λ s, match s with Invoked n _ => Some n | Emitted _ _ => None end) steps.

(** Modelled from the spec: the main loop of section 4.3.  The next
    pending message is dequeued and its handler resolved by payload type
    (none: UnroutableMessageError); an exception in the handler fails the
    run; a yielded output completes it; outgoing messages are routed to
    their targets; a request payload pauses the run, unless
    [respond] supplies the response on the spot, which is then delivered
    in place of the pause. *)
Fixpoint loop (g : Graph) (respond : option (M → M)) (fuel : nat) (rs : RunState)
  : io (RunState * list step) :=
  match fuel, pending rs with
  | 0, _ | _, [] => mret (rs, [])
  | S fuel', (n, m) :: rest =>
      match handler g n m with
      | None =>
          mret (mkRunState (run_id rs) (next_seq rs) (shared rs) rest None
                           (Failed UnroutableMessageError), [])
      | Some h =>
          r ← try (h (shared rs));
          match r with
          | inl e =>
              mret (mkRunState (run_id rs) (next_seq rs) (shared rs) rest None
                               (Failed (HandlerError e)), [Invoked n m])
          | inr (YieldOutput output, s') =>
              mret (mkRunState (run_id rs) (next_seq rs) s' rest None
                               (Completed output), [Invoked n m])
          | inr (Send msgs, s') =>
              let steps := Invoked n m :: (Emitted n <$> msgs) in
              let seq' := next_seq rs + length msgs in
              match list_find (is_request g) msgs, respond with
              | Some (i, request), None =>
                  mret (mkRunState (run_id rs) seq' s' rest
                                   (Some (next_seq rs + i, targets g n request)) Paused,
                        steps)
              | Some (i, request), Some answer =>
                  '(rs', later) ←
                    loop g respond fuel'
                      (mkRunState (run_id rs) seq' s'
                         (rest ++ ((λ t, (t, answer request)) <$> targets g n request))%list
                         None Running);
                  mret (rs', (steps ++ later)%list)
              | None, _ =>
                  '(rs', later) ←
                    loop g respond fuel'
                      (mkRunState (run_id rs) seq' s' (rest ++ enqueue g n msgs)%list
                                  None Running);
                  mret (rs', (steps ++ later)%list)
              end
          end
      end
  end.

(** Modelled from the spec: [run(graph, initialPayload)]. *)
Definition run (g : Graph) (respond : option (M → M)) (fuel : nat)
    (start_node : N) (id : nat) (s0 : St) (initial : M) : io (RunState * list step) :=
  loop g respond fuel (start start_node id s0 initial).

(** Modelled from the spec: [resume(runId, responsePayload)], sections
    4.3 and 7: a response that matches no paused run or request is
    rejected with CorrelationMismatchError without touching any RunState;
    a correlated one is delivered to the nodes that wait for it and the
    run is Running again.  [runs] are the runs the runtime holds, by run
    id. *)
Definition resume (g : Graph) (fuel : nat) (runs : gmap nat RunState)
    (id : nat) (response : Response)
  : io ((error + list step) * gmap nat RunState) :=
  match runs !! id with
  | Some rs =>
      match run_status rs, awaiting rs with
      | Paused, Some (seq, waiting) =>
          if bool_decide (request_seq response = seq) then
            '(rs', steps) ←
              loop g None fuel
                (mkRunState (run_id rs) (next_seq rs) (shared rs)
                   (pending rs ++ ((λ t, (t, payload response)) <$> waiting))%list
                   None Running);
            mret (inr steps, <[id := rs']> runs)
          else mret (inl CorrelationMismatchError, runs)
      | _, _ => mret (inl CorrelationMismatchError, runs)
      end
  | None => mret (inl CorrelationMismatchError, runs)
  end.

End runtime.

Arguments Graph : clear implicits.
Arguments RunState : clear implicits.
Arguments Response : clear implicits.
Arguments step : clear implicits.
Arguments invocations {N M} _.

End engine.

(** ** new_17_concurrent_workflow.py *)

Module concurrent_workflow.

Module InvoiceWithConfig.
Record t : Type := mk { invoice : InvoiceData; config : InvoiceConfig }.
End InvoiceWithConfig.

Module TotalsResult.
Record t : Type := mk { invoice_id : string; totals : gmap string float }.
End TotalsResult.

Module ClientResult.
Record t : Type := mk { invoice_id : string; client_info : gmap string value }.
End ClientResult.

Module CreditResult.
Record t : Type := mk { invoice_id : string; credit_check : gmap string value }.
End CreditResult.

Module MergedResult.
Record t : Type := mk {
  invoice : InvoiceData;
  config : InvoiceConfig;
  totals : gmap string float;
  client_info : gmap string value;
  credit_check : gmap string value
}.
End MergedResult.

(** The payload types that travel to the merger. *)
Inductive message : Type :=
| MTotals (result : TotalsResult.t)
| MClient (result : ClientResult.t)
| MCredit (result : CreditResult.t)
| MOriginal (data : InvoiceWithConfig.t).

Section with_runtime.
Context `{!Runtime, !Installation}.

Definition DATA_DIR : string := path_join BASE_DIR "data".
Definition LOGS_DIR : string := path_join BASE_DIR "logs".

(** [show_menu] and [wait_for_user] have the text of the sequential script. *)
Definition show_menu : list InvoiceData → io string := sequential_workflow.show_menu.
Definition wait_for_user : string → io unit := sequential_workflow.wait_for_user.

(** [Dispatcher.dispatch] *)
Definition Dispatcher_dispatch (start_signal : string) : io InvoiceWithConfig.t :=
  let config := InvoiceConfig_init in
  let csv_path := path_join DATA_DIR "invoices.csv" in
  all_invoices ← lift (read_invoices_csv csv_path);
  selected ← show_menu all_invoices;
  sequential_workflow.set_selected_invoice_id selected;;
  selected_invoice ← sequential_workflow.next_selected all_invoices;
  p ← get_process;
  log_action ("Selected invoice "
              +:+ sequential_workflow.str_of_global (selected_invoice_id p)
              +:+ " for parallel processing") LOGS_DIR;;
  wait_for_user "start PARALLEL processing";;
  mret (InvoiceWithConfig.mk selected_invoice config).

End with_runtime.

(** [TotalsCalculator.calculate] *)
Definition TotalsCalculator_calculate (data : InvoiceWithConfig.t) : TotalsResult.t :=
  let totals := calculate_invoice_totals (InvoiceWithConfig.invoice data)
                                         (InvoiceWithConfig.config data) in
  TotalsResult.mk (invoice_id (InvoiceWithConfig.invoice data)) totals.

(** [class ResultsMerger(Executor)]: the instance attributes and the
    handlers.  A handler takes [self] and returns the messages it sent
    together with the updated [self]. *)
Module ResultsMerger.

Record t : Type := mk {
  totals_result : option TotalsResult.t;
  client_result : option ClientResult.t;
  credit_result : option CreditResult.t;
  original_data : option InvoiceWithConfig.t
}.

(** [__init__] *)
Definition init : t := mk None None None None.

(** [_check_and_merge(ctx)]: dataclass instances are truthy, so each
    conjunct of the test asks whether the slot is not [None]. *)
Definition _check_and_merge (self : t) : io (list MergedResult.t * t) :=
  match totals_result self, client_result self, credit_result self, original_data self with
  | Some totals, Some client, Some credit, Some original =>
      let merged :=
        MergedResult.mk (InvoiceWithConfig.invoice original)
                        (InvoiceWithConfig.config original)
                        (TotalsResult.totals totals)
                        (ClientResult.client_info client)
                        (CreditResult.credit_check credit) in
      sequential_workflow.wait_for_user "proceed to RENDERING";;
      mret ([merged], init)
  | _, _, _, _ => mret ([], self)
  end.

Definition merge_totals (self : t) (result : TotalsResult.t) : io (list MergedResult.t * t) :=
  _check_and_merge
    (mk (Some result) (client_result self) (credit_result self) (original_data self)).

Definition merge_client (self : t) (result : ClientResult.t) : io (list MergedResult.t * t) :=
  _check_and_merge
    (mk (totals_result self) (Some result) (credit_result self) (original_data self)).

Definition merge_credit (self : t) (result : CreditResult.t) : io (list MergedResult.t * t) :=
  _check_and_merge
    (mk (totals_result self) (client_result self) (Some result) (original_data self)).

Definition store_original (self : t) (data : InvoiceWithConfig.t) : io (list MergedResult.t * t) :=
  _check_and_merge
    (mk (totals_result self) (client_result self) (credit_result self) (Some data)).

(** The handler the payload's type selects. *)
Definition handle (self : t) (msg : message) : io (list MergedResult.t * t) :=
  match msg with
  | MTotals result => merge_totals self result
  | MClient result => merge_client self result
  | MCredit result => merge_credit self result
  | MOriginal data => store_original self data
  end.

(** The merger handling its deliveries one after the other, in the order
    of arrival; the value collects what it sent to the renderer. *)
Fixpoint deliver_all (self : t) (arrivals : list message) : io (list MergedResult.t * t) :=
  match arrivals with
  | [] => mret ([], self)
  | msg :: rest =>
      '(sent, self') ← handle self msg;
      '(sent', self'') ← deliver_all self' rest;
      mret ((sent ++ sent')%list, self'')
  end.

(** The instance as the object it is: an attribute a handler has
    assigned stays assigned when the handler raises.  The functions of
    [stateful] return the instance in every outcome; [_check_and_merge]
    leaves the four slots set when [wait_for_user] raises, because the
    reset comes after it. *)
Module stateful.

(** The assignment a handler starts with: [self.totals_result = result]
    and the like. *)
Definition assign (self : t) (msg : message) : t :=
  match msg with
  | MTotals result =>
      mk (Some result) (client_result self) (credit_result self) (original_data self)
  | MClient result =>
      mk (totals_result self) (Some result) (credit_result self) (original_data self)
  | MCredit result =>
      mk (totals_result self) (client_result self) (Some result) (original_data self)
  | MOriginal data =>
      mk (totals_result self) (client_result self) (credit_result self) (Some data)
  end.

Definition _check_and_merge (self : t) (p : process)
  : (exn + list MergedResult.t) * t * process :=
  match totals_result self, client_result self, credit_result self, original_data self with
  | Some totals, Some client, Some credit, Some original =>
      let merged :=
        MergedResult.mk (InvoiceWithConfig.invoice original)
                        (InvoiceWithConfig.config original)
                        (TotalsResult.totals totals)
                        (ClientResult.client_info client)
                        (CreditResult.credit_check credit) in
      match sequential_workflow.wait_for_user "proceed to RENDERING" p with
      | (inl e, p') => (inl e, self, p')
      | (inr _, p') => (inr [merged], init, p')
      end
  | _, _, _, _ => (inr [], self, p)
  end.

(** The handler the payload's type selects. *)
Definition handle (self : t) (msg : message) (p : process)
  : (exn + list MergedResult.t) * t * process :=
  _check_and_merge (assign self msg) p.

(** The deliveries of one run, in the order of arrival: the run fails
    at the first handler that raises, and what is left of its messages is
    not delivered.  The value is what the run sent to the renderer, or
    the exception, with the instance as the run leaves it. *)
Fixpoint deliver_all (self : t) (arrivals : list message) (p : process)
  : (exn + list MergedResult.t) * t * process :=
  match arrivals with
  | [] => (inr [], self, p)
  | msg :: rest =>
      match handle self msg p with
      | (inl e, self', p') => (inl e, self', p')
      | (inr sent, self', p') =>
          match deliver_all self' rest p' with
          | (inl e, self'', p'') => (inl e, self'', p'')
          | (inr sent', self'', p'') => (inr (sent ++ sent')%list, self'', p'')
          end
      end
  end.

End stateful.

End ResultsMerger.

(** [run_workflow()]: the fan-out of the dispatcher and the edges into
    the merger, as the builder declares them. *)
Inductive executor : Type :=
| dispatcher | totals_calc | client_prep | credit_checker | merger | renderer.

Definition fan_out_edges (source : executor) : list executor :=
  match source with
  | dispatcher => [totals_calc; client_prep; credit_checker; merger]
  | totals_calc | client_prep | credit_checker => [merger]
  | merger => [renderer]
  | renderer => []
  end.

(** What one run delivers to the merger: the dispatched data and one
    result from each parallel task. *)
Definition merger_inbox (data : InvoiceWithConfig.t) (totals : TotalsResult.t)
    (client : ClientResult.t) (credit : CreditResult.t) : list message :=
  [MOriginal data; MTotals totals; MClient client; MCredit credit].

End concurrent_workflow.

(** ** new_18_branching_workflow.py *)

Module branching_workflow.

(** [@dataclass class InvoiceDecision] *)
Module InvoiceDecision.
Record t : Type := mk {
  invoice : InvoiceData;
  config : InvoiceConfig;
  totals : gmap string float;
  decision_type : string;
  reason : string
}.
End InvoiceDecision.

(** The executors [run_workflow] creates. *)
Inductive executor : Type :=
| loader | archive_handler | high_value_handler | preferred_handler
| standard_handler | finalizer.

#[global] Instance executor_eq_dec : EqDecision executor.
Proof. solve_decision. Defined.

(** [is_archive_needed], [is_high_value], [is_preferred] *)
Definition is_archive_needed (decision : InvoiceDecision.t) : bool :=
  bool_decide (InvoiceDecision.decision_type decision = "archive_needed").

Definition is_high_value (decision : InvoiceDecision.t) : bool :=
  bool_decide (InvoiceDecision.decision_type decision = "high_value").

Definition is_preferred (decision : InvoiceDecision.t) : bool :=
  bool_decide (InvoiceDecision.decision_type decision = "preferred").

(** The two groups [run_workflow] passes to [add_switch_case_edge_group]. *)
Definition loader_group : engine.SwitchCaseGroup InvoiceDecision.t executor :=
  engine.mkGroup
    [ engine.mkCase is_archive_needed archive_handler;
      engine.mkCase is_high_value high_value_handler;
      engine.mkCase is_preferred preferred_handler ]
    standard_handler.

Definition archive_group : engine.SwitchCaseGroup InvoiceDecision.t executor :=
  engine.mkGroup
    [ engine.mkCase is_high_value high_value_handler;
      engine.mkCase is_preferred preferred_handler ]
    standard_handler.

Section with_runtime.
Context `{!Runtime, !Installation}.

Definition DATA_DIR : string := path_join BASE_DIR "data".
Definition OUTPUT_DIR : string := path_join BASE_DIR "output".
Definition ARCHIVE_DIR : string := path_join BASE_DIR "archive".
Definition LOGS_DIR : string := path_join BASE_DIR "logs".

(** [show_menu] and [wait_for_user] have the text of the sequential script. *)
Definition show_menu : list InvoiceData → io string := sequential_workflow.show_menu.
Definition wait_for_user : string → io unit := sequential_workflow.wait_for_user.

(** [analyze_invoice_routing(invoice, config) -> (decision_type, reason)] *)
Definition analyze_invoice_routing (invoice : InvoiceData) (config : InvoiceConfig)
  : io (string * string) :=
  let totals := calculate_invoice_totals invoice config in
  let output_file := path_join OUTPUT_DIR (invoice_id invoice +:+ ".txt") in
  found ← path_exists output_file;
  if found : bool then
    mret ("archive_needed", "Existing file found - needs archiving")
  else
    match totals !! "subtotal" with
    | None => raise (KeyError "subtotal")
    | Some subtotal =>
        if (subtotal >=? high_value_threshold config)%float then
          mret ("high_value",
                "High value ($" +:+ format_2f subtotal +:+ ") - applying discount")
        else if invoice_utils.is_preferred invoice then
          mret ("preferred", "Preferred client - applying loyalty discount")
        else
          mret ("standard", "Normal processing")
    end.

(** [InvoiceLoader.load_and_analyze] *)
Definition InvoiceLoader_load_and_analyze (start_signal : string) : io InvoiceDecision.t :=
  let config := InvoiceConfig_init in
  let csv_path := path_join DATA_DIR "invoices.csv" in
  all_invoices ← lift (read_invoices_csv csv_path);
  selected ← show_menu all_invoices;
  sequential_workflow.set_selected_invoice_id selected;;
  selected_invoice ← sequential_workflow.next_selected all_invoices;
  '(decision_type, reason) ← analyze_invoice_routing selected_invoice config;
  let totals := calculate_invoice_totals selected_invoice config in
  let decision := InvoiceDecision.mk selected_invoice config totals decision_type reason in
  p ← get_process;
  log_action ("Selected and analyzed "
              +:+ sequential_workflow.str_of_global (selected_invoice_id p)
              +:+ ": " +:+ decision_type) LOGS_DIR;;
  wait_for_user "start BRANCHING workflow";;
  mret decision.

(** [ArchiveHandler.archive_old]; the assignments to
    [decision.decision_type] and [decision.reason] update the one
    decision object that travels on. *)
Definition ArchiveHandler_archive_old (decision : InvoiceDecision.t) : io InvoiceDecision.t :=
  let invoice := InvoiceDecision.invoice decision in
  ensure_directories [ARCHIVE_DIR];;
  archived ← archive_old_invoice (invoice_id invoice) OUTPUT_DIR ARCHIVE_DIR;
  (if archived : bool
   then log_action ("Archived old invoice " +:+ invoice_id invoice) LOGS_DIR
   else mret tt);;
  '(decision_type, reason) ←
    analyze_invoice_routing invoice (InvoiceDecision.config decision);
  let decision :=
    InvoiceDecision.mk invoice (InvoiceDecision.config decision)
                       (InvoiceDecision.totals decision) decision_type reason in
  wait_for_user "continue to NEXT BRANCH";;
  mret decision.

(** [HighValueHandler.process_high_value] *)
Definition HighValueHandler_process_high_value (decision : InvoiceDecision.t)
  : io InvoiceDecision.t :=
  log_action ("Applied high-value discount to "
              +:+ invoice_id (InvoiceDecision.invoice decision)) LOGS_DIR;;
  wait_for_user "proceed to FINALIZATION";;
  mret decision.

(** [PreferredClientHandler.process_preferred] *)
Definition PreferredClientHandler_process_preferred (decision : InvoiceDecision.t)
  : io InvoiceDecision.t :=
  log_action ("Applied preferred client discount to "
              +:+ invoice_id (InvoiceDecision.invoice decision)) LOGS_DIR;;
  wait_for_user "proceed to FINALIZATION";;
  mret decision.

(** [StandardHandler.process_standard] *)
Definition StandardHandler_process_standard (decision : InvoiceDecision.t)
  : io InvoiceDecision.t :=
  log_action ("Standard processing for "
              +:+ invoice_id (InvoiceDecision.invoice decision)) LOGS_DIR;;
  wait_for_user "proceed to FINALIZATION";;
  mret decision.

(** [decision_type.replace('_', ' ')] *)
Fixpoint replace_underscores (s : string) : string :=
  match s with
  | "" => ""
  | String c rest =>
      String (if Ascii.eqb c "_"%char then " "%char else c) (replace_underscores rest)
  end.

(** [InvoiceFinalizer.finalize]; the value is the output it yields. *)
Definition InvoiceFinalizer_finalize (decision : InvoiceDecision.t) : io string :=
  let invoice := InvoiceDecision.invoice decision in
  let decision_type := InvoiceDecision.decision_type decision in
  let invoice_text :=
    render_invoice_text invoice (InvoiceDecision.totals decision)
                        (InvoiceDecision.config decision) in
  let branch_info :=
    newline +:+ "BRANCHING DECISION:" +:+ newline +:+ "==================" +:+ newline
    +:+ "Decision Type: " +:+ str_upper decision_type +:+ newline
    +:+ "Reason: " +:+ InvoiceDecision.reason decision +:+ newline
    +:+ "Processing Path: " +:+ str_title (replace_underscores decision_type)
    +:+ newline +:+ newline in
  let full_invoice_text := invoice_text +:+ branch_info in
  ensure_directories [OUTPUT_DIR; LOGS_DIR];;
  filepath ← save_invoice_file (invoice_id invoice) full_invoice_text OUTPUT_DIR;
  log_action ("Finalized " +:+ invoice_id invoice +:+ " via " +:+ decision_type
              +:+ " branch") LOGS_DIR;;
  mret ("Branching workflow completed! Invoice " +:+ invoice_id invoice
        +:+ " processed via " +:+ decision_type +:+ " branch.").

(** The payloads on the edges of the graph. *)
Inductive message : Type :=
| MStart (start_signal : string)
| MDecision (decision : InvoiceDecision.t).

(** The graph [run_workflow()] builds: the handler of each executor, the
    two switch-case groups and the three edges into the finalizer. *)
Definition sends (h : io InvoiceDecision.t) : unit → io (engine.outcome message string * unit) :=
  λ _, decision ← h; mret (engine.Send [MDecision decision], tt).

Definition workflow : engine.Graph executor message string unit :=
  engine.mkGraph
    (λ n m,
       match n, m with
       | loader, MStart start_signal =>
           Some (sends (InvoiceLoader_load_and_analyze start_signal))
       | archive_handler, MDecision decision =>
           Some (sends (ArchiveHandler_archive_old decision))
       | high_value_handler, MDecision decision =>
           Some (sends (HighValueHandler_process_high_value decision))
       | preferred_handler, MDecision decision =>
           Some (sends (PreferredClientHandler_process_preferred decision))
       | standard_handler, MDecision decision =>
           Some (sends (StandardHandler_process_standard decision))
       | finalizer, MDecision decision =>
           Some (λ _, output ← InvoiceFinalizer_finalize decision;
                      mret (engine.YieldOutput output, tt))
       | _, _ => None
       end)
    (λ n m,
       match n, m with
       | loader, MDecision decision => engine.deliveries loader_group decision
       | archive_handler, MDecision decision => engine.deliveries archive_group decision
       | (high_value_handler | preferred_handler | standard_handler), _ => [finalizer]
       | _, _ => []
       end)
    (λ _, false).

(** [run_workflow()]: [workflow.run_stream("start")]. *)
Definition run_workflow (fuel : nat)
  : io (engine.RunState executor message string unit * list (engine.step executor message)) :=
  engine.run workflow None fuel loader 0 tt (MStart "start").

End with_runtime.

End branching_workflow.

(** ** new_19_interactive_checkpointing.py *)

Module interactive_checkpointing.

Module TaxConfirmationRequest.
Record t : Type := mk {
  invoice_id : value;
  question : string;
  current_value : float;
  options : string
}.
End TaxConfirmationRequest.

Module DiscountConfirmationRequest.
Record t : Type := mk {
  invoice_id : value;
  question : string;
  current_value : float;
  options : string
}.
End DiscountConfirmationRequest.

(** [@dataclass class InvoiceState].  [invoice_id] is whatever object the
    constructor is given: the processors pass what the shared state
    holds. *)
Module InvoiceState.
Record t : Type := mk {
  invoice_id : value;
  subtotal : float;
  tax_rate : float;
  tax_amount : float;
  discount_rate : float;
  discount_amount : float;
  tax_confirmed : bool;
  discount_confirmed : bool;
  processing_stage : string
}.
End InvoiceState.

(** The payload types of the graph. *)
Inductive payload : Type :=
| PInvoiceData (invoice_data : InvoiceData)
| PInvoiceState (state : InvoiceState.t)
| PTaxConfirmationRequest (request : TaxConfirmationRequest.t)
| PDiscountConfirmationRequest (request : DiscountConfirmationRequest.t).

(** What a [WorkflowContext] gives access to: the state each executor
    set with [set_state], by executor id, and the shared state. *)
Record context : Type := mkContext {
  executor_state : gmap string (gmap string value);
  shared_state : gmap string value
}.

(** [ctx.set_state(fields)] from the executor [self_id] *)
Definition set_state (self_id : string) (fields : gmap string value) (ctx : context) : context :=
  mkContext (<[self_id := fields]> (executor_state ctx)) (shared_state ctx).

(** [ctx.set_shared_state(key, v)] *)
Definition set_shared_state (key : string) (v : value) (ctx : context) : context :=
  mkContext (executor_state ctx) (<[key := v]> (shared_state ctx)).

(** [ctx.get_shared_state(key, default)] *)
Definition get_shared_state (key : string) (default : value) (ctx : context) : value :=
  match shared_state ctx !! key with
  | Some v => v
  | None => default
  end.

Definition timestamp : value := VStr "2025-10-21T12:00:00Z".

Section with_runtime.
Context `{!Runtime, !Installation}.

Definition DATA_DIR : string := path_join BASE_DIR "data".
Definition OUTPUT_DIR : string := path_join BASE_DIR "output".
Definition LOGS_DIR : string := path_join BASE_DIR "logs".

(** [InvoicePreparation.prepare] *)
Definition InvoicePreparation_prepare (self_id : string) (invoice_data : InvoiceData)
    (ctx : context) : io (InvoiceState.t * context) :=
  let config := InvoiceConfig_init in
  let totals := calculate_invoice_totals invoice_data config in
  let invoice_id := VStr (invoice_id invoice_data) in
  let subtotal := subtotal invoice_data in
  let tax_rate := tax_rate config in
  match totals !! "tax" with
  | None => raise (KeyError "tax")
  | Some tax_amount =>
      let discount_amount :=
        (default 0.0 (totals !! "high_value_discount")
         + default 0.0 (totals !! "preferred_discount"))%float in
      let discount_rate :=
        if (subtotal >? 0)%float then (discount_amount / subtotal)%float else 0.0%float in
      let state :=
        InvoiceState.mk invoice_id subtotal tax_rate tax_amount discount_rate
                        discount_amount false false "preparation" in
      let ctx :=
        set_state self_id
          (<["step" := VStr "preparation"]>
           (<["invoice_id" := invoice_id]>
           (<["subtotal" := VFloat subtotal]>
           (<["timestamp" := timestamp]> ∅)))) ctx in
      let ctx := set_shared_state "current_invoice_id" invoice_id ctx in
      let ctx := set_shared_state "processing_stage" (VStr "preparation") ctx in
      mret (state, ctx)
  end.

(** [TaxConfirmationRequester.request_tax_confirmation] *)
Definition TaxConfirmationRequester_request_tax_confirmation (self_id : string)
    (state : InvoiceState.t) (ctx : context) : io (TaxConfirmationRequest.t * context) :=
  let request :=
    TaxConfirmationRequest.mk
      (InvoiceState.invoice_id state)
      ("Confirm tax calculation for " +:+ str (InvoiceState.invoice_id state) +:+ "?")
      (InvoiceState.tax_amount state)
      "Type 'yes' to confirm or 'no' to skip" in
  let ctx :=
    set_state self_id
      (<["step" := VStr "tax_request"]>
       (<["invoice_id" := InvoiceState.invoice_id state]>
       (<["tax_amount" := VFloat (InvoiceState.tax_amount state)]>
       (<["timestamp" := timestamp]> ∅)))) ctx in
  let ctx := set_shared_state "current_invoice_id" (InvoiceState.invoice_id state) ctx in
  let ctx := set_shared_state "processing_stage" (VStr "tax_confirmation") ctx in
  mret (request, ctx).

(** [TaxConfirmationProcessor.process_tax_response] *)
Definition TaxConfirmationProcessor_process_tax_response (self_id : string)
    (response : TaxConfirmationRequest.t) (ctx : context) : io (InvoiceState.t * context) :=
  let invoice_id := get_shared_state "current_invoice_id" (VStr "INV-001") ctx in
  let tax_amount := TaxConfirmationRequest.current_value response in
  let state :=
    InvoiceState.mk invoice_id 6000.0 0.10 tax_amount 0.08 480.0 true false
                    "tax_processed" in
  let state :=
    if InvoiceState.tax_confirmed state then state
    else InvoiceState.mk invoice_id 6000.0 0.10 0.0 0.08 480.0 true false "tax_processed" in
  let ctx :=
    set_state self_id
      (<["step" := VStr "tax_processed"]>
       (<["invoice_id" := InvoiceState.invoice_id state]>
       (<["tax_confirmed" := VBool (InvoiceState.tax_confirmed state)]>
       (<["tax_amount" := VFloat (InvoiceState.tax_amount state)]>
       (<["timestamp" := timestamp]> ∅))))) ctx in
  let ctx := set_shared_state "processing_stage" (VStr "tax_processed") ctx in
  let ctx := set_shared_state "tax_confirmed" (VBool (InvoiceState.tax_confirmed state)) ctx in
  mret (state, ctx).

(** [DiscountConfirmationRequester.request_discount_confirmation]: a
    request when there is a discount, else the state itself. *)
Definition DiscountConfirmationRequester_request_discount_confirmation (self_id : string)
    (state : InvoiceState.t) (ctx : context) : io (payload * context) :=
  if (InvoiceState.discount_amount state >? 0)%float then
    let request :=
      DiscountConfirmationRequest.mk
        (InvoiceState.invoice_id state)
        ("Apply discount to " +:+ str (InvoiceState.invoice_id state) +:+ "?")
        (InvoiceState.discount_amount state)
        "Type 'yes' to apply or 'no' to skip" in
    let ctx :=
      set_state self_id
        (<["step" := VStr "discount_request"]>
         (<["invoice_id" := InvoiceState.invoice_id state]>
         (<["discount_amount" := VFloat (InvoiceState.discount_amount state)]>
         (<["timestamp" := timestamp]> ∅)))) ctx in
    let ctx := set_shared_state "processing_stage" (VStr "discount_confirmation") ctx in
    mret (PDiscountConfirmationRequest request, ctx)
  else
    let state :=
      InvoiceState.mk (InvoiceState.invoice_id state) (InvoiceState.subtotal state)
        (InvoiceState.tax_rate state) (InvoiceState.tax_amount state)
        (InvoiceState.discount_rate state) (InvoiceState.discount_amount state)
        (InvoiceState.tax_confirmed state) true "discount_skipped" in
    let ctx :=
      set_state self_id
        (<["step" := VStr "discount_skipped"]>
         (<["invoice_id" := InvoiceState.invoice_id state]>
         (<["timestamp" := timestamp]> ∅))) ctx in
    mret (PInvoiceState state, ctx).

(** [DiscountConfirmationProcessor.process_discount_response] *)
Definition DiscountConfirmationProcessor_process_discount_response (self_id : string)
    (response : DiscountConfirmationRequest.t) (ctx : context)
  : io (InvoiceState.t * context) :=
  let invoice_id := get_shared_state "current_invoice_id" (VStr "INV-001") ctx in
  let discount_amount := DiscountConfirmationRequest.current_value response in
  let state :=
    InvoiceState.mk invoice_id 6000.0 0.10 600.0 0.08 discount_amount true true
                    "discount_processed" in
  let state :=
    if InvoiceState.discount_confirmed state then state
    else InvoiceState.mk invoice_id 6000.0 0.10 600.0 0.08 0.0 true true
                         "discount_processed" in
  let ctx :=
    set_state self_id
      (<["step" := VStr "discount_processed"]>
       (<["invoice_id" := InvoiceState.invoice_id state]>
       (<["discount_confirmed" := VBool (InvoiceState.discount_confirmed state)]>
       (<["discount_amount" := VFloat (InvoiceState.discount_amount state)]>
       (<["timestamp" := timestamp]> ∅))))) ctx in
  let ctx := set_shared_state "processing_stage" (VStr "discount_processed") ctx in
  let ctx :=
    set_shared_state "discount_confirmed" (VBool (InvoiceState.discount_confirmed state)) ctx in
  mret (state, ctx).

(** [InvoiceFinalizer.finalize]; the value is the output it yields. *)
Definition InvoiceFinalizer_finalize (self_id : string) (state : InvoiceState.t)
    (ctx : context) : io (string * context) :=
  let final_total := InvoiceState.subtotal state in
  let final_total :=
    if InvoiceState.tax_confirmed state
    then (final_total + InvoiceState.tax_amount state)%float else final_total in
  let final_total :=
    if InvoiceState.discount_confirmed state
    then (final_total - InvoiceState.discount_amount state)%float else final_total in
  let output_dir := path_join BASE_DIR "output" in
  create output_dir;;
  let output_file :=
    path_join output_dir (str (InvoiceState.invoice_id state) +:+ "_final.txt") in
  create output_file;;
  let ctx :=
    set_state self_id
      (<["step" := VStr "completed"]>
       (<["invoice_id" := InvoiceState.invoice_id state]>
       (<["final_total" := VFloat final_total]>
       (<["tax_confirmed" := VBool (InvoiceState.tax_confirmed state)]>
       (<["discount_confirmed" := VBool (InvoiceState.discount_confirmed state)]>
       (<["timestamp" := timestamp]> ∅)))))) ctx in
  let ctx := set_shared_state "processing_stage" (VStr "completed") ctx in
  let ctx := set_shared_state "final_total" (VFloat final_total) ctx in
  mret ("Invoice " +:+ str (InvoiceState.invoice_id state)
        +:+ " completed with user confirmations!", ctx).

(** The executors [main()] creates, with the ids it gives them. *)
Inductive executor : Type :=
| preparer | tax_requester | tax_processor | discount_requester
| discount_processor | finalizer.

Definition executor_id (n : executor) : string :=
  match n with
  | preparer => "preparer"
  | tax_requester => "tax_requester"
  | tax_processor => "tax_processor"
  | discount_requester => "discount_requester"
  | discount_processor => "discount_processor"
  | finalizer => "finalizer"
  end.

(** A handler's returned value is the message it passes on. *)
Definition passes_on {A : Type} (wrap : A → payload) (h : context → io (A * context))
  : context → io (engine.outcome payload string * context) :=
  λ ctx, '(x, ctx') ← h ctx; mret (engine.Send [wrap x], ctx').

(** The graph [main()] builds: each executor's handler is bound to the
    type its parameter is annotated with; the edges form the chain
    preparer -> tax_requester -> tax_processor -> discount_requester ->
    discount_processor -> finalizer; the two confirmation requests ask
    for external input. *)
Definition workflow : engine.Graph executor payload string context :=
  engine.mkGraph
    (λ n m,
       match n, m with
       | preparer, PInvoiceData invoice_data =>
           Some (passes_on PInvoiceState
                   (InvoicePreparation_prepare (executor_id n) invoice_data))
       | tax_requester, PInvoiceState state =>
           Some (passes_on PTaxConfirmationRequest
                   (TaxConfirmationRequester_request_tax_confirmation (executor_id n) state))
       | tax_processor, PTaxConfirmationRequest response =>
           Some (passes_on PInvoiceState
                   (TaxConfirmationProcessor_process_tax_response (executor_id n) response))
       | discount_requester, PInvoiceState state =>
           Some (passes_on id
                   (DiscountConfirmationRequester_request_discount_confirmation
                      (executor_id n) state))
       | discount_processor, PDiscountConfirmationRequest response =>
           Some (passes_on PInvoiceState
                   (DiscountConfirmationProcessor_process_discount_response
                      (executor_id n) response))
       | finalizer, PInvoiceState state =>
           Some (λ ctx, '(output, ctx') ← InvoiceFinalizer_finalize (executor_id n) state ctx;
                        mret (engine.YieldOutput output, ctx'))
       | _, _ => None
       end)
    (λ n _,
       match n with
       | preparer => [tax_requester]
       | tax_requester => [tax_processor]
       | tax_processor => [discount_requester]
       | discount_requester => [discount_processor]
       | discount_processor => [finalizer]
       | finalizer => []
       end)
    (λ m,
       match m with
       | PTaxConfirmationRequest _ | PDiscountConfirmationRequest _ => true
       | _ => false
       end).

(** The events of a run as the caller of [run_stream] sees them. *)
Inductive event : Type :=
| WorkflowOutputEvent (data : string)
| WorkflowFailedEvent (e : engine.error)
| WorkflowStatusEvent (state : string).

(** Modelled from the spec: the event stream of section 4.5 for the
    status a run ends its pass in (the stream of the package is
    missing). *)
Definition events_of (st : engine.status string) : list event :=
  match st with
  | engine.Completed data => [WorkflowStatusEvent "IDLE"; WorkflowOutputEvent data]
  | engine.Failed e => [WorkflowFailedEvent e]
  | engine.Paused => [WorkflowStatusEvent "IDLE_WITH_PENDING_REQUESTS"]
  | engine.Running => [WorkflowStatusEvent "IN_PROGRESS"]
  end.

(** [for event in events: if isinstance(event, WorkflowOutputEvent): ...] *)
Fixpoint first_output (events : list event) : option string :=
  match events with
  | [] => None
  | WorkflowOutputEvent data :: _ => Some data
  | _ :: rest => first_output rest
  end.

(** What [run_interactive_workflow] reports on the console. *)
Inductive report : Type :=
| WorkflowComplete (data : string)
| ResponsesCollected (tax_response discount_response : string).

(** [run_interactive_workflow(workflow, checkpoint_storage, selected_invoice)]:
    one pass of [workflow.run_stream(selected_invoice)]; when no output
    event came, the two answers are read.  The value pairs the report
    with the run as the pass left it. *)
Definition run_interactive_workflow (fuel : nat) (id : nat) (ctx : context)
    (selected_invoice : InvoiceData)
  : io (report * engine.RunState executor payload string context) :=
  '(rs, _) ← engine.run workflow None fuel preparer id ctx (PInvoiceData selected_invoice);
  let events := events_of (engine.run_status rs) in
  match first_output events with
  | Some data => mret (WorkflowComplete data, rs)
  | None =>
      tax_line ← input;
      let tax_response := str_strip_lower tax_line in
      discount_line ← input;
      let discount_response := str_strip_lower discount_line in
      mret (ResponsesCollected tax_response discount_response, rs)
  end.

End with_runtime.

End interactive_checkpointing.

(** ** invoice_utils.py: the text of an invoice *)

Module invoice_text.

(** What the interpreter provides for laying out text: [s.center(width)],
    the alignments [f"{s:<width}"] and [f"{s:>width}"] (which pad by
    characters), [s.strip()], the slice [s[:n]] (which counts characters)
    and the format [f"{x:,.2f}"] of a float. *)
Class Formatting : Type := {
  center : nat → string → string;
  ljust : nat → string → string;
  rjust : nat → string → string;
  str_strip : string → string;
  str_prefix : nat → string → string;
  format_comma_2f : float → string
}.

(** [s * n] *)
Fixpoint str_mul (s : string) (n : nat) : string :=
  match n with
  | 0 => ""
  | S n' => s +:+ str_mul s n'
  end.

(** [sep.join(lines)] *)
Fixpoint join (sep : string) (lines : list string) : string :=
  match lines with
  | [] => ""
  | [line] => line
  | line :: rest => line +:+ sep +:+ join sep rest
  end.

Section with_runtime.
Context `{!Runtime, !Formatting}.

(** [f"{label:<65} ${amount:>14.2f}"] and [f"{label:<65} -${amount:>13.2f}"] *)
Definition amount_line (label : string) (amount : float) : string :=
  ljust 65 label +:+ " $" +:+ rjust 14 (format_2f amount).

Definition discount_line (label : string) (amount : float) : string :=
  ljust 65 label +:+ " -$" +:+ rjust 13 (format_2f amount).

(** [render_invoice_text(invoice, totals, config) -> str]; the lines are
    appended in the order of the source, so that the first key missing
    from [totals] is the one the KeyError names. *)
Definition render_invoice_text (invoice : InvoiceData) (totals : gmap string float)
    (config : InvoiceConfig) : exn + string :=
  let lines :=
    [ str_mul "=" 80;
      center 80 (company_name config);
      center 80 (company_address config);
      str_mul "=" 80;
      "";
      "INVOICE: " +:+ invoice_id invoice;
      "Date: " +:+ date invoice;
      "";
      "Bill To:";
      "  " +:+ client_name invoice;
      "  " +:+ client_email invoice ] in
  let lines :=
    if is_preferred invoice then (lines ++ ["  ⭐ PREFERRED CLIENT"])%list else lines in
  let lines :=
    (lines ++ [ "";
                str_mul "-" 80;
                ljust 40 "DESCRIPTION" +:+ " " +:+ ljust 10 "QTY" +:+ " "
                +:+ ljust 15 "PRICE" +:+ " " +:+ rjust 15 "AMOUNT";
                str_mul "-" 80 ])%list in
  subtotal ← index totals "subtotal";
  let lines :=
    (lines ++ [ ljust 40 (item_description invoice) +:+ " "
                +:+ ljust 10 (str_of_int (quantity invoice)) +:+ " "
                +:+ "$" +:+ ljust 14 (format_2f (unit_price invoice))
                +:+ " $" +:+ rjust 14 (format_2f subtotal);
                "" ])%list in
  subtotal ← index totals "subtotal";
  let lines := (lines ++ [amount_line "Subtotal:" subtotal])%list in
  high_value_discount ← index totals "high_value_discount";
  let lines :=
    if (high_value_discount >? 0)%float
    then (lines ++ [discount_line "High Value Discount (5%):" high_value_discount])%list
    else lines in
  preferred_discount ← index totals "preferred_discount";
  let lines :=
    if (preferred_discount >? 0)%float
    then (lines ++ [discount_line "Preferred Client Discount (3%):" preferred_discount])%list
    else lines in
  total_discount ← index totals "total_discount";
  lines ←
    (if (total_discount >? 0)%float
     then amount_after_discount ← index totals "amount_after_discount";
          mret (lines ++ [amount_line "Amount After Discount:" amount_after_discount])%list
     else mret lines);
  tax ← index totals "tax";
  let lines := (lines ++ [amount_line "Tax (10%):" tax; str_mul "-" 80])%list in
  total ← index totals "total";
  let lines :=
    (lines ++ [ amount_line "TOTAL DUE:" total;
                str_mul "=" 80;
                "";
                "Thank you for your business!";
                "" ])%list in
  mret (join newline lines).

End with_runtime.

End invoice_text.

(** ** new_17_concurrent_workflow.py: the parallel tasks and the renderer *)

Module concurrent_tasks.

Import concurrent_workflow invoice_text.

(** What can be raised while the renderer builds its text: the
    exceptions of [exn] and, from the format [:,.2f], ValueError for a
    string and OverflowError for an [int] beyond the floats. *)
Inductive exception : Type :=
| Raised (e : exn)
| ValueError
| OverflowError.

(** [bool(v)] *)
Definition truthy (v : value) : bool :=
  match v with
  | VStr s => negb (String.eqb s "")
  | VFloat f => negb (f =? 0)%float
  | VInt z => negb (z =? 0)%Z
  | VBool b => b
  end.

(** The number the format [:,.2f] renders for [v]. *)
Definition as_float (v : value) : exception + float :=
  match v with
  | VStr _ => inl ValueError
  | VFloat f => inr f
  | VInt z =>
      let f := float_of_int z in
      if PrimFloat.is_infinity f then inl OverflowError else inr f
  | VBool b => inr (if b then 1.0 else 0.0)%float
  end.

Section with_runtime.
Context `{!Runtime, !Installation, !Formatting}.

Definition OUTPUT_DIR : string := path_join BASE_DIR "output".

(** [ClientInfoPreparer.prepare] *)
Definition ClientInfoPreparer_prepare (data : InvoiceWithConfig.t) : ClientResult.t :=
  let invoice := InvoiceWithConfig.invoice data in
  let client_info : gmap string value :=
    <["name" := VStr (client_name invoice)]>
    (<["email" := VStr (client_email invoice)]>
    (<["is_preferred" := VBool (is_preferred invoice)]>
    (<["status" := VStr (if is_preferred invoice then "VIP" else "Standard")]>
    (<["greeting" := VStr ("Dear " +:+ client_name invoice +:+ ",")]>
    (<["account_manager" :=
         VStr ("AM-" +:+ str_upper (str_prefix 3 (client_name invoice)))]>
    (<["last_order_date" :=
         VStr (if is_preferred invoice then "2024-12-01" else "2024-11-15")]> ∅)))))) in
  ClientResult.mk (invoice_id invoice) client_info.

(** [CreditChecker.check_credit].  The score and the limit are [int]s;
    the comparisons and the subtraction with the float amount convert
    them (they are small enough to be floats exactly). *)
Definition CreditChecker_check_credit (data : InvoiceWithConfig.t) : CreditResult.t :=
  let invoice := InvoiceWithConfig.invoice data in
  let invoice_amount := subtotal invoice in
  let is_preferred := is_preferred invoice in
  let '(credit_score, credit_limit, risk_level) :=
    if is_preferred then (850, 50000, "LOW")%Z
    else if (invoice_amount >? float_of_int 5000)%float then (720, 25000, "MEDIUM")%Z
    else (650, 10000, "MEDIUM")%Z in
  let approved := (invoice_amount <=? float_of_int credit_limit)%float in
  let credit_check : gmap string value :=
    <["credit_score" := VInt credit_score]>
    (<["credit_limit" := VInt credit_limit]>
    (<["risk_level" := VStr risk_level]>
    (<["approved" := VBool approved]>
    (<["invoice_amount" := VFloat invoice_amount]>
    (<["available_credit" :=
         if approved then VFloat (float_of_int credit_limit - invoice_amount)%float
         else VInt 0]>
    (<["check_timestamp" := VStr "2024-12-09T10:30:00Z"]> ∅)))))) in
  CreditResult.mk (invoice_id invoice) credit_check.

(** [d[key]] where the exception joins the renderer's. *)
Definition item (d : gmap string value) (key : string) : exception + value :=
  match d !! key with
  | Some v => inr v
  | None => inl (Raised (KeyError key))
  end.

#[export] Instance exception_ret : MRet (sum exception) := λ A x, inr x.
#[export] Instance exception_bind : MBind (sum exception) := λ A B f r,
  match r with
  | inl e => inl e
  | inr x => f x
  end.

(** [f"${v:,.2f}"] *)
Definition dollars (v : value) : exception + string :=
  x ← as_float v; mret ("$" +:+ format_comma_2f x).

(** The two blocks [InvoiceRenderer.render] appends to the invoice. *)
Definition credit_info (credit_check : gmap string value) : exception + string :=
  approved ← item credit_check "approved";
  credit_score ← item credit_check "credit_score";
  credit_limit ← item credit_check "credit_limit";
  credit_limit ← dollars credit_limit;
  risk_level ← item credit_check "risk_level";
  invoice_amount ← item credit_check "invoice_amount";
  invoice_amount ← dollars invoice_amount;
  available_credit ← item credit_check "available_credit";
  available_credit ← dollars available_credit;
  check_timestamp ← item credit_check "check_timestamp";
  mret (newline +:+ "CREDIT CHECK RESULTS:" +:+ newline
        +:+ "====================" +:+ newline
        +:+ "Status: " +:+ (if truthy approved then "APPROVED" else "DECLINED") +:+ newline
        +:+ "Credit Score: " +:+ str credit_score +:+ newline
        +:+ "Credit Limit: " +:+ credit_limit +:+ newline
        +:+ "Risk Level: " +:+ str risk_level +:+ newline
        +:+ "Invoice Amount: " +:+ invoice_amount +:+ newline
        +:+ "Available Credit: " +:+ available_credit +:+ newline
        +:+ "Check Date: " +:+ str check_timestamp +:+ newline +:+ newline).

Definition client_info_text (client_info : gmap string value) : exception + string :=
  name ← item client_info "name";
  email ← item client_info "email";
  status ← item client_info "status";
  account_manager ← item client_info "account_manager";
  last_order_date ← item client_info "last_order_date";
  mret (newline +:+ "CLIENT INFORMATION:" +:+ newline
        +:+ "==================" +:+ newline
        +:+ "Name: " +:+ str name +:+ newline
        +:+ "Email: " +:+ str email +:+ newline
        +:+ "Status: " +:+ str status +:+ newline
        +:+ "Account Manager: " +:+ str account_manager +:+ newline
        +:+ "Last Order: " +:+ str last_order_date +:+ newline +:+ newline).

(** [invoice_text + credit_info + client_info], built in that order. *)
Definition full_invoice_text (data : MergedResult.t) : exception + string :=
  invoice_text ←
    match invoice_text.render_invoice_text (MergedResult.invoice data)
            (MergedResult.totals data) (MergedResult.config data) with
    | inl e => inl (Raised e)
    | inr text => inr text
    end;
  credit ← credit_info (MergedResult.credit_check data);
  client ← client_info_text (MergedResult.client_info data);
  mret (invoice_text +:+ credit +:+ client).

(** [InvoiceRenderer.render]: the directories are made first; an
    exception raised while the text is built leaves the handler there
    (the value [inl]); otherwise the file is saved, the action logged and
    the summary yielded (the value [inr]). *)
Definition InvoiceRenderer_render (data : MergedResult.t) : io (exception + string) :=
  ensure_directories [OUTPUT_DIR; LOGS_DIR];;
  match full_invoice_text data with
  | inl e => mret (inl e)
  | inr full_invoice_text =>
      let invoice := MergedResult.invoice data in
      filepath ← save_invoice_file (invoice_id invoice) full_invoice_text OUTPUT_DIR;
      log_action ("Rendered and saved " +:+ invoice_id invoice
                  +:+ " using concurrent workflow with credit check") LOGS_DIR;;
      mret (inr ("Concurrent workflow completed! Invoice " +:+ invoice_id invoice
                 +:+ " processed with 3 parallel tasks."))
  end.

End with_runtime.

End concurrent_tasks.

(** ** new_16_sequential_workflow.py: the loop of [main] *)

Module sequential_main.

Section with_runtime.
Context `{!Runtime, !Installation}.


End with_runtime.

End sequential_main.

(** ** new_19_interactive_checkpointing.py: the menu *)

Module interactive_menu.

Section with_runtime.
Context `{!Runtime}.

(** The loop of [show_invoice_menu(invoices)] *)
Fixpoint show_invoice_menu_loop (invoices : list InvoiceData) (lines : list string)
  : (exn + InvoiceData) * list string :=
  match lines with
  | [] => (inl EOFError, [])
  | choice :: rest =>
      match int_of_str choice with
      | Some idx =>
          if bool_decide (1 ≤ idx ≤ Z.of_nat (length invoices))%Z then
            match invoices !! Z.to_nat (idx - 1) with
            | Some inv => (inr inv, rest)
            | None => (inl IndexError, rest)
            end
          else show_invoice_menu_loop invoices rest
      | None => show_invoice_menu_loop invoices rest
      end
  end.

(** The [while True:] loop of [show_invoice_menu] on the console. *)
Definition select_invoice (invoices : list InvoiceData) : io InvoiceData := λ p,
  let '(r, rest) := show_invoice_menu_loop invoices (stdin p) in (r, with_stdin rest p).


End with_runtime.

End interactive_menu.

(** ** new_20_visualization_workflow.py *)

Module visualization_workflow.

Import invoice_text.

(** [s.split(",")] for the one-character separator: at least one piece. *)
Fixpoint split_on (sep : ascii) (s : string) : list string :=
  match s with
  | "" => [""]
  | String c rest =>
      if Ascii.eqb c sep then "" :: split_on sep rest
      else
        match split_on sep rest with
        | piece :: pieces => String c piece :: pieces
        | [] => [String c ""]
        end
  end.

(** The [for c in choices:] loop of [show_workflow_menu]: the patterns
    collected, or [None] when an invalid choice breaks the loop. *)
Fixpoint collect_patterns (choices : list string) (patterns : list string)
  : option (list string) :=
  match choices with
  | [] => Some patterns
  | c :: rest =>
      if String.eqb c "1" then collect_patterns rest (patterns ++ ["sequential"])
      else if String.eqb c "2" then collect_patterns rest (patterns ++ ["parallel"])
      else if String.eqb c "3" then collect_patterns rest (patterns ++ ["branching"])
      else None
  end.

Section with_runtime.
Context `{!Runtime, !Installation, !Formatting}.

Definition DATA_DIR : string := path_join BASE_DIR "data".
Definition OUTPUT_DIR : string := path_join BASE_DIR "output".
Definition LOGS_DIR : string := path_join BASE_DIR "logs".

(** The [while True:] loop of [show_workflow_menu()]; nothing in its
    [try] block raises ValueError. *)
Fixpoint show_workflow_menu_loop (lines : list string)
  : (exn + list string) * list string :=
  match lines with
  | [] => (inl EOFError, [])
  | line :: rest =>
      let choice := str_strip line in
      if String.eqb choice "4" then (inr ["sequential"; "parallel"; "branching"], rest)
      else
        let choices := str_strip <$> split_on ","%char choice in
        match collect_patterns choices [] with
        | Some (pattern :: patterns) => (inr (pattern :: patterns), rest)
        | Some [] => show_workflow_menu_loop rest
        | None => show_workflow_menu_loop rest
        end
  end.

(** [show_workflow_menu() -> list[str]] *)
Definition show_workflow_menu : io (list string) := λ p,
  let '(r, rest) := show_workflow_menu_loop (stdin p) in (r, with_stdin rest p).

(** [LoadInvoices.load] *)
Definition LoadInvoices_load (start_signal : string) : exn + list InvoiceData :=
  read_invoices_csv (path_join DATA_DIR "invoices.csv").




(** [TotalsCalculator.calculate] of the parallel pattern: the dictionary
    comprehension keeps, for an id that occurs more than once, the totals
    of the last invoice with that id, and stops at the first invoice
    whose totals cannot be computed; then every invoice object gets the
    attribute [totals], looked up by its id.  An invoice with its
    attribute is rendered as a pair. *)
Fixpoint totals_map_from (m : gmap string (gmap string float)) (invoices : list InvoiceData)
  : exn + gmap string (gmap string float) :=
  let config := InvoiceConfig_init in
  match invoices with
  | [] => inr m
  | inv :: rest =>
      totals ← raising.calculate_invoice_totals inv config;
      totals_map_from (<[invoice_id inv := totals]> m) rest
  end.

Definition totals_map (invoices : list InvoiceData) : exn + gmap string (gmap string float) :=
  totals_map_from ∅ invoices.

Fixpoint attach_totals (m : gmap string (gmap string float)) (invoices : list InvoiceData)
  : exn + list (InvoiceData * gmap string float) :=
  match invoices with
  | [] => inr []
  | invoice :: rest =>
      totals ← index m (invoice_id invoice);
      results ← attach_totals m rest;
      mret ((invoice, totals) :: results)
  end.

Definition TotalsCalculator_calculate (invoices : list InvoiceData)
  : exn + list (InvoiceData * gmap string float) :=
  totals_map ← totals_map invoices;
  attach_totals totals_map invoices.

End with_runtime.

End visualization_workflow.

(** ** Notions used to state what the menus do *)

Module menu.


(** A row the listing of a menu can print: its quantity converts to a
    float, so that [inv.subtotal] has a value. *)
Definition listable (inv : InvoiceData) : Prop :=
  InvoiceData_subtotal inv = inr (subtotal inv).

End menu.

(** ** Notions used to state what [read_invoices_csv] does *)

Module csv_row.

(** What a row and the invoice built from it have in common. *)
Definition parsed `{!Runtime} (row : gmap string string) (inv : InvoiceData) : Prop :=
  row !! "invoice_id" = Some (invoice_id inv) ∧
  row !! "client_name" = Some (client_name inv) ∧
  row !! "client_email" = Some (client_email inv) ∧
  (∃ cell, row !! "is_preferred" = Some cell ∧
           is_preferred inv = bool_decide (str_lower cell = "true")) ∧
  row !! "item_description" = Some (item_description inv) ∧
  (∃ cell, row !! "quantity" = Some cell ∧ int_of_str cell = Some (quantity inv)) ∧
  (∃ cell, row !! "unit_price" = Some cell ∧ float_of_str cell = Some (unit_price inv)) ∧
  row !! "date" = Some (date inv).

(** Why a row cannot be read: a column is missing, or the quantity or
    the unit price does not parse. *)
Definition unreadable `{!Runtime} (row : gmap string string) (e : exn) : Prop :=
  (∃ key, e = KeyError key ∧ row !! key = None ∧
          key ∈ ["invoice_id"; "client_name"; "client_email"; "is_preferred";
                 "item_description"; "quantity"; "unit_price"; "date"]) ∨
  (e = ValueError ∧
   ((∃ cell, row !! "quantity" = Some cell ∧ int_of_str cell = None) ∨
    (∃ cell, row !! "unit_price" = Some cell ∧ float_of_str cell = None))).

End csv_row.

(** ** A concrete installation for running the programs *)

Module examples.

(** Digits only; anything else is a [ValueError]. *)
Fixpoint digits_value (acc : Z) (s : string) : option Z :=
  match s with
  | "" => Some acc
  | String c rest =>
      let n := Ascii.nat_of_ascii c in
      if bool_decide (48 ≤ n ≤ 57)%nat
      then digits_value (10 * acc + Z.of_nat (n - 48)) rest
      else None
  end.

#[export] Instance runtime : Runtime := {|
  int_of_str := λ s, match s with "" => None | _ => digits_value 0 s end;
  float_of_str := λ s,
    if String.eqb s "2000.0" then Some 2000.0%float
    else if String.eqb s "150.0" then Some 150.0%float
    else None;
  str_lower := id;
  format_2f := λ _, "#.##";
  str_of_float := λ _, "#.#";
  str_of_int := λ _, "#";
  str_upper := id;
  str_title := id;
  str_strip_lower := id;
  BASE_DIR := "/srv/Part-3"
|}.

Definition inv_001 : InvoiceData :=
  mkInvoiceData "INV-001" "Acme Corporation" "billing@acme.example" true
                "Consulting" 3 2000.0%float "2024-12-01".

Definition inv_002 : InvoiceData :=
  mkInvoiceData "INV-002" "Globex" "ap@globex.example" false
                "Support" 2 150.0%float "2024-12-02".

(** An invoice whose quantity, 10^400, is an [int] beyond the floats. *)
Definition inv_big : InvoiceData :=
  mkInvoiceData "INV-900" "Initech" "ap@initech.example" false
                "Licences" (10 ^ 400) 2.0%float "2024-12-03".

(** The rows of [data/invoices.csv] as [csv.DictReader] yields them. *)
Definition row_001 : gmap string string :=
  list_to_map
    [ ("invoice_id", "INV-001"); ("client_name", "Acme Corporation");
      ("client_email", "billing@acme.example"); ("is_preferred", "true");
      ("item_description", "Consulting"); ("quantity", "3");
      ("unit_price", "2000.0"); ("date", "2024-12-01") ].

Definition row_002 : gmap string string :=
  list_to_map
    [ ("invoice_id", "INV-002"); ("client_name", "Globex");
      ("client_email", "ap@globex.example"); ("is_preferred", "false");
      ("item_description", "Support"); ("quantity", "2");
      ("unit_price", "150.0"); ("date", "2024-12-02") ].

#[export] Instance installation : Installation := {|
  InvoiceConfig_init := default_config;
  DictReader := λ _, [row_001; row_002];
  render_invoice_text := λ invoice _ _, "INVOICE: " +:+ invoice_id invoice
|}.

(** A console on which the user picks the first invoice and then presses
    ENTER at every prompt; no output file exists yet. *)
Definition fresh_process : process :=
  mkProcess ["1"; ""; ""; ""; ""; ""] ∅ "20241209_103000" None.

(** The same console when an earlier run left [INV-001.txt] behind. *)
Definition rerun_process : process :=
  mkProcess ["1"; ""; ""; ""; ""; ""] {["/srv/Part-3/output/INV-001.txt"]}
            "20241209_103000" None.

(** Two runs of the concurrent workflow: what reaches the merger. *)
Definition data_001 : concurrent_workflow.InvoiceWithConfig.t :=
  concurrent_workflow.InvoiceWithConfig.mk inv_001 default_config.
Definition data_002 : concurrent_workflow.InvoiceWithConfig.t :=
  concurrent_workflow.InvoiceWithConfig.mk inv_002 default_config.

Definition totals_001 : concurrent_workflow.TotalsResult.t :=
  concurrent_workflow.TotalsCalculator_calculate data_001.

Definition client_001 : concurrent_workflow.ClientResult.t :=
  concurrent_workflow.ClientResult.mk "INV-001"
    (<["name" := VStr "Acme Corporation"]> (<["status" := VStr "VIP"]> ∅)).

Definition credit_001 : concurrent_workflow.CreditResult.t :=
  concurrent_workflow.CreditResult.mk "INV-001"
    (<["credit_score" := VInt 850]> (<["approved" := VBool true]> ∅)).

(** A layout that keeps the text as it is (no padding), for running
    the renderers. *)
#[export] Instance formatting : invoice_text.Formatting := {|
  invoice_text.center := λ _ s, s;
  invoice_text.ljust := λ _ s, s;
  invoice_text.rjust := λ _ s, s;
  invoice_text.str_strip := id;
  invoice_text.str_prefix := λ n s, String.substring 0 n s;
  invoice_text.format_comma_2f := λ _, "#,###.##"
|}.


End examples.

(** * Part II: properties *)

Local Open Scope nat_scope.

(** ** Discounts and totals *)

Section totals.

Implicit Types (invoice : InvoiceData) (config : InvoiceConfig).

Lemma totals_lookup invoice config :
  let t := calculate_invoice_totals invoice config in
  let s := subtotal invoice in
  let hv := if (s >=? high_value_threshold config)%float
            then (s * high_value_discount config)%float else 0.0%float in
  let pd := if is_preferred invoice
            then (s * preferred_client_discount config)%float else 0.0%float in
  let after := (s - (hv + pd))%float in
  t !! "subtotal" = Some s ∧
  t !! "high_value_discount" = Some hv ∧
  t !! "preferred_discount" = Some pd ∧
  t !! "total_discount" = Some (hv + pd)%float ∧
  t !! "amount_after_discount" = Some after ∧
  t !! "tax" = Some (after * tax_rate config)%float ∧
  t !! "total" = Some (after + after * tax_rate config)%float.
Proof.
  cbv zeta. unfold calculate_invoice_totals.
  repeat split; by simplify_map_eq.
Qed.

(** The property of a row whose quantity converts. *)
Lemma InvoiceData_subtotal_inr inv s :
  InvoiceData_subtotal inv = inr s → s = subtotal inv.
Proof.
  unfold InvoiceData_subtotal, int_as_float, subtotal, mbind, result_bind, mret, result_ret.
  destruct (PrimFloat.is_infinity _); [done|]. by intros [= <-].
Qed.

(** The property either has its value or raises OverflowError. *)
Lemma InvoiceData_subtotal_result inv :
  menu.listable inv ∨ InvoiceData_subtotal inv = inl OverflowError.
Proof.
  unfold menu.listable, InvoiceData_subtotal, int_as_float, subtotal.
  unfold mbind, result_bind, mret, result_ret.
  destruct (PrimFloat.is_infinity _); auto.
Qed.

(** The call returns the dictionary built from the value of the
    property, or raises what evaluating the property raises. *)
Lemma raising_totals invoice config :
  raising.calculate_invoice_totals invoice config =
  match InvoiceData_subtotal invoice with
  | inl e => inl e
  | inr _ => inr (calculate_invoice_totals invoice config)
  end.
Proof.
  unfold raising.calculate_invoice_totals, calculate_invoice_totals.
  unfold InvoiceData_subtotal, int_as_float, subtotal.
  unfold mbind, result_bind, mret, result_ret.
  by destruct (PrimFloat.is_infinity _).
Qed.

Lemma raising_totals_listable invoice config :
  menu.listable invoice →
  raising.calculate_invoice_totals invoice config
  = inr (calculate_invoice_totals invoice config).
Proof. intros Hinv. by rewrite raising_totals, Hinv. Qed.


End totals.

(** ** Switch-case groups *)

Section switch_case_facts.
Context {M N : Type}.
Implicit Types (cs : list (engine.Case M N)) (g : engine.SwitchCaseGroup M N) (msg : M).

Lemma first_match_lt cs msg i : engine.first_match cs msg = Some i → i < length cs.
Proof.
  revert i. induction cs as [|c cs IH]; intros i; simpl; [done|].
  destruct (engine.condition c msg).
  - intros [= <-]. lia.
  - destruct (engine.first_match cs msg) as [k|]; simpl; [|done].
    intros [= <-]. specialize (IH k eq_refl). lia.
Qed.

Lemma first_match_None cs msg :
  engine.first_match cs msg = None ↔ engine.none_matches cs msg = true.
Proof.
  unfold engine.none_matches.
  induction cs as [|c cs IH]; simpl; [done|].
  destruct (engine.condition c msg); simpl; [done|].
  rewrite <- IH. destruct (engine.first_match cs msg); simpl; split; done.
Qed.

Lemma edge_fires_selected cs d msg j :
  engine.edge_fires (engine.mkGroup cs d) msg j = true
  ↔ j = default (length cs) (engine.first_match cs msg).
Proof.
  unfold engine.edge_fires, engine.none_matches. simpl.
  revert j. induction cs as [|c cs IH]; intros j; simpl.
  - rewrite andb_true_r, bool_decide_eq_true. done.
  - destruct (engine.condition c msg) eqn:Hc; simpl.
    + destruct j as [|j]; simpl.
      * rewrite Hc. done.
      * destruct (cs !! j); simpl; rewrite ?Hc, ?andb_false_r; split; done.
    + destruct j as [|j]; simpl.
      * rewrite Hc. simpl.
        destruct (engine.first_match cs msg); simpl; split; done.
      * rewrite Hc. simpl. specialize (IH j).
        assert (bool_decide (S j = S (length cs)) = bool_decide (j = length cs)) as ->
          by (apply bool_decide_ext; lia).
        rewrite IH. destruct (engine.first_match cs msg); simpl; split; intros; lia.
Qed.

Lemma filter_seq_eq (i a n : nat) :
  filter (λ j, j = i) (seq a n) = if bool_decide (a ≤ i < a + n) then [i] else [].
Proof.
  revert a. induction n as [|n IH]; intros a; simpl.
  - rewrite bool_decide_eq_false_2 by lia. done.
  - rewrite filter_cons, IH. destruct (decide (a = i)) as [->|Hne].
    + rewrite bool_decide_eq_false_2 by lia. rewrite bool_decide_eq_true_2 by lia. done.
    + destruct (decide (S a ≤ i < S a + n)).
      * rewrite !bool_decide_eq_true_2 by lia. done.
      * rewrite !bool_decide_eq_false_2 by lia. done.
Qed.

Lemma deliveries_selected g msg :
  engine.deliveries g msg = [engine.edge_target g (engine.selected_edge g msg)].
Proof.
  destruct g as [cs d]. unfold engine.deliveries, engine.selected_edge.
  cbn [engine.cases].
  rewrite (list_filter_iff _ (λ j, j = default (length cs) (engine.first_match cs msg)))
    by (intros j; apply edge_fires_selected).
  rewrite filter_seq_eq. rewrite bool_decide_eq_true_2; [done|].
  destruct (engine.first_match cs msg) as [i|] eqn:Hfm; simpl; [|lia].
  apply first_match_lt in Hfm. lia.
Qed.

Lemma none_matches_spec cs msg :
  engine.none_matches cs msg = true ↔ ∀ c, c ∈ cs → engine.condition c msg = false.
Proof.
  unfold engine.none_matches. rewrite forallb_forall. split.
  - intros Hall c Hc. apply list_elem_of_In in Hc. apply Hall in Hc.
    by apply negb_true_iff.
  - intros Hall c Hc. apply negb_true_iff, Hall. by apply list_elem_of_In.
Qed.

Lemma selected_edge_exactly_one g msg :
  let i := engine.selected_edge g msg in
  i ≤ length (engine.cases g) ∧
  engine.edge_fires g msg i = true ∧
  (∀ j, engine.edge_fires g msg j = true → j = i) ∧
  (∀ c, engine.cases g !! i = Some c →
        engine.condition c msg = true ∧
        ∀ k c', k < i → engine.cases g !! k = Some c' → engine.condition c' msg = false) ∧
  (i = length (engine.cases g)
   ↔ ∀ c, c ∈ engine.cases g → engine.condition c msg = false) ∧
  engine.deliveries g msg = [engine.edge_target g i].
Proof.
  intros i. destruct g as [cs d].
  assert (Hfire : engine.edge_fires (engine.mkGroup cs d) msg i = true)
    by by apply edge_fires_selected.
  assert (Hle : i ≤ length cs).
  { subst i. unfold engine.selected_edge. simpl.
    destruct (engine.first_match cs msg) as [k|] eqn:Hk; simpl; [|done].
    apply first_match_lt in Hk. lia. }
  split_and!.
  - done.
  - done.
  - intros j Hj. by apply edge_fires_selected in Hj.
  - intros c Hc. unfold engine.edge_fires in Hfire. simpl in *. rewrite Hc in Hfire.
    apply andb_true_iff in Hfire as [Hcond Hnone]. split; [done|].
    intros k c' Hk Hc'. rewrite none_matches_spec in Hnone. apply Hnone.
    apply list_elem_of_lookup. exists k. rewrite lookup_take_lt by done. done.
  - simpl. rewrite <- none_matches_spec, <- first_match_None.
    subst i. unfold engine.selected_edge. simpl.
    destruct (engine.first_match cs msg) as [k|] eqn:Hk; simpl; [|done].
    apply first_match_lt in Hk. split; [lia|done].
  - apply deliveries_selected.
Qed.

End switch_case_facts.

(** ** Effects *)

Section io_facts.
Context {A B : Type}.

Lemma bind_inr (m : io A) (f : A → io B) p y p' :
  (m ≫= f) p = (inr y, p') → ∃ x p1, m p = (inr x, p1) ∧ f x p1 = (inr y, p').
Proof.
  unfold mbind, io_bind. destruct (m p) as [[e|x] p1]; [done|]. eauto.
Qed.

Lemma bind_eq (m : io A) (f : A → io B) p x p1 :
  m p = (inr x, p1) → (m ≫= f) p = f x p1.
Proof. unfold mbind, io_bind. by intros ->. Qed.

End io_facts.

(** Unfolding of the effects down to the process they act on. *)
Ltac io_unfold :=
  cbv [mbind io_bind mret io_ret get_process put_process raise try input create move
       path_exists with_stdin with_files with_selected_invoice_id
       stdin files now selected_invoice_id
       log_action ensure_directories foldr
       sequential_workflow.wait_for_user sequential_workflow.set_selected_invoice_id].

Ltac io_unfold_in H :=
  cbv [mbind io_bind mret io_ret get_process put_process raise try input create move
       path_exists with_stdin with_files with_selected_invoice_id
       stdin files now selected_invoice_id
       log_action ensure_directories foldr
       sequential_workflow.wait_for_user sequential_workflow.set_selected_invoice_id] in H.

Ltac io_inv H :=
  let x := fresh "x" in let q := fresh "p" in let E := fresh "E" in
  apply bind_inr in H; destruct H as (x & q & E & H).

Tactic Notation "io_step" hyp(H) "as" ident(x) ident(q) ident(E) :=
  apply bind_inr in H; destruct H as (x & q & E & H).

(** ** Runs of the engine *)

Section run_facts.
Context {N M O St : Type}.

Lemma invocations_emitted (n : N) (msgs : list M) (later : list (engine.step N M)) :
  engine.invocations ((engine.Emitted n <$> msgs) ++ later) = engine.invocations later.
Proof. unfold engine.invocations. induction msgs as [|m msgs IH]; simpl; done. Qed.

Lemma invocations_step (n : N) (m : M) (msgs : list M) (later : list (engine.step N M)) :
  engine.invocations ((engine.Invoked n m :: (engine.Emitted n <$> msgs)) ++ later)
  = n :: engine.invocations later.
Proof.
  change (engine.invocations (engine.Invoked n m :: ((engine.Emitted n <$> msgs) ++ later))
          = n :: engine.invocations later).
  unfold engine.invocations at 1. simpl. f_equal. apply invocations_emitted.
Qed.

Lemma list_find_never (P : M → Prop) `{∀ x, Decision (P x)} (l : list M) :
  (∀ x, ¬ P x) → list_find P l = None.
Proof.
  intros HP. induction l as [|x l IH]; simpl; [done|].
  rewrite decide_False by apply HP. by rewrite IH.
Qed.

(** One turn of the main loop: the head of the queue is unroutable, or its
    handler ends the pass (failure, output, pause), or the pass goes on
    with what the handler sent routed to targets of the node. *)
Lemma loop_cons (g : engine.Graph N M O St) respond fuel id seq sh n m rest aw st
    p rs' steps p' :
  engine.loop g respond (S fuel) (engine.mkRunState id seq sh ((n, m) :: rest) aw st) p
    = (inr (rs', steps), p') →
  (steps = [] ∧ engine.handler g n m = None) ∨
  (∃ msgs, steps = engine.Invoked n m :: (engine.Emitted n <$> msgs)) ∨
  (∃ h msgs routed seq' sh' p1 later,
     engine.handler g n m = Some h ∧
     h sh p = (inr (engine.Send msgs, sh'), p1) ∧
     (respond = None → routed = engine.enqueue g n msgs) ∧
     steps = ((engine.Invoked n m :: (engine.Emitted n <$> msgs)) ++ later)%list ∧
     engine.loop g respond fuel
       (engine.mkRunState id seq' sh' (rest ++ routed)%list None engine.Running) p1
       = (inr (rs', later), p') ∧
     ∀ t x, (t, x) ∈ routed → ∃ src, t ∈ engine.targets g n src).
Proof.
  simpl. destruct (engine.handler g n m) as [h|] eqn:Hh; [|intros [= <- <- <-]; by left].
  intros Hrun. right.
  apply bind_inr in Hrun as (r & p1 & Htry & Hrun).
  unfold try in Htry. destruct (h sh p) as [r0 p0] eqn:Hhp. injection Htry as <- <-.
  destruct r0 as [e|[[msgs|output] sh']].
  - injection Hrun as <- <- <-. left. by exists [].
  - destruct (list_find (engine.is_request g) msgs) as [[i request]|] eqn:Hfind.
    + destruct respond as [answer|].
      * apply bind_inr in Hrun as ([rs1 later] & p2 & Hloop & Hret).
        injection Hret as <- <- <-. right.
        exists h, msgs, ((λ t, (t, answer request)) <$> engine.targets g n request),
          (seq + length msgs), sh', p0, later.
        split_and!; [done|done|done|done|done|].
        intros t x Hin. apply list_elem_of_fmap in Hin as (t' & [= -> ->] & Ht).
        by exists request.
      * injection Hrun as <- <- <-. left. by exists msgs.
    + assert (Hrun' :
        (engine.loop g respond fuel
           (engine.mkRunState id (seq + length msgs) sh'
              (rest ++ engine.enqueue g n msgs)%list None engine.Running)
         ≫= λ '(rs', later),
              mret (rs', ((engine.Invoked n m :: (engine.Emitted n <$> msgs)) ++ later)%list))
          p0 = (inr (rs', steps), p')) by (by destruct respond).
      clear Hrun. apply bind_inr in Hrun' as ([rs1 later] & p2 & Hloop & Hret).
      injection Hret as <- <- <-. right.
      exists h, msgs, (engine.enqueue g n msgs), (seq + length msgs), sh', p0, later.
      split_and!; [done|done|done|done|done|].
      intros t x Hin. unfold engine.enqueue in Hin.
      apply list_elem_of_bind in Hin as (src & Hin & _).
      apply list_elem_of_fmap in Hin as (t' & [= -> ->] & Ht). by exists src.
  - injection Hrun as <- <- <-. left. by exists [].
Qed.

(** The turns of the main loop on a handler that sends one message. *)
Lemma loop_nil (g : engine.Graph N M O St) respond fuel id seq sh aw st p :
  engine.loop g respond fuel (engine.mkRunState id seq sh [] aw st) p
  = (inr (engine.mkRunState id seq sh [] aw st, []), p).
Proof. by destruct fuel. Qed.


Lemma loop_send (g : engine.Graph N M O St) respond fuel id seq sh n m rest aw st
    h msg sh' p p1 :
  engine.handler g n m = Some h →
  h sh p = (inr (engine.Send [msg], sh'), p1) →
  engine.is_request g msg = false →
  engine.loop g respond (S fuel) (engine.mkRunState id seq sh ((n, m) :: rest) aw st) p
  = match engine.loop g respond fuel
            (engine.mkRunState id (seq + 1) sh'
               (rest ++ ((λ t, (t, msg)) <$> engine.targets g n msg))%list
               None engine.Running) p1
    with
    | (inl e, p2) => (inl e, p2)
    | (inr (rs', later), p2) =>
        (inr (rs', engine.Invoked n m :: engine.Emitted n msg :: later), p2)
    end.
Proof.
  intros Hh Hhp Hreq. simpl. rewrite Hh.
  unfold mbind at 1, io_bind at 1, try. rewrite Hhp. simpl.
  rewrite Hreq. simpl. rewrite app_nil_r.
  destruct respond; unfold mbind, io_bind;
    destruct (engine.loop _ _ _ _ p1) as [[e|[rs' later]] p2]; done.
Qed.

Lemma loop_pause (g : engine.Graph N M O St) fuel id seq sh n m rest aw st
    h msg sh' p p1 :
  engine.handler g n m = Some h →
  h sh p = (inr (engine.Send [msg], sh'), p1) →
  engine.is_request g msg = true →
  engine.loop g None (S fuel) (engine.mkRunState id seq sh ((n, m) :: rest) aw st) p
  = (inr (engine.mkRunState id (seq + 1) sh' rest
            (Some (seq + 0, engine.targets g n msg)) engine.Paused,
          [engine.Invoked n m; engine.Emitted n msg]), p1).
Proof.
  intros Hh Hhp Hreq. simpl. rewrite Hh.
  unfold mbind at 1, io_bind at 1, try. rewrite Hhp. simpl.
  rewrite Hreq. simpl. done.
Qed.

Lemma loop_answer (g : engine.Graph N M O St) answer fuel id seq sh n m rest aw st
    h msg sh' p p1 :
  engine.handler g n m = Some h →
  h sh p = (inr (engine.Send [msg], sh'), p1) →
  engine.is_request g msg = true →
  engine.loop g (Some answer) (S fuel) (engine.mkRunState id seq sh ((n, m) :: rest) aw st) p
  = match engine.loop g (Some answer) fuel
            (engine.mkRunState id (seq + 1) sh'
               (rest ++ ((λ t, (t, answer msg)) <$> engine.targets g n msg))%list
               None engine.Running) p1
    with
    | (inl e, p2) => (inl e, p2)
    | (inr (rs', later), p2) =>
        (inr (rs', engine.Invoked n m :: engine.Emitted n msg :: later), p2)
    end.
Proof.
  intros Hh Hhp Hreq. simpl. rewrite Hh.
  unfold mbind at 1, io_bind at 1, try. rewrite Hhp. simpl.
  rewrite Hreq. simpl.
  unfold mbind, io_bind;
    destruct (engine.loop _ _ _ _ p1) as [[e|[rs' later]] p2]; done.
Qed.

Lemma loop_yield (g : engine.Graph N M O St) respond fuel id seq sh n m rest aw st
    h output sh' p p1 :
  engine.handler g n m = Some h →
  h sh p = (inr (engine.YieldOutput output, sh'), p1) →
  engine.loop g respond (S fuel) (engine.mkRunState id seq sh ((n, m) :: rest) aw st) p
  = (inr (engine.mkRunState id seq sh' rest None (engine.Completed output),
          [engine.Invoked n m]), p1).
Proof.
  intros Hh Hhp. simpl. rewrite Hh.
  unfold mbind at 1, io_bind at 1, try. rewrite Hhp. done.
Qed.

(** A response that matches no paused run or request is rejected and the
    runs the runtime holds are left as they were. *)
Lemma resume_mismatch (g : engine.Graph N M O St) fuel
    (runs : gmap nat (engine.RunState N M O St)) id response p :
  (∀ rs seq waiting,
     runs !! id = Some rs → engine.run_status rs = engine.Paused →
     engine.awaiting rs = Some (seq, waiting) →
     engine.request_seq response ≠ seq) →
  engine.resume g fuel runs id response p
  = (inr (inl engine.CorrelationMismatchError, runs), p).
Proof.
  intros Hmis. unfold engine.resume.
  destruct (runs !! id) as [rs|] eqn:Hrs; [|done].
  destruct (engine.run_status rs) eqn:Hst; try done.
  destruct (engine.awaiting rs) as [[seq waiting]|] eqn:Haw; [|done].
  rewrite bool_decide_eq_false_2; [done|]. by eapply Hmis.
Qed.

(** A correlated response is delivered to the nodes that wait for it and
    the run goes on from there. *)
Lemma resume_correlated (g : engine.Graph N M O St) fuel
    (runs : gmap nat (engine.RunState N M O St)) id response rs seq waiting p :
  runs !! id = Some rs → engine.run_status rs = engine.Paused →
  engine.awaiting rs = Some (seq, waiting) →
  engine.request_seq response = seq →
  engine.resume g fuel runs id response p
  = match engine.loop g None fuel
            (engine.mkRunState (engine.run_id rs) (engine.next_seq rs) (engine.shared rs)
               (engine.pending rs
                ++ ((λ t, (t, engine.payload response)) <$> waiting))%list
               None engine.Running) p
    with
    | (inl e, p') => (inl e, p')
    | (inr (rs', steps), p') => (inr (inr steps, <[id := rs']> runs), p')
    end.
Proof.
  intros Hrs Hst Haw Hseq. unfold engine.resume. rewrite Hrs, Hst, Haw.
  rewrite bool_decide_eq_true_2 by done.
  unfold mbind, io_bind.
  destruct (engine.loop _ _ _ _ p) as [[e|[rs' steps]] p']; done.
Qed.

End run_facts.

(** ** Paths *)

Section path_facts.

Lemma string_length_app (a b : string) :
  String.length (a +:+ b) = String.length a + String.length b.
Proof. induction a as [|c a IH]; simpl; [done|]. by rewrite IH. Qed.

Lemma last_char_app (a b : string) :
  b ≠ "" → last_char (a +:+ b) = last_char b.
Proof.
  intros Hb. induction a as [|c a IH]; simpl; [done|].
  rewrite IH. destruct b as [|c' b]; [done|]. simpl.
  by destruct (last_char b).
Qed.

Lemma last_char_path_join (a b : string) :
  b ≠ "" → last_char (path_join a b) = last_char b.
Proof.
  intros Hb. unfold path_join.
  destruct (is_abs b); [done|].
  destruct (ends_with_sep a).
  - by apply last_char_app.
  - rewrite last_char_app by done.
    by apply (last_char_app "/" b).
Qed.

Lemma path_join_length (a b : string) :
  String.length (path_join a b) =
  if is_abs b then String.length b
  else if ends_with_sep a then String.length a + String.length b
  else String.length a + 1 + String.length b.
Proof.
  unfold path_join. destruct (is_abs b); [done|].
  destruct (ends_with_sep a); rewrite !string_length_app; simpl; lia.
Qed.

Lemma is_abs_app (a b b' : string) :
  a ≠ "" → is_abs (a +:+ b) = is_abs (a +:+ b').
Proof. by destruct a. Qed.

Lemma ends_with_sep_path_join (a b : string) :
  b ≠ "" → ends_with_sep (path_join a b) = ends_with_sep b.
Proof. intros Hb. unfold ends_with_sep. by rewrite last_char_path_join. Qed.

End path_facts.

(** ** new_18: routing of the decision *)

Section branching_facts.
Context `{rt : !Runtime, inst : !Installation}.
Import branching_workflow.

Lemma loader_group_deliveries (decision : InvoiceDecision.t) :
  engine.deliveries loader_group decision =
  [ if is_archive_needed decision then archive_handler
    else if is_high_value decision then high_value_handler
    else if is_preferred decision then preferred_handler
    else standard_handler ].
Proof.
  rewrite deliveries_selected. unfold engine.selected_edge, loader_group. simpl.
  destruct (is_archive_needed decision); [done|].
  destruct (is_high_value decision); [done|].
  destruct (is_preferred decision); done.
Qed.

Lemma archive_group_deliveries (decision : InvoiceDecision.t) :
  engine.deliveries archive_group decision =
  [ if is_high_value decision then high_value_handler
    else if is_preferred decision then preferred_handler
    else standard_handler ].
Proof.
  rewrite deliveries_selected. unfold engine.selected_edge, archive_group. simpl.
  destruct (is_high_value decision); [done|].
  destruct (is_preferred decision); done.
Qed.

(** The analysis reads the file system and the amounts, and changes
    nothing. *)
Lemma analyze_invoice_routing_result invoice config p :
  ∃ reason,
    analyze_invoice_routing invoice config p =
    (inr (if bool_decide (path_join OUTPUT_DIR (invoice_id invoice +:+ ".txt") ∈ files p)
          then "archive_needed"
          else if (subtotal invoice >=? high_value_threshold config)%float
               then "high_value"
               else if invoice_utils.is_preferred invoice then "preferred"
                    else "standard",
          reason), p).
Proof.
  unfold analyze_invoice_routing, path_exists.
  unfold mbind, io_bind, get_process, mret, io_ret. simpl.
  destruct (bool_decide _); [eauto|].
  destruct (totals_lookup invoice config) as (-> & _).
  destruct (subtotal invoice >=? high_value_threshold config)%float; [eauto|].
  destruct (invoice_utils.is_preferred invoice); eauto.
Qed.

(** The menu lists the rows, then prompts. *)
Lemma show_menu_eq invoices p :
  sequential_workflow.show_menu invoices p =
  match sequential_workflow.list_invoices invoices with
  | inl e => (inl e, p)
  | inr _ => sequential_workflow.select_invoice invoices p
  end.
Proof.
  unfold sequential_workflow.show_menu, lift, mbind, io_bind.
  by destruct (sequential_workflow.list_invoices invoices).
Qed.

Lemma show_menu_files invoices p r p' :
  sequential_workflow.show_menu invoices p = (r, p') →
  files p' = files p ∧ now p' = now p ∧ selected_invoice_id p' = selected_invoice_id p.
Proof.
  rewrite show_menu_eq. destruct (sequential_workflow.list_invoices invoices).
  { by intros [= <- <-]. }
  unfold sequential_workflow.select_invoice.
  destruct (sequential_workflow.show_menu_loop invoices (stdin p)) as [r0 rest].
  intros [= <- <-]. done.
Qed.



Lemma lift_inr {A : Type} (r : exn + A) p x p' :
  lift r p = (inr x, p') → r = inr x ∧ p' = p.
Proof. unfold lift. by intros [= -> ->]. Qed.

Lemma next_selected_inv invoices p inv p' :
  sequential_workflow.next_selected invoices p = (inr inv, p') →
  p' = p ∧ selected_invoice_id p = Some (invoice_id inv) ∧ inv ∈ invoices.
Proof.
  unfold sequential_workflow.next_selected.
  unfold mbind, io_bind, get_process. simpl.
  destruct (find _ invoices) as [inv0|] eqn:Hfind; [|done].
  intros [= <- <-]. apply find_some in Hfind as [Hin Hdec].
  apply bool_decide_eq_true_1 in Hdec.
  split_and!; [done|done|]. by apply list_elem_of_In.
Qed.

(** A menu that returns has listed, and so evaluated, every row. *)
Lemma list_invoices_inr invoices inv :
  sequential_workflow.list_invoices invoices = inr tt → inv ∈ invoices →
  InvoiceData_subtotal inv = inr (subtotal inv).
Proof.
  induction invoices as [|inv0 invoices IH]; simpl; [by intros _ ?%elem_of_nil|].
  unfold mbind, result_bind.
  destruct (InvoiceData_subtotal inv0) as [e|s] eqn:Hs; [done|].
  intros Hrest [->|Hin]%elem_of_cons; [|by apply IH].
  by rewrite (InvoiceData_subtotal_inr _ _ Hs) in Hs.
Qed.

Lemma show_menu_inr invoices p selected p' :
  sequential_workflow.show_menu invoices p = (inr selected, p') →
  sequential_workflow.list_invoices invoices = inr tt ∧
  sequential_workflow.select_invoice invoices p = (inr selected, p').
Proof.
  rewrite show_menu_eq.
  by destruct (sequential_workflow.list_invoices invoices) as [e|[]].
Qed.

Lemma load_and_analyze_decision start_signal p decision p' :
  InvoiceLoader_load_and_analyze start_signal p = (inr decision, p') →
  let invoice := InvoiceDecision.invoice decision in
  let config := InvoiceDecision.config decision in
  config = InvoiceConfig_init ∧
  (∃ all_invoices,
     read_invoices_csv (path_join DATA_DIR "invoices.csv") = inr all_invoices ∧
     invoice ∈ all_invoices) ∧
  InvoiceDecision.totals decision = calculate_invoice_totals invoice config ∧
  InvoiceDecision.decision_type decision =
    (if bool_decide (path_join OUTPUT_DIR (invoice_id invoice +:+ ".txt") ∈ files p)
     then "archive_needed"
     else if (subtotal invoice >=? high_value_threshold config)%float
          then "high_value"
          else if invoice_utils.is_preferred invoice then "preferred"
               else "standard") ∧
  selected_invoice_id p' = Some (invoice_id invoice).
Proof.
  unfold InvoiceLoader_load_and_analyze. intros Hrun.
  io_inv Hrun. apply lift_inr in E as [Hread ->].
  io_inv Hrun. apply show_menu_files in E as (Hf & _ & _).
  destruct p0 as [ls fs tm g]. simpl in Hf. subst fs.
  io_inv Hrun. io_unfold_in E. injection E as _ <-.
  io_inv Hrun. apply next_selected_inv in E as (-> & Hsel & Hin).
  io_inv Hrun. destruct x3 as [decision_type reason].
  match type of E with
  | analyze_invoice_routing ?i ?c ?q = _ =>
      destruct (analyze_invoice_routing_result i c q) as [reason0 Hres]
  end.
  rewrite Hres in E. injection E as <- <- <-.
  unfold wait_for_user in Hrun. io_unfold_in Hrun.
  destruct ls as [|line rest]; [done|].
  injection Hrun as <- <-. simpl in *. split_and!; try done. eauto.
Qed.

(** C1. A message that leaves a switch-case group with M cases and a
    default fires exactly one of its M+1 edges: the edge of the first case,
    in declaration order, whose predicate holds, and the default edge
    exactly when no predicate holds.  For the loader's group (archive_needed,
    high_value, preferred, default standard) this is the handler the
    decision type names; and the decision the loader sends for an invoice
    with subtotal >= the high-value threshold, is_preferred true and no
    output file goes to the high-value handler only, not to the preferred
    one. *)
Theorem switch_case_exactly_one_edge_fires :
  (∀ (M N : Type) (g : engine.SwitchCaseGroup M N) (msg : M),
     let i := engine.selected_edge g msg in
     i ≤ length (engine.cases g) ∧
     engine.edge_fires g msg i = true ∧
     (∀ j, engine.edge_fires g msg j = true → j = i) ∧
     (∀ c, engine.cases g !! i = Some c →
           engine.condition c msg = true ∧
           ∀ k c', k < i → engine.cases g !! k = Some c' →
                   engine.condition c' msg = false) ∧
     (i = length (engine.cases g)
      ↔ ∀ c, c ∈ engine.cases g → engine.condition c msg = false) ∧
     engine.deliveries g msg = [engine.edge_target g i]) ∧
  (∀ decision : InvoiceDecision.t,
     engine.deliveries loader_group decision =
     [ if is_archive_needed decision then archive_handler
       else if is_high_value decision then high_value_handler
       else if is_preferred decision then preferred_handler
       else standard_handler ]) ∧
  (∀ (p p' : process) (decision : InvoiceDecision.t),
     InvoiceLoader_load_and_analyze "start" p = (inr decision, p') →
     (subtotal (InvoiceDecision.invoice decision)
      >=? high_value_threshold (InvoiceDecision.config decision))%float = true →
     invoice_utils.is_preferred (InvoiceDecision.invoice decision) = true →
     path_join OUTPUT_DIR (invoice_id (InvoiceDecision.invoice decision) +:+ ".txt")
       ∉ files p →
     InvoiceDecision.decision_type decision = "high_value" ∧
     engine.deliveries loader_group decision = [high_value_handler] ∧
     preferred_handler ∉ engine.deliveries loader_group decision).
Proof.
  split_and!.
  - intros M N g msg. apply selected_edge_exactly_one.
  - apply loader_group_deliveries.
  - intros p p' decision Hrun Hhigh Hpref Hfile.
    apply load_and_analyze_decision in Hrun as (_ & _ & _ & Hty & _).
    rewrite bool_decide_eq_false_2 in Hty by done. rewrite Hhigh in Hty.
    assert (engine.deliveries loader_group decision = [high_value_handler]) as Hd.
    { rewrite loader_group_deliveries.
      unfold is_archive_needed, is_high_value. rewrite Hty. done. }
    split_and!; [done|done|]. rewrite Hd. by intros ?%list_elem_of_singleton.
Qed.

(** *** The archive step *)

Lemma output_file_not_log (invoice_id : string) :
  path_join OUTPUT_DIR (invoice_id +:+ ".txt") ≠ path_join LOGS_DIR "invoice_workflow.log".
Proof.
  intros Heq. apply (f_equal last_char) in Heq.
  rewrite !last_char_path_join in Heq by (by destruct invoice_id).
  rewrite last_char_app in Heq by done. done.
Qed.

Lemma output_file_not_archived (invoice_id timestamp : string) :
  path_join OUTPUT_DIR (invoice_id +:+ ".txt")
  ≠ path_join ARCHIVE_DIR (invoice_id +:+ "_" +:+ timestamp +:+ ".txt").
Proof.
  intros Heq. apply (f_equal String.length) in Heq.
  rewrite !path_join_length in Heq.
  unfold OUTPUT_DIR, ARCHIVE_DIR in Heq.
  rewrite !ends_with_sep_path_join in Heq by done.
  rewrite !path_join_length in Heq.
  rewrite !string_length_app in Heq.
  assert (is_abs (invoice_id +:+ ".txt")
          = is_abs (invoice_id +:+ "_" +:+ timestamp +:+ ".txt")) as Habs.
  { destruct invoice_id; [done|]. by apply is_abs_app. }
  rewrite <- Habs in Heq.
  change (is_abs "output") with false in Heq.
  change (is_abs "archive") with false in Heq.
  change (ends_with_sep "output") with false in Heq.
  change (ends_with_sep "archive") with false in Heq.
  cbv iota in Heq. simpl String.length in Heq.
  destruct (is_abs (invoice_id +:+ ".txt")), (ends_with_sep BASE_DIR); lia.
Qed.

Lemma archive_old_completes decision p decision' p' :
  ArchiveHandler_archive_old decision p = (inr decision', p') →
  let invoice := InvoiceDecision.invoice decision in
  let config := InvoiceDecision.config decision in
  (path_join OUTPUT_DIR (invoice_id invoice +:+ ".txt") ∉ files p') ∧
  InvoiceDecision.invoice decision' = invoice ∧
  InvoiceDecision.config decision' = config ∧
  InvoiceDecision.totals decision' = InvoiceDecision.totals decision ∧
  InvoiceDecision.decision_type decision' =
    (if (subtotal invoice >=? high_value_threshold config)%float then "high_value"
     else if invoice_utils.is_preferred invoice then "preferred"
          else "standard").
Proof.
  unfold ArchiveHandler_archive_old. intros Hrun. cbv zeta in Hrun.
  destruct p as [ls fs tm g].
  io_step Hrun as u1 p1 E1. io_unfold_in E1. injection E1 as _ <-.
  io_step Hrun as archived p2 E2. unfold archive_old_invoice in E2. io_unfold_in E2.
  set (out := path_join OUTPUT_DIR (invoice_id (InvoiceDecision.invoice decision) +:+ ".txt"))
    in *.
  assert (Hgone : out ∉ files p2).
  { destruct (bool_decide (out ∈ {[ARCHIVE_DIR]} ∪ fs)) eqn:Hin.
    - injection E2 as <- <-. simpl.
      pose proof (output_file_not_archived
                    (invoice_id (InvoiceDecision.invoice decision)) tm) as Hne.
      fold out in Hne.
      rewrite elem_of_union, elem_of_singleton, elem_of_difference, elem_of_singleton.
      intros [?|[_ Hout]]; [done|by apply Hout].
    - injection E2 as <- <-. simpl. by apply bool_decide_eq_false_1 in Hin. }
  clear E2. io_step Hrun as u3 p3 E3.
  assert (Hgone3 : out ∉ files p3).
  { destruct p2 as [ls2 fs2 tm2 g2]. destruct archived.
    - io_unfold_in E3. injection E3 as _ <-. simpl in *.
      pose proof (output_file_not_log (invoice_id (InvoiceDecision.invoice decision))) as Hne.
      fold out in Hne. rewrite elem_of_union, elem_of_singleton. by intros [?|?].
    - io_unfold_in E3. by injection E3 as _ <-. }
  clear E3. io_step Hrun as analysis p4 E4. destruct analysis as [decision_type reason].
  match type of E4 with
  | analyze_invoice_routing ?i ?c ?q = _ =>
      destruct (analyze_invoice_routing_result i c q) as [reason0 Hres]
  end.
  rewrite Hres in E4. injection E4 as <- <- <-.
  fold out in Hrun. rewrite bool_decide_eq_false_2 in Hrun by done.
  unfold wait_for_user in Hrun. destruct p3 as [ls3 fs3 tm3 g3]. io_unfold_in Hrun.
  destruct ls3 as [|line rest]; [done|].
  injection Hrun as <- <-. simpl in *. done.
Qed.

(** *** Runs of the branching graph *)

Lemma filter_none {A : Type} (P : A → Prop) `{∀ x, Decision (P x)} (l : list A) :
  (∀ x, x ∈ l → ¬ P x) → filter P l = [].
Proof.
  induction l as [|x l IH]; intros Hl; [done|].
  rewrite filter_cons_False by (apply Hl; left).
  apply IH. intros y Hy. apply Hl. by right.
Qed.

Lemma targets_forward n src t :
  t ∈ engine.targets workflow n src →
  t ≠ loader ∧ (n ≠ loader → t ≠ archive_handler).
Proof.
  destruct n, src as [start_signal|decision]; simpl;
    rewrite ?loader_group_deliveries, ?archive_group_deliveries;
    rewrite ?elem_of_nil, ?list_elem_of_singleton; try done;
    intros ->; split; try done;
    repeat match goal with |- context [if ?b then _ else _] => destruct b end; done.
Qed.

Lemma archive_invocations_bounded fuel rs p rs' steps p' :
  engine.loop workflow None fuel rs p = (inr (rs', steps), p') →
  (∀ nm, nm ∈ engine.pending rs → nm.1 ≠ loader) →
  length (filter (λ n, n = archive_handler) (engine.invocations steps))
  ≤ length (filter (λ nm : executor * message, nm.1 = archive_handler) (engine.pending rs)).
Proof.
  revert rs p rs' steps p'. induction fuel as [|fuel IH]; intros rs p rs' steps p'.
  { simpl. intros [= <- <- <-] _. simpl. lia. }
  destruct rs as [id seq sh [|[n m] rest] aw st].
  { simpl. intros [= <- <- <-] _. simpl. lia. }
  intros Hrun Hpend. cbn [engine.pending] in *.
  assert (Hn : n ≠ loader) by (apply (Hpend (n, m)); left).
  apply loop_cons in Hrun
    as [[-> _]|[[msgs ->]|(h & msgs & routed & seq' & sh' & p1 & later & _ & _ & _ & -> & Hloop & Hrouted)]].
  - simpl. lia.
  - rewrite <- (app_nil_r (_ :: _)). rewrite invocations_step.
    rewrite !filter_cons. simpl. destruct (decide (n = archive_handler)); simpl; lia.
  - rewrite invocations_step. apply IH in Hloop.
    + cbn [engine.pending] in Hloop. rewrite filter_app, length_app in Hloop.
      rewrite (filter_none _ routed) in Hloop.
      * rewrite !filter_cons. simpl in *.
        destruct (decide (n = archive_handler)); simpl; lia.
      * intros [t x] Hin. simpl. destruct (Hrouted t x Hin) as [src Hsrc].
        apply targets_forward in Hsrc as [_ Hsrc]. by apply Hsrc.
    + cbn [engine.pending]. intros nm [Hin|Hin]%elem_of_app.
      * apply Hpend. by right.
      * destruct nm as [t x]. destruct (Hrouted t x Hin) as [src Hsrc].
        by apply targets_forward in Hsrc as [Hsrc _].
Qed.

Lemma run_workflow_archive_once fuel p rs steps p' :
  run_workflow fuel p = (inr (rs, steps), p') →
  length (filter (λ n, n = archive_handler) (engine.invocations steps)) ≤ 1.
Proof.
  unfold run_workflow, engine.run, engine.start. destruct fuel as [|fuel].
  { simpl. intros [= <- <- <-]. simpl. lia. }
  intros Hrun. apply loop_cons in Hrun
    as [[-> _]|[[msgs ->]|(h & msgs & routed & seq' & sh' & p1 & later & Hh & Hhp & Hrt & -> & Hloop & Hrouted)]].
  - simpl. lia.
  - rewrite <- (app_nil_r (_ :: _)). rewrite invocations_step. simpl. lia.
  - rewrite invocations_step. rewrite filter_cons_False by done.
    apply archive_invocations_bounded in Hloop.
    + etrans; [exact Hloop|]. cbn [engine.pending]. simpl.
      rewrite (Hrt eq_refl). simpl in Hh. injection Hh as <-.
      unfold sends in Hhp. apply bind_inr in Hhp as (decision & p2 & _ & [= <- <- <-]).
      unfold engine.enqueue. simpl. rewrite loader_group_deliveries. simpl.
      rewrite filter_cons. destruct (decide _); simpl; lia.
    + cbn [engine.pending]. simpl. intros [t x] Hin. simpl.
      destruct (Hrouted t x Hin) as [src Hsrc].
      by apply targets_forward in Hsrc as [Hsrc _].
Qed.

(** C10. Once the archive handler's step has completed, the output file
    of the invoice is gone from the output directory (it was moved to the
    archive directory if it existed), the decision the handler sends on is
    not "archive_needed", and analysing the same invoice again in the file
    system the step left behind does not yield "archive_needed" either; so
    the second switch-case group routes that decision exactly as the
    loader's group would without ever selecting the archive handler, and in
    a run of the workflow the archive handler is invoked at most once. *)
Theorem archive_step_never_rearchives :
  (∀ (decision decision' : InvoiceDecision.t) (p p' : process),
     ArchiveHandler_archive_old decision p = (inr decision', p') →
     let invoice := InvoiceDecision.invoice decision in
     let config := InvoiceDecision.config decision in
     (path_join OUTPUT_DIR (invoice_id invoice +:+ ".txt") ∉ files p') ∧
     InvoiceDecision.decision_type decision' ≠ "archive_needed" ∧
     (∃ reason,
        analyze_invoice_routing invoice config p'
        = (inr (InvoiceDecision.decision_type decision', reason), p')) ∧
     engine.deliveries archive_group decision'
       = engine.deliveries loader_group decision' ∧
     archive_handler ∉ engine.deliveries archive_group decision') ∧
  (∀ (fuel : nat) (p p' : process) rs steps,
     run_workflow fuel p = (inr (rs, steps), p') →
     length (filter (λ n, n = archive_handler) (engine.invocations steps)) ≤ 1).
Proof.
  split; [|intros fuel p p' rs steps; apply run_workflow_archive_once].
  intros decision decision' p p' Hrun invoice config.
  apply archive_old_completes in Hrun as (Hgone & _ & _ & _ & Hty).
  fold invoice config in Hgone, Hty.
  assert (Hne : InvoiceDecision.decision_type decision' ≠ "archive_needed").
  { rewrite Hty. destruct (_ >=? _)%float; [done|].
    destruct (invoice_utils.is_preferred invoice); done. }
  split_and!.
  - done.
  - done.
  - destruct (analyze_invoice_routing_result invoice config p') as [reason Hres].
    exists reason. rewrite Hres, Hty.
    rewrite bool_decide_eq_false_2 by done. done.
  - rewrite loader_group_deliveries, archive_group_deliveries.
    unfold is_archive_needed. by rewrite bool_decide_eq_false_2.
  - rewrite archive_group_deliveries.
    rewrite list_elem_of_singleton.
    destruct (is_high_value decision'), (is_preferred decision'); done.
Qed.

End branching_facts.

(** ** new_16, new_17: the selected invoice and the module global *)

Section selection_facts.
Context `{rt : !Runtime, inst : !Installation}.

(** A handler that starts by asking the menu and then overwrites the
    global does the same whatever the global held before. *)
Lemma select_first {A : Type} (r : exn + list InvoiceData)
    (k : list InvoiceData → string → io A) g p :
  (∀ invoices selected q g',
     k invoices selected (with_selected_invoice_id g' q) = k invoices selected q) →
  let h := lift r ≫= λ invoices, sequential_workflow.show_menu invoices ≫= k invoices in
  (h (with_selected_invoice_id g p)).1 = (h p).1 ∧
  ∀ x p', h p = (inr x, p') → h (with_selected_invoice_id g p) = (inr x, p').
Proof.
  intros Hk h. subst h. destruct p as [ls fs tm g0].
  unfold mbind at 1 3 5, io_bind at 1 3 5, lift.
  destruct r as [e|invoices]; [split; [done|by intros x p' [=]]|].
  unfold mbind, io_bind. rewrite !show_menu_eq.
  destruct (sequential_workflow.list_invoices invoices) as [e|[]];
    [split; [done|by intros x p' [=]]|].
  unfold sequential_workflow.select_invoice. simpl.
  destruct (sequential_workflow.show_menu_loop invoices ls) as [[e|selected] rest]; simpl.
  - split; [done|]. by intros x p' [=].
  - pose proof (Hk invoices selected (mkProcess rest fs tm g0) g) as Hk'.
    unfold with_selected_invoice_id in Hk'. simpl in Hk'.
    unfold with_stdin, with_selected_invoice_id. simpl. rewrite Hk'. done.
Qed.

Lemma bind_assoc_io {A B C : Type} (m : io A) (f : A → io B) (k : B → io C) p :
  ((m ≫= f) ≫= k) p = (m ≫= λ x, f x ≫= k) p.
Proof. unfold mbind, io_bind. destruct (m p) as [[e|x] p1]; done. Qed.

Lemma bind_frame {A B : Type} (m : io A) (f : A → io B) g p :
  m (with_selected_invoice_id g p) = ((m p).1, with_selected_invoice_id g (m p).2) →
  (∀ x q, (f x (with_selected_invoice_id g q)).1 = (f x q).1) →
  ((m ≫= f) (with_selected_invoice_id g p)).1 = ((m ≫= f) p).1.
Proof.
  intros Hm Hf. unfold mbind, io_bind. rewrite Hm.
  destruct (m p) as [[e|x] p1]; simpl; [done|apply Hf].
Qed.

Lemma read_invoice_data_ignores_global config g p :
  (sequential_workflow.read_invoice_data config (with_selected_invoice_id g p)).1
  = (sequential_workflow.read_invoice_data config p).1 ∧
  ∀ msg p', sequential_workflow.read_invoice_data config p = (inr msg, p') →
            sequential_workflow.read_invoice_data config (with_selected_invoice_id g p)
            = (inr msg, p').
Proof.
  unfold sequential_workflow.read_invoice_data. cbv zeta.
  apply select_first. intros invoices selected [ls fs tm g0] g'. reflexivity.
Qed.

Lemma Dispatcher_dispatch_ignores_global start_signal g p :
  (concurrent_workflow.Dispatcher_dispatch start_signal (with_selected_invoice_id g p)).1
  = (concurrent_workflow.Dispatcher_dispatch start_signal p).1 ∧
  ∀ data p', concurrent_workflow.Dispatcher_dispatch start_signal p = (inr data, p') →
             concurrent_workflow.Dispatcher_dispatch start_signal
               (with_selected_invoice_id g p) = (inr data, p').
Proof.
  unfold concurrent_workflow.Dispatcher_dispatch. cbv zeta.
  apply select_first. intros invoices selected [ls fs tm g0] g'. reflexivity.
Qed.

Lemma read_invoice_data_selected config p msg p' :
  sequential_workflow.read_invoice_data config p = (inr msg, p') →
  msg.1 = config ∧ selected_invoice_id p' = Some (invoice_id msg.2).
Proof.
  unfold sequential_workflow.read_invoice_data. intros Hrun. cbv zeta in Hrun.
  io_step Hrun as invoices p0 E0. clear E0.
  io_step Hrun as selected p1 E1. clear E1. destruct p1 as [ls fs tm g].
  io_step Hrun as u2 p2 E2. io_unfold_in E2. injection E2 as _ <-.
  io_step Hrun as inv p3 E3. apply next_selected_inv in E3 as (-> & Hsel & _).
  unfold sequential_workflow.wait_for_user in Hrun. io_unfold_in Hrun.
  destruct ls as [|line rest]; [done|]. injection Hrun as <- <-. simpl in *. done.
Qed.

Lemma Dispatcher_dispatch_selected start_signal p data p' :
  concurrent_workflow.Dispatcher_dispatch start_signal p = (inr data, p') →
  concurrent_workflow.InvoiceWithConfig.config data = InvoiceConfig_init ∧
  selected_invoice_id p'
  = Some (invoice_id (concurrent_workflow.InvoiceWithConfig.invoice data)).
Proof.
  unfold concurrent_workflow.Dispatcher_dispatch. intros Hrun. cbv zeta in Hrun.
  io_step Hrun as invoices p0 E0. clear E0.
  io_step Hrun as selected p1 E1. clear E1. destruct p1 as [ls fs tm g].
  io_step Hrun as u2 p2 E2. io_unfold_in E2. injection E2 as _ <-.
  io_step Hrun as inv p3 E3. apply next_selected_inv in E3 as (-> & Hsel & _).
  unfold concurrent_workflow.wait_for_user, sequential_workflow.wait_for_user in Hrun.
  io_unfold_in Hrun.
  destruct ls as [|line rest]; [done|]. injection Hrun as <- <-. simpl in *. done.
Qed.

(** A whole sequential run does the same whatever the global held when it
    started. *)
Lemma sequential_run_ignores_global g p :
  (sequential_workflow.run_workflow (with_selected_invoice_id g p)).1
  = (sequential_workflow.run_workflow p).1.
Proof.
  unfold sequential_workflow.run_workflow. apply bind_frame.
  - destruct p as [[|line ls] fs tm g0]; reflexivity.
  - intros config q.
    destruct (read_invoice_data_ignores_global config g q) as [Hfirst Hsame].
    cbv [mbind io_bind].
    destruct (sequential_workflow.read_invoice_data config q) as [[e|msg] q'] eqn:Hread.
    + destruct (sequential_workflow.read_invoice_data config (with_selected_invoice_id g q))
        as [[e'|msg'] q'']; simpl in Hfirst; by simplify_eq.
    + by rewrite (Hsame msg q').
Qed.

(** C7 (as amended). The handlers that select the invoice
    ([read_invoice_data] of the sequential script, [Dispatcher.dispatch] of
    the concurrent one) record the selection in the module global
    [selected_invoice_id]: after the step the global holds the id of the
    selected invoice.  The selection also travels in the message the handler
    sends, and the global is written before it is read: the handler sends
    the same message and leaves the same process behind whatever the global
    held before, and a whole sequential run ends in the same output or
    exception whatever the global held when it started. *)
Theorem selection_written_to_global_and_sent :
  (∀ config p msg p',
     sequential_workflow.read_invoice_data config p = (inr msg, p') →
     selected_invoice_id p' = Some (invoice_id msg.2) ∧
     ∀ g, sequential_workflow.read_invoice_data config (with_selected_invoice_id g p)
          = (inr msg, p')) ∧
  (∀ start_signal p data p',
     concurrent_workflow.Dispatcher_dispatch start_signal p = (inr data, p') →
     selected_invoice_id p'
     = Some (invoice_id (concurrent_workflow.InvoiceWithConfig.invoice data)) ∧
     ∀ g, concurrent_workflow.Dispatcher_dispatch start_signal
            (with_selected_invoice_id g p) = (inr data, p')) ∧
  (∀ g p,
     (sequential_workflow.run_workflow (with_selected_invoice_id g p)).1
     = (sequential_workflow.run_workflow p).1).
Proof.
  split_and!.
  - intros config p msg p' Hrun. split.
    + by apply read_invoice_data_selected in Hrun as [_ ?].
    + intros g. by apply read_invoice_data_ignores_global.
  - intros start_signal p data p' Hrun. split.
    + by apply Dispatcher_dispatch_selected in Hrun as [_ ?].
    + intros g. by apply Dispatcher_dispatch_ignores_global.
  - apply sequential_run_ignores_global.
Qed.

End selection_facts.

(** ** new_17: the merger *)

Section merger_facts.
Import concurrent_workflow.
Implicit Types (data : InvoiceWithConfig.t) (totals : TotalsResult.t)
  (client : ClientResult.t) (credit : CreditResult.t)
  (self : ResultsMerger.t) (arrivals : list message) (p : process).


Lemma prefix_of_four {A : Type} (a b c d : A) (before after : list A) :
  (before ++ after)%list = [a; b; c; d] → after ≠ [] →
  before = [] ∨ before = [a] ∨ before = [a; b] ∨ before = [a; b; c].
Proof.
  intros Heq Hafter.
  destruct before as [|a' [|b' [|c' [|d' before]]]]; simplify_eq/=; auto.
  destruct before; simplify_eq/=.
Qed.

Lemma merger_any_order data totals client credit arrivals p :
  arrivals ≡ₚ merger_inbox data totals client credit →
  (∀ before after, arrivals = (before ++ after)%list → after ≠ [] →
     ∃ self', ResultsMerger.deliver_all ResultsMerger.init before p = (inr ([], self'), p)) ∧
  ResultsMerger.deliver_all ResultsMerger.init arrivals p =
  match stdin p with
  | [] => (inl EOFError, p)
  | _ :: rest =>
      (inr ([MergedResult.mk (InvoiceWithConfig.invoice data)
                             (InvoiceWithConfig.config data)
                             (TotalsResult.totals totals)
                             (ClientResult.client_info client)
                             (CreditResult.credit_check credit)],
            ResultsMerger.init),
       with_stdin rest p)
  end.
Proof.
  intros Hperm. symmetry in Hperm. apply permutations_Permutation in Hperm.
  unfold merger_inbox in Hperm. cbv [permutations interleave fmap list_fmap mbind list_bind app] in Hperm.
  destruct p as [[|line rest] fs tm g];
    repeat (apply elem_of_cons in Hperm as [-> | Hperm]);
    try (by apply elem_of_nil in Hperm);
    (split; [|reflexivity]);
    intros before after Heq Hafter; symmetry in Heq;
    destruct (prefix_of_four _ _ _ _ _ _ Heq Hafter) as [-> | [-> | [-> | ->]]];
    eexists; reflexivity.
Qed.

(** C2. In a run of the concurrent workflow the merger is handed the
    dispatched data and one result of each of the three parallel tasks, in
    whatever order the tasks finish.  Whatever that order, no proper prefix
    of the deliveries makes the merger send anything (or read the console):
    the merging step does not fire before all four inputs have arrived; and
    the whole sequence fires it exactly once, on the last delivery: one
    merged result is sent and the slots are reset (when the console has no
    line for the prompt of the merging step, that step raises EOFError at
    its prompt instead). *)
Theorem merge_fires_once_after_all_inputs data totals client credit arrivals p :
  arrivals ≡ₚ merger_inbox data totals client credit →
  (∀ before after, arrivals = (before ++ after)%list → after ≠ [] →
     ∃ self', ResultsMerger.deliver_all ResultsMerger.init before p = (inr ([], self'), p)) ∧
  ResultsMerger.deliver_all ResultsMerger.init arrivals p =
  match stdin p with
  | [] => (inl EOFError, p)
  | _ :: rest =>
      (inr ([MergedResult.mk (InvoiceWithConfig.invoice data)
                             (InvoiceWithConfig.config data)
                             (TotalsResult.totals totals)
                             (ClientResult.client_info client)
                             (CreditResult.credit_check credit)],
            ResultsMerger.init),
       with_stdin rest p)
  end.
Proof. apply merger_any_order. Qed.

(** C3. For every two arrival orders of the four inputs of a run, the
    merger ends in the same way: the same merged result is sent, and it is
    built from the invoice and configuration of the dispatched data, the
    totals, the client info and the credit check, whatever the order. *)
Theorem merged_result_ignores_arrival_order
    data totals client credit arrivals1 arrivals2 p :
  arrivals1 ≡ₚ merger_inbox data totals client credit →
  arrivals2 ≡ₚ merger_inbox data totals client credit →
  ResultsMerger.deliver_all ResultsMerger.init arrivals1 p
    = ResultsMerger.deliver_all ResultsMerger.init arrivals2 p ∧
  (∀ sent self' p',
     ResultsMerger.deliver_all ResultsMerger.init arrivals1 p = (inr (sent, self'), p') →
     sent = [MergedResult.mk (InvoiceWithConfig.invoice data)
                             (InvoiceWithConfig.config data)
                             (TotalsResult.totals totals)
                             (ClientResult.client_info client)
                             (CreditResult.credit_check credit)]).
Proof.
  intros [_ H1]%(merger_any_order _ _ _ _ _ p) [_ H2]%(merger_any_order _ _ _ _ _ p).
  split; [by rewrite H1, H2|].
  intros sent self' p'. rewrite H1. destruct (stdin p); [done|]. by intros [= <- <- <-].
Qed.





End merger_facts.

(** ** new_19: requests, pauses and resumption *)

Section interactive_facts.
Context `{rt : !Runtime, inst : !Installation}.
Import interactive_checkpointing.


Implicit Types (ctx : context) (state : InvoiceState.t) (p : process).

(** *** What each handler returns *)

Lemma prepare_result self_id invoice_data ctx p :
  ∃ state ctx',
    InvoicePreparation_prepare self_id invoice_data ctx p = (inr (state, ctx'), p) ∧
    InvoiceState.invoice_id state = VStr (invoice_id invoice_data) ∧
    InvoiceState.subtotal state = subtotal invoice_data ∧
    shared_state ctx' !! "current_invoice_id" = Some (VStr (invoice_id invoice_data)).
Proof.
  unfold InvoicePreparation_prepare. cbv zeta.
  destruct (totals_lookup invoice_data InvoiceConfig_init) as (_ & _ & _ & _ & _ & -> & _).
  do 2 eexists. split; [reflexivity|]. split_and!; [done|done|].
  unfold set_shared_state, set_state. simpl. by simplify_map_eq.
Qed.

Lemma tax_request_result self_id state ctx p :
  ∃ ctx',
    TaxConfirmationRequester_request_tax_confirmation self_id state ctx p
    = (inr (TaxConfirmationRequest.mk
              (InvoiceState.invoice_id state)
              ("Confirm tax calculation for " +:+ str (InvoiceState.invoice_id state) +:+ "?")
              (InvoiceState.tax_amount state)
              "Type 'yes' to confirm or 'no' to skip", ctx'), p) ∧
    shared_state ctx' !! "current_invoice_id" = Some (InvoiceState.invoice_id state).
Proof.
  unfold TaxConfirmationRequester_request_tax_confirmation. cbv zeta.
  eexists. split; [reflexivity|].
  unfold set_shared_state, set_state. simpl. by simplify_map_eq.
Qed.

Lemma tax_process_result self_id response ctx p :
  ∃ ctx',
    TaxConfirmationProcessor_process_tax_response self_id response ctx p
    = (inr (InvoiceState.mk (get_shared_state "current_invoice_id" (VStr "INV-001") ctx)
              6000.0 0.10 (TaxConfirmationRequest.current_value response) 0.08 480.0
              true false "tax_processed", ctx'), p) ∧
    shared_state ctx' !! "current_invoice_id" = shared_state ctx !! "current_invoice_id".
Proof.
  unfold TaxConfirmationProcessor_process_tax_response. cbv zeta.
  eexists. split; [reflexivity|].
  unfold set_shared_state, set_state. simpl. by simplify_map_eq.
Qed.

Lemma discount_request_result self_id state ctx p :
  ∃ ctx',
    DiscountConfirmationRequester_request_discount_confirmation self_id state ctx p
    = (inr (if (InvoiceState.discount_amount state >? 0)%float
            then PDiscountConfirmationRequest
                   (DiscountConfirmationRequest.mk
                      (InvoiceState.invoice_id state)
                      ("Apply discount to " +:+ str (InvoiceState.invoice_id state) +:+ "?")
                      (InvoiceState.discount_amount state)
                      "Type 'yes' to apply or 'no' to skip")
            else PInvoiceState
                   (InvoiceState.mk
                      (InvoiceState.invoice_id state) (InvoiceState.subtotal state)
                      (InvoiceState.tax_rate state) (InvoiceState.tax_amount state)
                      (InvoiceState.discount_rate state) (InvoiceState.discount_amount state)
                      (InvoiceState.tax_confirmed state) true "discount_skipped"),
            ctx'), p) ∧
    shared_state ctx' !! "current_invoice_id" = shared_state ctx !! "current_invoice_id".
Proof.
  unfold DiscountConfirmationRequester_request_discount_confirmation. cbv zeta.
  destruct (InvoiceState.discount_amount state >? 0)%float;
    (eexists; split; [reflexivity|]);
    unfold set_shared_state, set_state; simpl; by simplify_map_eq.
Qed.

Lemma discount_process_result self_id response ctx p :
  ∃ ctx',
    DiscountConfirmationProcessor_process_discount_response self_id response ctx p
    = (inr (InvoiceState.mk (get_shared_state "current_invoice_id" (VStr "INV-001") ctx)
              6000.0 0.10 600.0 0.08 (DiscountConfirmationRequest.current_value response)
              true true "discount_processed", ctx'), p) ∧
    shared_state ctx' !! "current_invoice_id" = shared_state ctx !! "current_invoice_id".
Proof.
  unfold DiscountConfirmationProcessor_process_discount_response. cbv zeta.
  eexists. split; [reflexivity|].
  unfold set_shared_state, set_state. simpl. by simplify_map_eq.
Qed.

Lemma finalize_result self_id state ctx p :
  ∃ ctx' p',
    InvoiceFinalizer_finalize self_id state ctx p
    = (inr ("Invoice " +:+ str (InvoiceState.invoice_id state)
            +:+ " completed with user confirmations!", ctx'), p').
Proof.
  unfold InvoiceFinalizer_finalize. cbv zeta. destruct p as [ls fs tm g].
  do 2 eexists. reflexivity.
Qed.

Lemma passes_on_result {A : Type} (wrap : A → payload) (h : context → io (A * context))
    ctx p x ctx' p' :
  h ctx p = (inr (x, ctx'), p') →
  passes_on wrap h ctx p = (inr (engine.Send [wrap x], ctx'), p').
Proof. intros Hh. unfold passes_on, mbind, io_bind. by rewrite Hh. Qed.

(** *** The three legs of a run: up to the tax request, from its response
    up to the discount request, from that response to the output *)

Lemma run_to_tax_request rid ctx invoice p :
  ∃ state0 ctx2,
    let request :=
      TaxConfirmationRequest.mk
        (InvoiceState.invoice_id state0)
        ("Confirm tax calculation for " +:+ str (InvoiceState.invoice_id state0) +:+ "?")
        (InvoiceState.tax_amount state0)
        "Type 'yes' to confirm or 'no' to skip" in
    let steps :=
      [engine.Invoked preparer (PInvoiceData invoice);
       engine.Emitted preparer (PInvoiceState state0);
       engine.Invoked tax_requester (PInvoiceState state0);
       engine.Emitted tax_requester (PTaxConfirmationRequest request)] in
    InvoiceState.invoice_id state0 = VStr (invoice_id invoice) ∧
    shared_state ctx2 !! "current_invoice_id" = Some (VStr (invoice_id invoice)) ∧
    (∀ fuel,
       engine.loop workflow None (2 + fuel)
         (engine.start preparer rid ctx (PInvoiceData invoice)) p
       = (inr (engine.mkRunState rid 2 ctx2 [] (Some (1, [tax_processor])) engine.Paused,
               steps), p)) ∧
    ∀ fuel answer,
      engine.loop workflow (Some answer) (2 + fuel)
        (engine.start preparer rid ctx (PInvoiceData invoice)) p
      = match engine.loop workflow (Some answer) fuel
                (engine.mkRunState rid 2 ctx2
                   [(tax_processor, answer (PTaxConfirmationRequest request))]
                   None engine.Running) p
        with
        | (inl e, p2) => (inl e, p2)
        | (inr (rs', later), p2) => (inr (rs', (steps ++ later)%list), p2)
        end.
Proof.
  destruct (prepare_result (executor_id preparer) invoice ctx p)
    as (state0 & ctx1 & Hprep & Hid & _ & _).
  destruct (tax_request_result (executor_id tax_requester) state0 ctx1 p)
    as (ctx2 & Hreq & Hshared).
  exists state0, ctx2. cbv zeta. split_and!.
  - done.
  - by rewrite Hshared, Hid.
  - intros fuel. change (2 + fuel) with (S (S fuel)). unfold engine.start.
    erewrite loop_send;
      [|reflexivity|apply (passes_on_result PInvoiceState), Hprep|reflexivity].
    cbn [engine.targets workflow fmap list_fmap app].
    erewrite loop_pause;
      [|reflexivity|apply (passes_on_result PTaxConfirmationRequest), Hreq|reflexivity].
    reflexivity.
  - intros fuel answer. change (2 + fuel) with (S (S fuel)). unfold engine.start.
    erewrite loop_send;
      [|reflexivity|apply (passes_on_result PInvoiceState), Hprep|reflexivity].
    cbn [engine.targets workflow fmap list_fmap app].
    erewrite loop_answer;
      [|reflexivity|apply (passes_on_result PTaxConfirmationRequest), Hreq|reflexivity].
    cbn [engine.targets workflow fmap list_fmap app].
    destruct (engine.loop workflow (Some answer) fuel _ p) as [[e|[rs' later]] p2]; done.
Qed.

Lemma get_shared_state_lookup key default ctx v :
  shared_state ctx !! key = Some v → get_shared_state key default ctx = v.
Proof. unfold get_shared_state. by intros ->. Qed.

Lemma run_to_discount_request rid ctx v response p :
  shared_state ctx !! "current_invoice_id" = Some v →
  ∃ ctx',
    let state1 :=
      InvoiceState.mk v 6000.0 0.10 (TaxConfirmationRequest.current_value response)
                      0.08 480.0 true false "tax_processed" in
    let request :=
      DiscountConfirmationRequest.mk v ("Apply discount to " +:+ str v +:+ "?") 480.0
                                     "Type 'yes' to apply or 'no' to skip" in
    let steps :=
      [engine.Invoked tax_processor (PTaxConfirmationRequest response);
       engine.Emitted tax_processor (PInvoiceState state1);
       engine.Invoked discount_requester (PInvoiceState state1);
       engine.Emitted discount_requester (PDiscountConfirmationRequest request)] in
    shared_state ctx' !! "current_invoice_id" = Some v ∧
    (∀ fuel,
       engine.loop workflow None (2 + fuel)
         (engine.mkRunState rid 2 ctx [(tax_processor, PTaxConfirmationRequest response)]
                            None engine.Running) p
       = (inr (engine.mkRunState rid 4 ctx' [] (Some (3, [discount_processor]))
                 engine.Paused,
               steps), p)) ∧
    ∀ fuel answer,
      engine.loop workflow (Some answer) (2 + fuel)
        (engine.mkRunState rid 2 ctx [(tax_processor, PTaxConfirmationRequest response)]
                           None engine.Running) p
      = match engine.loop workflow (Some answer) fuel
                (engine.mkRunState rid 4 ctx'
                   [(discount_processor, answer (PDiscountConfirmationRequest request))]
                   None engine.Running) p
        with
        | (inl e, p2) => (inl e, p2)
        | (inr (rs', later), p2) => (inr (rs', (steps ++ later)%list), p2)
        end.
Proof.
  intros Hv.
  destruct (tax_process_result (executor_id tax_processor) response ctx p)
    as (ctx1 & Htax & Hshared1).
  rewrite (get_shared_state_lookup _ _ _ _ Hv) in Htax.
  match type of Htax with _ = (inr (?st, _), _) => set (state1 := st) in * end.
  destruct (discount_request_result (executor_id discount_requester) state1 ctx1 p)
    as (ctx2 & Hreq & Hshared2).
  change (InvoiceState.discount_amount state1 >? 0)%float with true in Hreq.
  cbv iota in Hreq. cbn [InvoiceState.invoice_id InvoiceState.discount_amount state1] in Hreq.
  exists ctx2. cbv zeta. split_and!.
  - by rewrite Hshared2, Hshared1.
  - intros fuel. change (2 + fuel) with (S (S fuel)).
    erewrite loop_send;
      [|reflexivity|apply (passes_on_result PInvoiceState), Htax|reflexivity].
    cbn [engine.targets workflow fmap list_fmap app].
    erewrite loop_pause; [|reflexivity|apply (passes_on_result id), Hreq|reflexivity].
    reflexivity.
  - intros fuel answer. change (2 + fuel) with (S (S fuel)).
    erewrite loop_send;
      [|reflexivity|apply (passes_on_result PInvoiceState), Htax|reflexivity].
    cbn [engine.targets workflow fmap list_fmap app].
    erewrite loop_answer; [|reflexivity|apply (passes_on_result id), Hreq|reflexivity].
    cbn [engine.targets workflow fmap list_fmap app].
    destruct (engine.loop workflow (Some answer) fuel _ p) as [[e|[rs' later]] p2]; done.
Qed.

Lemma run_to_output rid ctx v response p :
  shared_state ctx !! "current_invoice_id" = Some v →
  ∃ ctx' p',
    let state2 :=
      InvoiceState.mk v 6000.0 0.10 600.0 0.08
                      (DiscountConfirmationRequest.current_value response)
                      true true "discount_processed" in
    ∀ fuel respond,
      engine.loop workflow respond (2 + fuel)
        (engine.mkRunState rid 4 ctx
           [(discount_processor, PDiscountConfirmationRequest response)]
           None engine.Running) p
      = (inr (engine.mkRunState rid 5 ctx' [] None
                (engine.Completed ("Invoice " +:+ str v
                                   +:+ " completed with user confirmations!")),
              [engine.Invoked discount_processor (PDiscountConfirmationRequest response);
               engine.Emitted discount_processor (PInvoiceState state2);
               engine.Invoked finalizer (PInvoiceState state2)]), p').
Proof.
  intros Hv.
  destruct (discount_process_result (executor_id discount_processor) response ctx p)
    as (ctx1 & Hdisc & Hshared1).
  rewrite (get_shared_state_lookup _ _ _ _ Hv) in Hdisc.
  match type of Hdisc with _ = (inr (?st, _), _) => set (state2 := st) in * end.
  destruct (finalize_result (executor_id finalizer) state2 ctx1 p) as (ctx2 & p' & Hfin).
  exists ctx2, p'. cbv zeta. intros fuel respond.
  change (2 + fuel) with (S (S fuel)).
  erewrite loop_send;
    [|reflexivity|apply (passes_on_result PInvoiceState), Hdisc|reflexivity].
  cbn [engine.targets workflow fmap list_fmap app].
  erewrite loop_yield; [reflexivity|reflexivity|].
  unfold mbind, io_bind. rewrite Hfin. reflexivity.
Qed.

(** C5. A run of the graph pauses at the tax request and, resumed, at
    the discount request.  Resuming it with correlated responses makes the
    handlers emit, leg by leg, the messages of the uninterrupted run in
    which the same responses are supplied on the spot at the two requests;
    in particular the states the two confirmation processors emit are the
    same in both runs: invoice id from the shared state, subtotal 6000.0,
    tax amount and discount amount as the responses (or the constants 600.0
    and 480.0) give them; both runs end in the same RunState and process. *)
Theorem resume_replays_synchronous_run (fuel rid : nat) ctx invoice p
    (response1 : TaxConfirmationRequest.t) (response2 : DiscountConfirmationRequest.t) :
  let respond request :=
    match request with
    | PTaxConfirmationRequest _ => PTaxConfirmationRequest response1
    | PDiscountConfirmationRequest _ => PDiscountConfirmationRequest response2
    | other => other
    end in
  let v := VStr (invoice_id invoice) in
  let state1 :=
    InvoiceState.mk v 6000.0 0.10 (TaxConfirmationRequest.current_value response1)
                    0.08 480.0 true false "tax_processed" in
  let request2 :=
    DiscountConfirmationRequest.mk v ("Apply discount to " +:+ str v +:+ "?") 480.0
                                   "Type 'yes' to apply or 'no' to skip" in
  let state2 :=
    InvoiceState.mk v 6000.0 0.10 600.0 0.08
                    (DiscountConfirmationRequest.current_value response2)
                    true true "discount_processed" in
  let steps2 :=
    [engine.Invoked tax_processor (PTaxConfirmationRequest response1);
     engine.Emitted tax_processor (PInvoiceState state1);
     engine.Invoked discount_requester (PInvoiceState state1);
     engine.Emitted discount_requester (PDiscountConfirmationRequest request2)] in
  let steps3 :=
    [engine.Invoked discount_processor (PDiscountConfirmationRequest response2);
     engine.Emitted discount_processor (PInvoiceState state2);
     engine.Invoked finalizer (PInvoiceState state2)] in
  ∃ rs1 steps1 rs2 rs3 p3,
    engine.run workflow None (6 + fuel) preparer rid ctx (PInvoiceData invoice) p
      = (inr (rs1, steps1), p) ∧
    engine.run_status rs1 = engine.Paused ∧
    engine.awaiting rs1 = Some (1, [tax_processor]) ∧
    engine.resume workflow (6 + fuel) {[rid := rs1]} rid
      (engine.mkResponse 1 (PTaxConfirmationRequest response1)) p
      = (inr (inr steps2, <[rid := rs2]> {[rid := rs1]}), p) ∧
    engine.run_status rs2 = engine.Paused ∧
    engine.awaiting rs2 = Some (3, [discount_processor]) ∧
    engine.resume workflow (6 + fuel) (<[rid := rs2]> {[rid := rs1]}) rid
      (engine.mkResponse 3 (PDiscountConfirmationRequest response2)) p
      = (inr (inr steps3, <[rid := rs3]> (<[rid := rs2]> {[rid := rs1]})), p3) ∧
    engine.run_status rs3
      = engine.Completed ("Invoice " +:+ str v +:+ " completed with user confirmations!") ∧
    engine.run workflow (Some respond) (6 + fuel) preparer rid ctx (PInvoiceData invoice) p
      = (inr (rs3, (steps1 ++ steps2 ++ steps3)%list), p3).
Proof.
  intros respond v state1 request2 state2 steps2 steps3.
  destruct (run_to_tax_request rid ctx invoice p)
    as (state0 & ctx2 & Hid & Hshared2 & Hpause1 & Hsync1).
  destruct (run_to_discount_request rid ctx2 v response1 p Hshared2)
    as (ctx4 & Hshared4 & Hpause2 & Hsync2).
  destruct (run_to_output rid ctx4 v response2 p Hshared4) as (ctx5 & p3 & Hout).
  cbv zeta in *.
  eexists _, _, _, _, p3. split_and!.
  - unfold engine.run. apply (Hpause1 (4 + fuel)).
  - reflexivity.
  - reflexivity.
  - erewrite resume_correlated;
      [|apply lookup_singleton_eq|reflexivity|reflexivity|reflexivity].
    cbn [engine.run_id engine.next_seq engine.shared engine.pending engine.payload
         fmap list_fmap app].
    change (6 + fuel) with (2 + (4 + fuel)). rewrite (Hpause2 (4 + fuel)). reflexivity.
  - reflexivity.
  - reflexivity.
  - erewrite resume_correlated;
      [|apply lookup_insert_eq|reflexivity|reflexivity|reflexivity].
    cbn [engine.run_id engine.next_seq engine.shared engine.pending engine.payload
         fmap list_fmap app].
    change (6 + fuel) with (2 + (4 + fuel)). rewrite (Hout (4 + fuel) None). reflexivity.
  - reflexivity.
  - unfold engine.run. change (6 + fuel) with (2 + (2 + (2 + fuel))).
    rewrite (Hsync1 (2 + (2 + fuel)) respond).
    cbn [respond]. rewrite (Hsync2 (2 + fuel) respond).
    cbn [respond]. rewrite (Hout fuel (Some respond)). reflexivity.
Qed.

(** *** The runner of the script *)

Lemma run_interactive_workflow_collects fuel rid ctx invoice p line1 line2 rest :
  stdin p = line1 :: line2 :: rest →
  ∃ rs1 steps1,
    engine.run workflow None (6 + fuel) preparer rid ctx (PInvoiceData invoice) p
      = (inr (rs1, steps1), p) ∧
    engine.run_status rs1 = engine.Paused ∧
    engine.awaiting rs1 = Some (1, [tax_processor]) ∧
    engine.invocations steps1 = [preparer; tax_requester] ∧
    run_interactive_workflow (6 + fuel) rid ctx invoice p
      = (inr (ResponsesCollected (str_strip_lower line1) (str_strip_lower line2), rs1),
         with_stdin rest p).
Proof.
  intros Hin.
  destruct (run_to_tax_request rid ctx invoice p)
    as (state0 & ctx2 & _ & _ & Hpause1 & _).
  cbv zeta in Hpause1. specialize (Hpause1 (4 + fuel)).
  do 2 eexists. split_and!.
  - exact Hpause1.
  - reflexivity.
  - reflexivity.
  - reflexivity.
  - unfold run_interactive_workflow, engine.run.
    unfold mbind at 1, io_bind at 1.
    change (6 + fuel) with (2 + (4 + fuel)). rewrite Hpause1.
    cbn [engine.run_status events_of first_output].
    destruct p as [ls fs tm g]. simpl in Hin. subst ls. reflexivity.
Qed.

(** *** Resuming the paused run, request after request *)

Lemma resume_runs_to_next_request fuel rid ctx invoice p
    (response1 : TaxConfirmationRequest.t) (response2 : DiscountConfirmationRequest.t) :
  ∃ rs1 steps1 rs2 steps2 rs3 steps3 p3,
    engine.run workflow None (6 + fuel) preparer rid ctx (PInvoiceData invoice) p
      = (inr (rs1, steps1), p) ∧
    engine.run_status rs1 = engine.Paused ∧
    engine.awaiting rs1 = Some (1, [tax_processor]) ∧
    engine.resume workflow (6 + fuel) {[rid := rs1]} rid
      (engine.mkResponse 1 (PTaxConfirmationRequest response1)) p
      = (inr (inr steps2, <[rid := rs2]> {[rid := rs1]}), p) ∧
    engine.invocations steps2 = [tax_processor; discount_requester] ∧
    engine.run_status rs2 = engine.Paused ∧
    engine.awaiting rs2 = Some (3, [discount_processor]) ∧
    engine.resume workflow (6 + fuel) (<[rid := rs2]> {[rid := rs1]}) rid
      (engine.mkResponse 3 (PDiscountConfirmationRequest response2)) p
      = (inr (inr steps3, <[rid := rs3]> (<[rid := rs2]> {[rid := rs1]})), p3) ∧
    engine.invocations steps3 = [discount_processor; finalizer] ∧
    engine.run_status rs3
      = engine.Completed ("Invoice " +:+ str (VStr (invoice_id invoice))
                          +:+ " completed with user confirmations!").
Proof.
  destruct (run_to_tax_request rid ctx invoice p)
    as (state0 & ctx2 & Hid & Hshared2 & Hpause1 & _).
  destruct (run_to_discount_request rid ctx2 (VStr (invoice_id invoice)) response1 p
              Hshared2) as (ctx4 & Hshared4 & Hpause2 & _).
  destruct (run_to_output rid ctx4 (VStr (invoice_id invoice)) response2 p Hshared4)
    as (ctx5 & p3 & Hout).
  cbv zeta in *.
  eexists _, _, _, _, _, _, p3. split_and!.
  - unfold engine.run. apply (Hpause1 (4 + fuel)).
  - reflexivity.
  - reflexivity.
  - erewrite resume_correlated;
      [|apply lookup_singleton_eq|reflexivity|reflexivity|reflexivity].
    cbn [engine.run_id engine.next_seq engine.shared engine.pending engine.payload
         fmap list_fmap app].
    change (6 + fuel) with (2 + (4 + fuel)). rewrite (Hpause2 (4 + fuel)). reflexivity.
  - reflexivity.
  - reflexivity.
  - reflexivity.
  - erewrite resume_correlated;
      [|apply lookup_insert_eq|reflexivity|reflexivity|reflexivity].
    cbn [engine.run_id engine.next_seq engine.shared engine.pending engine.payload
         fmap list_fmap app].
    change (6 + fuel) with (2 + (4 + fuel)). rewrite (Hout (4 + fuel) None). reflexivity.
  - reflexivity.
  - reflexivity.
Qed.

(** C6 (as amended). A resume whose run id and request sequence number
    match no paused run of the runtime fails with CorrelationMismatchError
    and leaves every RunState as it was.  A resume with the run id of the
    paused run and a correlated response makes the run Running again and
    runs the chain up to the next request or to the output: resumed at the
    tax request it invokes the tax processor and the discount requester and
    pauses again at the discount request; resumed there it invokes the
    discount processor and the finalizer and completes with the output.
    The script's own runner, [run_interactive_workflow], does not resume:
    after a pass that ends paused it reads the two answers from the console
    and returns, with the run still paused at the tax request. *)
Theorem resume_rejects_mismatch_and_runs_to_next_request :
  (∀ fuel (runs : gmap nat (engine.RunState executor payload string context))
     rid response p,
     (∀ rs seq waiting,
        runs !! rid = Some rs → engine.run_status rs = engine.Paused →
        engine.awaiting rs = Some (seq, waiting) →
        engine.request_seq response ≠ seq) →
     engine.resume workflow fuel runs rid response p
     = (inr (inl engine.CorrelationMismatchError, runs), p)) ∧
  (∀ fuel rid ctx invoice p (response1 : TaxConfirmationRequest.t)
     (response2 : DiscountConfirmationRequest.t),
     ∃ rs1 steps1 rs2 steps2 rs3 steps3 p3,
       engine.run workflow None (6 + fuel) preparer rid ctx (PInvoiceData invoice) p
         = (inr (rs1, steps1), p) ∧
       engine.run_status rs1 = engine.Paused ∧
       engine.awaiting rs1 = Some (1, [tax_processor]) ∧
       engine.resume workflow (6 + fuel) {[rid := rs1]} rid
         (engine.mkResponse 1 (PTaxConfirmationRequest response1)) p
         = (inr (inr steps2, <[rid := rs2]> {[rid := rs1]}), p) ∧
       engine.invocations steps2 = [tax_processor; discount_requester] ∧
       engine.run_status rs2 = engine.Paused ∧
       engine.awaiting rs2 = Some (3, [discount_processor]) ∧
       engine.resume workflow (6 + fuel) (<[rid := rs2]> {[rid := rs1]}) rid
         (engine.mkResponse 3 (PDiscountConfirmationRequest response2)) p
         = (inr (inr steps3, <[rid := rs3]> (<[rid := rs2]> {[rid := rs1]})), p3) ∧
       engine.invocations steps3 = [discount_processor; finalizer] ∧
       engine.run_status rs3
         = engine.Completed ("Invoice " +:+ str (VStr (invoice_id invoice))
                             +:+ " completed with user confirmations!")) ∧
  (∀ fuel rid ctx invoice p line1 line2 rest,
     stdin p = line1 :: line2 :: rest →
     ∃ rs1 steps1,
       engine.run workflow None (6 + fuel) preparer rid ctx (PInvoiceData invoice) p
         = (inr (rs1, steps1), p) ∧
       engine.run_status rs1 = engine.Paused ∧
       engine.awaiting rs1 = Some (1, [tax_processor]) ∧
       engine.invocations steps1 = [preparer; tax_requester] ∧
       run_interactive_workflow (6 + fuel) rid ctx invoice p
         = (inr (ResponsesCollected (str_strip_lower line1) (str_strip_lower line2), rs1),
            with_stdin rest p)).
Proof.
  split_and!.
  - intros fuel runs rid response p Hmis. by apply resume_mismatch.
  - intros fuel rid ctx invoice p response1 response2.
    apply resume_runs_to_next_request.
  - intros fuel rid ctx invoice p line1 line2 rest Hin.
    by apply run_interactive_workflow_collects.
Qed.

(** *** A state without discount at the discount requester *)


(** The discount the preparer computes for an invoice. *)
Lemma prepare_discount_amount self_id invoice ctx p state ctx' :
  InvoicePreparation_prepare self_id invoice ctx p = (inr (state, ctx'), p) →
  calculate_invoice_totals invoice InvoiceConfig_init !! "total_discount"
  = Some (InvoiceState.discount_amount state).
Proof.
  unfold InvoicePreparation_prepare. cbv zeta.
  destruct (totals_lookup invoice InvoiceConfig_init)
    as (_ & Hhv & Hpd & Htd & _ & Htax & _).
  rewrite Htax, Hhv, Hpd. simpl. by intros [= <- _].
Qed.

(** The chain as wired: whatever the invoice, the tax processor hands
    the discount requester a state with a discount of 480.0, and the
    requester asks for its confirmation. *)
Lemma resumed_run_requests_discount fuel rid ctx invoice p
    (response : TaxConfirmationRequest.t) :
  ∃ rs1 steps1 rs2,
    let v := VStr (invoice_id invoice) in
    let state1 :=
      InvoiceState.mk v 6000.0 0.10 (TaxConfirmationRequest.current_value response)
                      0.08 480.0 true false "tax_processed" in
    let request :=
      DiscountConfirmationRequest.mk v ("Apply discount to " +:+ str v +:+ "?") 480.0
                                     "Type 'yes' to apply or 'no' to skip" in
    engine.run workflow None (6 + fuel) preparer rid ctx (PInvoiceData invoice) p
      = (inr (rs1, steps1), p) ∧
    engine.run_status rs1 = engine.Paused ∧
    engine.awaiting rs1 = Some (1, [tax_processor]) ∧
    engine.resume workflow (6 + fuel) {[rid := rs1]} rid
      (engine.mkResponse 1 (PTaxConfirmationRequest response)) p
      = (inr (inr [engine.Invoked tax_processor (PTaxConfirmationRequest response);
                   engine.Emitted tax_processor (PInvoiceState state1);
                   engine.Invoked discount_requester (PInvoiceState state1);
                   engine.Emitted discount_requester (PDiscountConfirmationRequest request)],
              <[rid := rs2]> {[rid := rs1]}), p) ∧
    engine.run_status rs2 = engine.Paused ∧
    engine.awaiting rs2 = Some (3, [discount_processor]).
Proof.
  destruct (run_to_tax_request rid ctx invoice p)
    as (state0 & ctx2 & Hid & Hshared2 & Hpause1 & _).
  destruct (run_to_discount_request rid ctx2 (VStr (invoice_id invoice)) response p
              Hshared2) as (ctx4 & Hshared4 & Hpause2 & _).
  cbv zeta in *.
  eexists _, _, _. split_and!.
  - unfold engine.run. apply (Hpause1 (4 + fuel)).
  - reflexivity.
  - reflexivity.
  - erewrite resume_correlated;
      [|apply lookup_singleton_eq|reflexivity|reflexivity|reflexivity].
    cbn [engine.run_id engine.next_seq engine.shared engine.pending engine.payload
         fmap list_fmap app].
    change (6 + fuel) with (2 + (4 + fuel)). rewrite (Hpause2 (4 + fuel)). reflexivity.
  - reflexivity.
  - reflexivity.
Qed.


End interactive_facts.

(** ** invoice_utils: reading the CSV *)

Section csv_facts.
Context `{rt : !Runtime, inst : !Installation}.

Lemma InvoiceData_of_row_result row :
  match InvoiceData_of_row row with
  | inr inv => csv_row.parsed row inv
  | inl e => csv_row.unreadable row e
  end.
Proof.
  unfold InvoiceData_of_row, index, str_as_int, str_as_float.
  unfold mbind, result_bind, mret, result_ret.
  destruct (row !! "invoice_id") as [c1|] eqn:H1;
    [|left; exists "invoice_id"; split_and!; [done|done|set_solver]].
  destruct (row !! "client_name") as [c2|] eqn:H2;
    [|left; exists "client_name"; split_and!; [done|done|set_solver]].
  destruct (row !! "client_email") as [c3|] eqn:H3;
    [|left; exists "client_email"; split_and!; [done|done|set_solver]].
  destruct (row !! "is_preferred") as [c4|] eqn:H4;
    [|left; exists "is_preferred"; split_and!; [done|done|set_solver]].
  destruct (row !! "item_description") as [c5|] eqn:H5;
    [|left; exists "item_description"; split_and!; [done|done|set_solver]].
  destruct (row !! "quantity") as [c6|] eqn:H6;
    [|left; exists "quantity"; split_and!; [done|done|set_solver]].
  destruct (int_of_str c6) as [q|] eqn:Hq; [|right; split; [done|left; eauto]].
  destruct (row !! "unit_price") as [c7|] eqn:H7;
    [|left; exists "unit_price"; split_and!; [done|done|set_solver]].
  destruct (float_of_str c7) as [u|] eqn:Hu; [|right; split; [done|right; eauto]].
  destruct (row !! "date") as [c8|] eqn:H8;
    [|left; exists "date"; split_and!; [done|done|set_solver]].
  unfold csv_row.parsed. simpl. split_and!; eauto.
Qed.

Lemma read_rows_result rows :
  match read_rows rows with
  | inr invoices => Forall2 csv_row.parsed rows invoices
  | inl e =>
      ∃ before invoices row after,
        rows = (before ++ row :: after)%list ∧
        read_rows before = inr invoices ∧ csv_row.unreadable row e
  end.
Proof.
  induction rows as [|row rows IH]; simpl; [by constructor|].
  unfold mbind, result_bind, mret, result_ret.
  pose proof (InvoiceData_of_row_result row) as Hrow.
  destruct (InvoiceData_of_row row) as [e|inv] eqn:Hinv.
  { by exists [], [], row, rows. }
  destruct (read_rows rows) as [e|invoices].
  - destruct IH as (before & invoices & row' & after & -> & Hbefore & Hbad).
    exists (row :: before), (inv :: invoices), row', after.
    split_and!; [done| |done]. simpl. unfold mbind, result_bind, mret, result_ret.
    by rewrite Hinv, Hbefore.
  - by constructor.
Qed.

(** X19. [read_invoices_csv] reads all rows or none: it returns one
    invoice per row of the file, in order, each holding the cells of its
    row (the quantity and the unit price as [int] and [float] parse them,
    is_preferred true exactly for a cell that is 'true' in lower case);
    or it raises at the first row that cannot be read, with the KeyError
    of a column the header lacks or the ValueError of a quantity or unit
    price that does not parse.  A quantity however large is read without
    an exception: it is the menu's listing that fails on it. *)
Theorem read_invoices_csv_reads_every_row csv_path :
  match read_invoices_csv csv_path with
  | inr invoices =>
      Forall2 csv_row.parsed (DictReader csv_path) invoices ∧
      length invoices = length (DictReader csv_path)
  | inl e =>
      e ≠ OverflowError ∧
      ∃ before invoices row after,
        DictReader csv_path = (before ++ row :: after)%list ∧
        Forall2 csv_row.parsed before invoices ∧ csv_row.unreadable row e
  end.
Proof.
  unfold read_invoices_csv.
  pose proof (read_rows_result (DictReader csv_path)) as Hrows.
  destruct (read_rows (DictReader csv_path)) as [e|invoices].
  - destruct Hrows as (before & invoices & row & after & Hrows & Hbefore & Hbad).
    split.
    { destruct Hbad as [(key & -> & _)|[-> _]]; done. }
    exists before, invoices, row, after. split_and!; [done| |done].
    pose proof (read_rows_result before) as Hres. by rewrite Hbefore in Hres.
  - split; [done|]. symmetry. by eapply Forall2_length.
Qed.

End csv_facts.

(** ** The menu and the selection *)

Section menu_facts.
Context `{rt : !Runtime, inst : !Installation}.


(** The listing stops at the first row whose quantity does not convert. *)
Lemma list_invoices_result invoices :
  match sequential_workflow.list_invoices invoices with
  | inr _ => Forall menu.listable invoices
  | inl e =>
      e = OverflowError ∧
      ∃ before inv after,
        invoices = (before ++ inv :: after)%list ∧ Forall menu.listable before ∧
        InvoiceData_subtotal inv = inl OverflowError
  end.
Proof.
  induction invoices as [|inv invoices IH]; simpl; [done|].
  unfold mbind, result_bind.
  destruct (InvoiceData_subtotal_result inv) as [Hinv|Hinv].
  - rewrite Hinv.
    destruct (sequential_workflow.list_invoices invoices) as [e|u].
    + destruct IH as (-> & before & inv' & after & -> & Hbefore & Hinv').
      split; [done|]. exists (inv :: before), inv', after.
      split_and!; [done|by constructor|done].
    + by constructor.
  - rewrite Hinv. split; [done|]. by exists [], inv, invoices.
Qed.






Lemma show_menu_listable invoices p selected p' :
  sequential_workflow.show_menu invoices p = (inr selected, p') →
  Forall menu.listable invoices.
Proof.
  intros [Hlist _]%show_menu_inr.
  pose proof (list_invoices_result invoices) as Hres. by rewrite Hlist in Hres.
Qed.


(** X20. The invoice a selecting handler hands on has been listed by
    the menu, which evaluated its [subtotal]: for the invoice that
    [read_invoice_data], [Dispatcher.dispatch] or
    [InvoiceLoader.load_and_analyze] sends, evaluating the property
    again gives the same float, and [calculate_invoice_totals] on it
    returns its dictionary under every configuration; no handler after
    the menu meets the OverflowError of a quantity too large for a
    float. *)
Theorem selected_invoice_has_its_totals :
  let computable (invoice : InvoiceData) :=
    InvoiceData_subtotal invoice = inr (subtotal invoice) ∧
    ∀ config, raising.calculate_invoice_totals invoice config
              = inr (calculate_invoice_totals invoice config) in
  (∀ config p msg p',
     sequential_workflow.read_invoice_data config p = (inr msg, p') → computable msg.2) ∧
  (∀ start_signal p data p',
     concurrent_workflow.Dispatcher_dispatch start_signal p = (inr data, p') →
     computable (concurrent_workflow.InvoiceWithConfig.invoice data)) ∧
  (∀ start_signal p decision p',
     branching_workflow.InvoiceLoader_load_and_analyze start_signal p = (inr decision, p') →
     computable (branching_workflow.InvoiceDecision.invoice decision)).
Proof.
  intros computable.
  assert (Hlisted : ∀ invoices invoice,
            Forall menu.listable invoices → invoice ∈ invoices → computable invoice).
  { intros invoices invoice Hall Hin.
    assert (menu.listable invoice) as Hinv by (by eapply Forall_forall).
    split; [done|]. intros config. by apply raising_totals_listable. }
  split_and!.
  - intros config p msg p' Hrun.
    unfold sequential_workflow.read_invoice_data in Hrun. cbv zeta in Hrun.
    io_step Hrun as invoices p0 E0. apply lift_inr in E0 as [_ ->].
    io_step Hrun as selected p1 E1. apply show_menu_listable in E1.
    io_step Hrun as u2 p2 E2. clear E2.
    io_step Hrun as inv p3 E3. apply next_selected_inv in E3 as (_ & _ & Hin).
    io_step Hrun as q4 p4 E4. io_step Hrun as u5 p5 E5. io_step Hrun as u6 p6 E6.
    injection Hrun as <- _. by eapply Hlisted.
  - intros start_signal p data p' Hrun.
    unfold concurrent_workflow.Dispatcher_dispatch in Hrun. cbv zeta in Hrun.
    io_step Hrun as invoices p0 E0. apply lift_inr in E0 as [_ ->].
    io_step Hrun as selected p1 E1. apply show_menu_listable in E1.
    io_step Hrun as u2 p2 E2. clear E2.
    io_step Hrun as inv p3 E3. apply next_selected_inv in E3 as (_ & _ & Hin).
    io_step Hrun as q4 p4 E4. io_step Hrun as u5 p5 E5. io_step Hrun as u6 p6 E6.
    injection Hrun as <- _. by eapply Hlisted.
  - intros start_signal p decision p' Hrun.
    unfold branching_workflow.InvoiceLoader_load_and_analyze in Hrun. cbv zeta in Hrun.
    io_step Hrun as invoices p0 E0. apply lift_inr in E0 as [_ ->].
    io_step Hrun as selected p1 E1. apply show_menu_listable in E1.
    io_step Hrun as u2 p2 E2. clear E2.
    io_step Hrun as inv p3 E3. apply next_selected_inv in E3 as (_ & _ & Hin).
    io_step Hrun as d4 p4 E4. destruct d4 as [decision_type reason].
    io_step Hrun as q5 p5 E5. io_step Hrun as u6 p6 E6. io_step Hrun as u7 p7 E7.
    injection Hrun as <- _. by eapply Hlisted.
Qed.

End menu_facts.

(** ** new_16: a whole sequential run *)

Section sequential_facts.
Context `{rt : !Runtime, inst : !Installation}.
Import sequential_workflow.

Local Abbreviation LOG := (path_join LOGS_DIR "invoice_workflow.log").










End sequential_facts.

(** ** new_18 and new_16: a saved invoice and the next analysis *)

Section saved_invoice_facts.
Context `{rt : !Runtime, inst : !Installation}.

(** X5. An invoice that was saved is archived first the next time it is
    analysed.  On a decision that carries the totals computed for its
    invoice, [InvoiceFinalizer.finalize] of the branching script completes
    without reading the console, and so does [save_invoice_step] of the
    sequential script on computed totals; in the file system they leave
    behind, [analyze_invoice_routing] answers "archive_needed" for every
    invoice with the id of the one saved, whatever its amount, its client
    and the configuration. *)
Theorem saved_invoice_is_analysed_as_archive_needed :
  (∀ saved config0 decision_type reason p,
     let decision :=
       branching_workflow.InvoiceDecision.mk
         saved config0 (calculate_invoice_totals saved config0) decision_type reason in
     ∃ output p',
       branching_workflow.InvoiceFinalizer_finalize decision p = (inr output, p') ∧
       stdin p' = stdin p ∧
       ∀ invoice config,
         invoice_id invoice = invoice_id saved →
         branching_workflow.analyze_invoice_routing invoice config p'
         = (inr ("archive_needed", "Existing file found - needs archiving"), p')) ∧
  (∀ saved config0 invoice_text p,
     ∃ output p',
       sequential_workflow.save_invoice_step
         (saved, calculate_invoice_totals saved config0, invoice_text) p
         = (inr output, p') ∧
       stdin p' = stdin p ∧
       ∀ invoice config,
         invoice_id invoice = invoice_id saved →
         branching_workflow.analyze_invoice_routing invoice config p'
         = (inr ("archive_needed", "Existing file found - needs archiving"), p')).
Proof.
  split.
  - intros saved config0 decision_type reason [ls fs tm g] decision.
    unfold branching_workflow.InvoiceFinalizer_finalize, save_invoice_file. cbv zeta.
    io_unfold. simpl. do 2 eexists. split_and!; [reflexivity|done|].
    intros invoice config Hid.
    unfold branching_workflow.analyze_invoice_routing. io_unfold. simpl.
    rewrite Hid, bool_decide_eq_true_2; [done|]. set_solver.
  - intros saved config0 invoice_text [ls fs tm g].
    unfold sequential_workflow.save_invoice_step, save_invoice_file.
    io_unfold. simpl. do 2 eexists. split_and!; [reflexivity|done|].
    intros invoice config Hid.
    unfold branching_workflow.analyze_invoice_routing. io_unfold. simpl.
    rewrite Hid, bool_decide_eq_true_2; [done|].
    change sequential_workflow.OUTPUT_DIR with branching_workflow.OUTPUT_DIR. set_solver.
Qed.

End saved_invoice_facts.

(** ** new_19: what the handlers compute *)

Section interactive_handler_facts.
Context `{rt : !Runtime, inst : !Installation}.
Import interactive_checkpointing.

(** X6. [InvoicePreparation.prepare] never fails: the key 'tax' it indexes
    is always in the totals and the defaults of its two [get] calls are
    never used.  The state it returns agrees with
    [calculate_invoice_totals] under [InvoiceConfig()]: its discount
    amount is the entry 'total_discount', its tax amount the entry 'tax',
    which is (subtotal - discount) * tax_rate; the discount rate is
    discount / subtotal for a positive subtotal and 0.0 otherwise; nothing
    is confirmed yet; and the shared state holds the invoice id. *)
Theorem prepare_state_agrees_with_totals self_id invoice_data ctx p :
  let config := InvoiceConfig_init in
  let totals := calculate_invoice_totals invoice_data config in
  ∃ state ctx',
    InvoicePreparation_prepare self_id invoice_data ctx p = (inr (state, ctx'), p) ∧
    InvoiceState.invoice_id state = VStr (invoice_id invoice_data) ∧
    InvoiceState.subtotal state = subtotal invoice_data ∧
    InvoiceState.tax_rate state = tax_rate config ∧
    totals !! "total_discount" = Some (InvoiceState.discount_amount state) ∧
    totals !! "tax" = Some (InvoiceState.tax_amount state) ∧
    InvoiceState.tax_amount state
    = ((InvoiceState.subtotal state - InvoiceState.discount_amount state)
       * tax_rate config)%float ∧
    InvoiceState.discount_rate state
    = (if (subtotal invoice_data >? 0)%float
       then (InvoiceState.discount_amount state / subtotal invoice_data)%float
       else 0.0%float) ∧
    InvoiceState.tax_confirmed state = false ∧
    InvoiceState.discount_confirmed state = false ∧
    InvoiceState.processing_stage state = "preparation" ∧
    shared_state ctx' !! "current_invoice_id" = Some (VStr (invoice_id invoice_data)) ∧
    shared_state ctx' !! "processing_stage" = Some (VStr "preparation").
Proof.
  intros config totals. unfold InvoicePreparation_prepare. cbv zeta.
  destruct (totals_lookup invoice_data InvoiceConfig_init)
    as (_ & Hhv & Hpd & Htd & _ & Htax & _).
  fold config totals in Hhv, Hpd, Htd, Htax |- *.
  rewrite Htax, Hhv, Hpd. simpl.
  do 2 eexists. split; [reflexivity|]. simpl.
  split_and!; try done.
  all: unfold set_shared_state, set_state; simpl; by simplify_map_eq.
Qed.

(** X7. The amounts of the selected invoice do not reach the final total.
    Whatever the discount processor is answered, and whatever state was
    prepared, the state it sends has subtotal 6000.0 and tax 600.0, and the
    finalizer that receives it stores 6000.0 + 600.0 - current_value as
    'final_total', marks the stage completed and creates
    output/<id>_final.txt for the id found in the shared state ("INV-001"
    when there is none).  Along the chain tax processor, discount
    requester, discount processor, finalizer, with the request itself as
    the answer, the final total is 6120.0 for every invoice and every tax
    answer. *)
Theorem final_total_ignores_invoice_amounts :
  (∀ self_id self_id' (response : DiscountConfirmationRequest.t) ctx p,
     ∃ state ctx1 output ctx2 p',
       DiscountConfirmationProcessor_process_discount_response self_id response ctx p
         = (inr (state, ctx1), p) ∧
       InvoiceState.subtotal state = 6000.0%float ∧
       InvoiceState.tax_amount state = 600.0%float ∧
       InvoiceFinalizer_finalize self_id' state ctx1 p = (inr (output, ctx2), p') ∧
       shared_state ctx2 !! "final_total"
         = Some (VFloat (6000.0 + 600.0
                         - DiscountConfirmationRequest.current_value response)%float) ∧
       shared_state ctx2 !! "processing_stage" = Some (VStr "completed") ∧
       path_join (path_join BASE_DIR "output")
         (str (get_shared_state "current_invoice_id" (VStr "INV-001") ctx) +:+ "_final.txt")
         ∈ files p') ∧
  (∀ id1 id2 id3 id4 (response : TaxConfirmationRequest.t) ctx p,
     ∃ state1 ctx1 request ctx2 state2 ctx3 output ctx4 p',
       TaxConfirmationProcessor_process_tax_response id1 response ctx p
         = (inr (state1, ctx1), p) ∧
       DiscountConfirmationRequester_request_discount_confirmation id2 state1 ctx1 p
         = (inr (PDiscountConfirmationRequest request, ctx2), p) ∧
       DiscountConfirmationProcessor_process_discount_response id3 request ctx2 p
         = (inr (state2, ctx3), p) ∧
       InvoiceFinalizer_finalize id4 state2 ctx3 p = (inr (output, ctx4), p') ∧
       shared_state ctx4 !! "final_total" = Some (VFloat 6120.0%float)).
Proof.
  split.
  - intros self_id self_id' response ctx [ls fs tm g].
    unfold DiscountConfirmationProcessor_process_discount_response,
      InvoiceFinalizer_finalize. cbv zeta. io_unfold. simpl.
    do 5 eexists. split_and!; try reflexivity.
    + unfold set_shared_state, set_state. simpl. by simplify_map_eq.
    + unfold set_shared_state, set_state. simpl. by simplify_map_eq.
    + set_solver.
  - intros id1 id2 id3 id4 response ctx [ls fs tm g].
    unfold TaxConfirmationProcessor_process_tax_response,
      DiscountConfirmationRequester_request_discount_confirmation,
      DiscountConfirmationProcessor_process_discount_response,
      InvoiceFinalizer_finalize. cbv zeta. io_unfold. simpl.
    change (480.0 >? 0)%float with true. cbv iota.
    do 9 eexists. split_and!; try reflexivity.
    unfold set_shared_state, set_state. simpl. by simplify_map_eq.
Qed.

End interactive_handler_facts.

(** ** invoice_utils: the text of an invoice *)

Section rendering_facts.
Context `{rt : !Runtime, fmt : !invoice_text.Formatting}.
Import invoice_text.

Lemma render_invoice_text_keys invoice totals config :
  match render_invoice_text invoice totals config with
  | inr text => True
  | inl e => ∃ key, e = KeyError key ∧ totals !! key = None
  end.
Proof.
  unfold render_invoice_text, index, mbind, result_bind, mret, result_ret.
  repeat match goal with
         | |- context [totals !! ?k] =>
             destruct (totals !! k) eqn:?; [|by exists k]
         | |- context [if ?b then _ else _] => destruct b
         end; done.
Qed.

Lemma render_invoice_text_of_computed_totals invoice config config' :
  ∃ text,
    render_invoice_text invoice (calculate_invoice_totals invoice config) config'
    = inr text.
Proof.
  destruct (totals_lookup invoice config) as (Hst & Hhv & Hpd & Htd & Haad & Htx & Htot).
  cbv zeta in *.
  unfold render_invoice_text, index, mbind, result_bind, mret, result_ret.
  rewrite Hst, Hhv, Hpd, Htd, Htx, Htot.
  destruct (_ >? 0)%float; [rewrite Haad|]; by eexists.
Qed.

(** X8. [render_invoice_text] returns a text exactly when [totals] holds
    the six keys it always reads and, for a positive total discount, the
    key 'amount_after_discount' as well; otherwise it raises KeyError for
    a key that is missing, and 'amount_after_discount' is only asked for
    when the total discount is positive.  On the dictionary
    [calculate_invoice_totals] returns it never fails, under any
    configuration. *)
Theorem render_invoice_text_fails_only_on_missing_key :
  (∀ invoice totals config,
     match render_invoice_text invoice totals config with
     | inr text =>
         (∀ key, key ∈ ["subtotal"; "high_value_discount"; "preferred_discount";
                        "total_discount"; "tax"; "total"] →
                 is_Some (totals !! key)) ∧
         (∀ total_discount,
            totals !! "total_discount" = Some total_discount →
            (total_discount >? 0)%float = true →
            is_Some (totals !! "amount_after_discount"))
     | inl e =>
         ∃ key,
           e = KeyError key ∧ totals !! key = None ∧
           (key ∈ ["subtotal"; "high_value_discount"; "preferred_discount";
                   "total_discount"; "tax"; "total"]
            ∨ key = "amount_after_discount" ∧
              ∃ total_discount,
                totals !! "total_discount" = Some total_discount ∧
                (total_discount >? 0)%float = true)
     end) ∧
  (∀ invoice config config',
     ∃ text,
       render_invoice_text invoice (calculate_invoice_totals invoice config) config'
       = inr text).
Proof.
  split.
  - intros invoice totals config.
    unfold render_invoice_text, index, mbind, result_bind, mret, result_ret.
    destruct (totals !! "subtotal") as [st|] eqn:Hst;
      [|exists "subtotal"; split_and!; [done|done|left; set_solver]].
    destruct (totals !! "high_value_discount") as [hv|] eqn:Hhv;
      [|exists "high_value_discount"; split_and!; [done|done|left; set_solver]].
    destruct (totals !! "preferred_discount") as [pd|] eqn:Hpd;
      [|exists "preferred_discount"; split_and!; [done|done|left; set_solver]].
    destruct (totals !! "total_discount") as [td|] eqn:Htd;
      [|exists "total_discount"; split_and!; [done|done|left; set_solver]].
    assert (Hkeys : ∀ tx tot, totals !! "tax" = Some tx → totals !! "total" = Some tot →
              ∀ key, key ∈ ["subtotal"; "high_value_discount"; "preferred_discount";
                            "total_discount"; "tax"; "total"] → is_Some (totals !! key)).
    { intros tx tot Htx Htot key Hkey.
      repeat (apply elem_of_cons in Hkey as [->|Hkey]; [by eexists|]).
      by apply elem_of_nil in Hkey. }
    destruct (td >? 0)%float eqn:Hpos.
    + destruct (totals !! "amount_after_discount") as [aad|] eqn:Haad;
        [|exists "amount_after_discount"; split_and!; [done|done|right; eauto]].
      destruct (totals !! "tax") as [tx|] eqn:Htx;
        [|exists "tax"; split_and!; [done|done|left; set_solver]].
      destruct (totals !! "total") as [tot|] eqn:Htot;
        [|exists "total"; split_and!; [done|done|left; set_solver]].
      split; [by eapply Hkeys|]. intros ? _ _. by eexists.
    + destruct (totals !! "tax") as [tx|] eqn:Htx;
        [|exists "tax"; split_and!; [done|done|left; set_solver]].
      destruct (totals !! "total") as [tot|] eqn:Htot;
        [|exists "total"; split_and!; [done|done|left; set_solver]].
      split; [by eapply Hkeys|]. intros ? [= <-]. by rewrite Hpos.
  - intros invoice config config'. apply render_invoice_text_of_computed_totals.
Qed.

End rendering_facts.

(** ** new_17: the parallel tasks and the renderer *)

Section concurrent_task_facts.
Context `{rt : !Runtime, inst : !Installation, fmt : !invoice_text.Formatting}.
Import concurrent_workflow invoice_text concurrent_tasks.

Lemma prepare_lookup data :
  let invoice := InvoiceWithConfig.invoice data in
  let d := ClientResult.client_info (ClientInfoPreparer_prepare data) in
  d !! "name" = Some (VStr (client_name invoice)) ∧
  d !! "email" = Some (VStr (client_email invoice)) ∧
  d !! "is_preferred" = Some (VBool (is_preferred invoice)) ∧
  d !! "status" = Some (VStr (if is_preferred invoice then "VIP" else "Standard")) ∧
  d !! "greeting" = Some (VStr ("Dear " +:+ client_name invoice +:+ ",")) ∧
  d !! "account_manager"
    = Some (VStr ("AM-" +:+ str_upper (str_prefix 3 (client_name invoice)))) ∧
  d !! "last_order_date"
    = Some (VStr (if is_preferred invoice then "2024-12-01" else "2024-11-15")).
Proof.
  cbv zeta. unfold ClientInfoPreparer_prepare. cbn [ClientResult.client_info].
  repeat split; by simplify_map_eq.
Qed.

Lemma check_credit_lookup data :
  let invoice := InvoiceWithConfig.invoice data in
  let amount := subtotal invoice in
  let d := CreditResult.credit_check (CreditChecker_check_credit data) in
  ∃ score limit risk,
    (score, limit, risk)
    = (if is_preferred invoice then (850, 50000, "LOW")
       else if (amount >? float_of_int 5000)%float then (720, 25000, "MEDIUM")
            else (650, 10000, "MEDIUM"))%Z ∧
    d !! "credit_score" = Some (VInt score) ∧
    d !! "credit_limit" = Some (VInt limit) ∧
    d !! "risk_level" = Some (VStr risk) ∧
    d !! "approved" = Some (VBool (amount <=? float_of_int limit)%float) ∧
    d !! "invoice_amount" = Some (VFloat amount) ∧
    d !! "available_credit"
      = Some (if (amount <=? float_of_int limit)%float
              then VFloat (float_of_int limit - amount)%float else VInt 0) ∧
    d !! "check_timestamp" = Some (VStr "2024-12-09T10:30:00Z").
Proof.
  cbv zeta. unfold CreditChecker_check_credit. cbv zeta.
  destruct (is_preferred (InvoiceWithConfig.invoice data));
    [|destruct (_ >? _)%float];
    cbn [CreditResult.credit_check]; do 3 eexists; (split; [reflexivity|]);
    repeat split; by simplify_map_eq.
Qed.

Lemma client_info_text_of_prepare data :
  ∃ text, client_info_text (ClientResult.client_info (ClientInfoPreparer_prepare data))
          = inr text.
Proof.
  destruct (prepare_lookup data) as (Hn & He & _ & Hs & _ & Ha & Hl). cbv zeta in *.
  unfold client_info_text, item, mbind, exception_bind.
  rewrite Hn, He, Hs, Ha, Hl. by eexists.
Qed.

Lemma credit_info_of_check_credit data :
  ∃ text, credit_info (CreditResult.credit_check (CreditChecker_check_credit data))
          = inr text.
Proof.
  destruct (check_credit_lookup data)
    as (score & limit & risk & Hcase & Hs & Hl & Hr & Ha & Hi & Hav & Ht).
  cbv zeta in *.
  unfold credit_info, item, dollars, mbind, exception_bind.
  rewrite Hs, Hl, Hr, Ha, Hi, Hav, Ht.
  assert (PrimFloat.is_infinity (float_of_int limit) = false) as Hlimit.
  { destruct (is_preferred _); [|destruct (_ >? _)%float];
      injection Hcase as _ -> _; reflexivity. }
  cbn [as_float]. rewrite Hlimit.
  destruct (_ <=? _)%float; cbn [as_float];
    try change (PrimFloat.is_infinity (float_of_int 0)) with false; cbv iota;
    by eexists.
Qed.

(** X9. The renderer finds every key it reads in what the three parallel
    tasks produce.  On the merged result of [TotalsCalculator.calculate],
    [ClientInfoPreparer.prepare] and [CreditChecker.check_credit] for the
    same dispatched data, [InvoiceRenderer.render] raises nothing: it
    yields the summary that names the invoice, without reading the
    console, and the invoice file exists afterwards. *)
Theorem renderer_accepts_the_results_of_the_tasks data p :
  let invoice := InvoiceWithConfig.invoice data in
  let merged :=
    MergedResult.mk invoice (InvoiceWithConfig.config data)
      (TotalsResult.totals (TotalsCalculator_calculate data))
      (ClientResult.client_info (ClientInfoPreparer_prepare data))
      (CreditResult.credit_check (CreditChecker_check_credit data)) in
  ∃ p',
    InvoiceRenderer_render merged p
    = (inr (inr ("Concurrent workflow completed! Invoice " +:+ invoice_id invoice
                 +:+ " processed with 3 parallel tasks.")), p') ∧
    stdin p' = stdin p ∧
    files p ⊆ files p' ∧
    path_join OUTPUT_DIR (invoice_id invoice +:+ ".txt") ∈ files p'.
Proof.
  intros invoice merged. unfold InvoiceRenderer_render, full_invoice_text.
  subst merged. cbn [MergedResult.invoice MergedResult.totals MergedResult.config
                     MergedResult.credit_check MergedResult.client_info].
  unfold TotalsCalculator_calculate. cbn [TotalsResult.totals].
  destruct (render_invoice_text_of_computed_totals invoice (InvoiceWithConfig.config data)
              (InvoiceWithConfig.config data)) as [text Htext].
  fold invoice. rewrite Htext.
  destruct (credit_info_of_check_credit data) as [credit ->].
  destruct (client_info_text_of_prepare data) as [client ->].
  unfold mbind at 2 3 4, exception_bind, mret, exception_ret.
  destruct p as [ls fs tm g]. unfold save_invoice_file. io_unfold. simpl.
  eexists. split_and!; [reflexivity|done|set_solver|set_solver].
Qed.

(** What the two blocks of the renderer need. *)
Lemma credit_info_result (d : gmap string value) :
  match credit_info d with
  | inr text =>
      (∀ key, key ∈ ["approved"; "credit_score"; "credit_limit"; "risk_level";
                     "invoice_amount"; "available_credit"; "check_timestamp"] →
              is_Some (d !! key)) ∧
      (∀ key v, key ∈ ["credit_limit"; "invoice_amount"; "available_credit"] →
                d !! key = Some v → ∃ x, as_float v = inr x)
  | inl e =>
      (∃ key, e = Raised (KeyError key) ∧ d !! key = None ∧
              key ∈ ["approved"; "credit_score"; "credit_limit"; "risk_level";
                     "invoice_amount"; "available_credit"; "check_timestamp"]) ∨
      (∃ key v, key ∈ ["credit_limit"; "invoice_amount"; "available_credit"] ∧
                d !! key = Some v ∧ as_float v = inl e)
  end.
Proof.
  unfold credit_info, item, dollars, mbind, exception_bind, mret, exception_ret.
  destruct (d !! "approved") as [approved|] eqn:H1;
    [|left; exists "approved"; split_and!; [done|done|set_solver]].
  destruct (d !! "credit_score") as [score|] eqn:H2;
    [|left; exists "credit_score"; split_and!; [done|done|set_solver]].
  destruct (d !! "credit_limit") as [limit|] eqn:H3;
    [|left; exists "credit_limit"; split_and!; [done|done|set_solver]].
  destruct (as_float limit) as [e|x3] eqn:F3;
    [right; exists "credit_limit", limit; split_and!; [set_solver|done|done]|].
  destruct (d !! "risk_level") as [risk|] eqn:H4;
    [|left; exists "risk_level"; split_and!; [done|done|set_solver]].
  destruct (d !! "invoice_amount") as [amount|] eqn:H5;
    [|left; exists "invoice_amount"; split_and!; [done|done|set_solver]].
  destruct (as_float amount) as [e|x5] eqn:F5;
    [right; exists "invoice_amount", amount; split_and!; [set_solver|done|done]|].
  destruct (d !! "available_credit") as [available|] eqn:H6;
    [|left; exists "available_credit"; split_and!; [done|done|set_solver]].
  destruct (as_float available) as [e|x6] eqn:F6;
    [right; exists "available_credit", available; split_and!; [set_solver|done|done]|].
  destruct (d !! "check_timestamp") as [timestamp|] eqn:H7;
    [|left; exists "check_timestamp"; split_and!; [done|done|set_solver]].
  split.
  - intros key Hkey.
    repeat (apply elem_of_cons in Hkey as [->|Hkey]; [by eexists|]).
    by apply elem_of_nil in Hkey.
  - intros key v Hkey Hv.
    repeat (apply elem_of_cons in Hkey as [->|Hkey]; [simplify_eq; by eexists|]).
    by apply elem_of_nil in Hkey.
Qed.

Lemma client_info_text_result (d : gmap string value) :
  match client_info_text d with
  | inr text =>
      ∀ key, key ∈ ["name"; "email"; "status"; "account_manager"; "last_order_date"] →
             is_Some (d !! key)
  | inl e =>
      ∃ key, e = Raised (KeyError key) ∧ d !! key = None ∧
             key ∈ ["name"; "email"; "status"; "account_manager"; "last_order_date"]
  end.
Proof.
  unfold client_info_text, item, mbind, exception_bind, mret, exception_ret.
  destruct (d !! "name") as [name|] eqn:H1;
    [|exists "name"; split_and!; [done|done|set_solver]].
  destruct (d !! "email") as [email|] eqn:H2;
    [|exists "email"; split_and!; [done|done|set_solver]].
  destruct (d !! "status") as [status|] eqn:H3;
    [|exists "status"; split_and!; [done|done|set_solver]].
  destruct (d !! "account_manager") as [manager|] eqn:H4;
    [|exists "account_manager"; split_and!; [done|done|set_solver]].
  destruct (d !! "last_order_date") as [last|] eqn:H5;
    [|exists "last_order_date"; split_and!; [done|done|set_solver]].
  intros key Hkey.
  repeat (apply elem_of_cons in Hkey as [->|Hkey]; [by eexists|]).
  by apply elem_of_nil in Hkey.
Qed.

(** X10. How [InvoiceRenderer.render] ends on an arbitrary merged result.
    It yields its summary, with the invoice file written, only when the
    credit check holds its seven keys with amounts that can be formatted
    and the client info the five keys that are read.  Otherwise the
    exception leaves the handler while the text is being built: only the
    two directories have been made, no invoice file has been written and
    nothing logged; the exception is a KeyError for a key that is missing
    from the totals, the credit check or the client info, or the
    ValueError or OverflowError of an amount of the credit check that is a
    string or an [int] too large for a float. *)
Theorem renderer_fails_before_saving data p :
  let credit_check := MergedResult.credit_check data in
  let client_info := MergedResult.client_info data in
  match InvoiceRenderer_render data p with
  | (inr (inr output), p') =>
      output = "Concurrent workflow completed! Invoice "
               +:+ invoice_id (MergedResult.invoice data)
               +:+ " processed with 3 parallel tasks." ∧
      path_join OUTPUT_DIR (invoice_id (MergedResult.invoice data) +:+ ".txt") ∈ files p' ∧
      (∀ key, key ∈ ["approved"; "credit_score"; "credit_limit"; "risk_level";
                     "invoice_amount"; "available_credit"; "check_timestamp"] →
              is_Some (credit_check !! key)) ∧
      (∀ key v, key ∈ ["credit_limit"; "invoice_amount"; "available_credit"] →
                credit_check !! key = Some v → ∃ x, as_float v = inr x) ∧
      (∀ key, key ∈ ["name"; "email"; "status"; "account_manager"; "last_order_date"] →
              is_Some (client_info !! key))
  | (inr (inl e), p') =>
      p' = with_files ({[LOGS_DIR]} ∪ ({[OUTPUT_DIR]} ∪ files p)) p ∧
      ((∃ key, e = Raised (KeyError key) ∧
               (MergedResult.totals data !! key = None ∨ credit_check !! key = None
                ∨ client_info !! key = None)) ∨
       (∃ key v, key ∈ ["credit_limit"; "invoice_amount"; "available_credit"] ∧
                 credit_check !! key = Some v ∧ as_float v = inl e ∧
                 (e = ValueError ∨ e = OverflowError)))
  | (inl e, p') => False
  end.
Proof.
  intros credit_check client_info. subst credit_check client_info.
  unfold InvoiceRenderer_render, full_invoice_text.
  pose proof (render_invoice_text_keys (MergedResult.invoice data)
                (MergedResult.totals data) (MergedResult.config data)) as Htext.
  pose proof (credit_info_result (MergedResult.credit_check data)) as Hcredit.
  pose proof (client_info_text_result (MergedResult.client_info data)) as Hclient.
  destruct p as [ls fs tm g].
  destruct (render_invoice_text _ _ _) as [e|text].
  { destruct Htext as (key & -> & Hkey). io_unfold. simpl. split; [done|].
    left. exists key. auto. }
  unfold mbind at 3 4 5, exception_bind.
  destruct (credit_info _) as [e|credit].
  { io_unfold. simpl. split; [done|].
    destruct Hcredit as [(key & -> & Hkey & _)|(key & v & Hkey & Hv & Hfloat)].
    - left. exists key. auto.
    - right. exists key, v. split_and!; [done|done|done|].
      destruct v as [s|f|z|b]; simpl in Hfloat; simplify_eq; auto.
      destruct (PrimFloat.is_infinity _); simplify_eq. auto. }
  destruct (client_info_text _) as [e|client].
  { io_unfold. simpl. split; [done|].
    destruct Hclient as (key & -> & Hkey & _). left. exists key. auto. }
  unfold save_invoice_file. io_unfold. simpl.
  destruct Hcredit as [Hkeys Hamounts].
  split_and!; [done|set_solver|done|done|done].
Qed.

(** An amount of at most 5000 is not above 5000 and is at most 10000. *)
Lemma float_le_5000 (x : float) :
  (x <=? float_of_int 5000)%float = true →
  (x >? float_of_int 5000)%float = false ∧ (x <=? float_of_int 10000)%float = true.
Proof.
  assert (Prim2SF (float_of_int 5000) = S754_finite false 5497558138880000 (-40)) as H5
    by (vm_compute; reflexivity).
  assert (Prim2SF (float_of_int 10000) = S754_finite false 5497558138880000 (-39)) as H10
    by (vm_compute; reflexivity).
  unfold float_gt. rewrite !FloatAxioms.leb_spec, FloatAxioms.ltb_spec, H5, H10.
  clear H5 H10. generalize 5497558138880000%positive. intros m0.
  destruct (Prim2SF x) as [[]|[]| |[] m e]; try done.
  unfold SFleb, SFltb, SFcompare.
  destruct (Z.compare_spec e (-40)) as [->|He|He]; [|intros _|done].
  - rewrite Z.compare_refl, (proj2 (Z.compare_lt_iff (-40) (-39))) by lia.
    change (PosDef.Pos.compare_cont Eq) with Pos.compare.
    rewrite (Pos.compare_antisym m).
    destruct (Pos.compare m m0); done.
  - rewrite (proj2 (Z.compare_lt_iff e (-39))) by lia.
    rewrite (proj2 (Z.compare_gt_iff (-40) e)) by lia. done.
Qed.

(** X11. What [CreditChecker.check_credit] decides.  A preferred client
    gets score 850, limit 50000 and risk LOW whatever the amount; another
    client gets 720 and 25000 for an amount above 5000, and 650 and 10000
    otherwise; the check is approved exactly when the amount is at most
    the limit.  So an invoice of at most 5000 for a client that is not
    preferred is always approved, with the difference to 10000 as
    available credit; and a declined check always reports the available
    credit as the integer 0. *)
Theorem credit_check_decisions data :
  let invoice := InvoiceWithConfig.invoice data in
  let amount := subtotal invoice in
  let d := CreditResult.credit_check (CreditChecker_check_credit data) in
  let decided (score limit : Z) (risk : string) :=
    d !! "credit_score" = Some (VInt score) ∧
    d !! "credit_limit" = Some (VInt limit) ∧
    d !! "risk_level" = Some (VStr risk) ∧
    d !! "approved" = Some (VBool (amount <=? float_of_int limit)%float) in
  CreditResult.invoice_id (CreditChecker_check_credit data) = invoice_id invoice ∧
  d !! "invoice_amount" = Some (VFloat amount) ∧
  (is_preferred invoice = true → decided 850%Z 50000%Z "LOW") ∧
  (is_preferred invoice = false → (amount >? float_of_int 5000)%float = true →
     decided 720%Z 25000%Z "MEDIUM") ∧
  (is_preferred invoice = false → (amount <=? float_of_int 5000)%float = true →
     decided 650%Z 10000%Z "MEDIUM" ∧
     d !! "approved" = Some (VBool true) ∧
     d !! "available_credit" = Some (VFloat (float_of_int 10000 - amount)%float)) ∧
  (d !! "approved" = Some (VBool false) → d !! "available_credit" = Some (VInt 0)).
Proof.
  intros invoice amount d decided.
  destruct (check_credit_lookup data)
    as (score & limit & risk & Hcase & Hs & Hl & Hr & Ha & Hi & Hav & Ht).
  cbv zeta in *. fold invoice amount d in Hcase, Hs, Hl, Hr, Ha, Hi, Hav, Ht.
  split_and!.
  - unfold CreditChecker_check_credit. cbv zeta.
    destruct (is_preferred _); [|destruct (_ >? _)%float]; done.
  - done.
  - intros Hpref. rewrite Hpref in Hcase. by injection Hcase as -> -> ->.
  - intros Hpref Habove. rewrite Hpref, Habove in Hcase. by injection Hcase as -> -> ->.
  - intros Hpref Hle. apply float_le_5000 in Hle as [Hnot Hle].
    rewrite Hpref, Hnot in Hcase. injection Hcase as -> -> ->.
    rewrite Hle in Ha, Hav. unfold decided. rewrite Hle. done.
  - intros Hdeclined. rewrite Ha in Hdeclined. injection Hdeclined as Hdeclined.
    by rewrite Hdeclined in Hav.
Qed.

End concurrent_task_facts.

(** ** new_20: the menu of patterns and the handlers of the patterns *)

Section visualization_facts.
Context `{rt : !Runtime, inst : !Installation, fmt : !invoice_text.Formatting}.
Import invoice_text visualization_workflow.

Lemma split_on_nonempty sep s : split_on sep s ≠ [].
Proof.
  destruct s as [|c s]; simpl; [done|].
  destruct (Ascii.eqb c sep); [done|]. by destruct (split_on sep s).
Qed.

Lemma collect_patterns_result choices acc :
  match collect_patterns choices acc with
  | Some patterns =>
      ∃ collected,
        patterns = (acc ++ collected)%list ∧
        Forall2 (λ c pattern,
                   (c = "1" ∧ pattern = "sequential") ∨
                   (c = "2" ∧ pattern = "parallel") ∨
                   (c = "3" ∧ pattern = "branching")) choices collected
  | None => ∃ c, c ∈ choices ∧ c ≠ "1" ∧ c ≠ "2" ∧ c ≠ "3"
  end.
Proof.
  revert acc. induction choices as [|c choices IH]; intros acc; simpl.
  { exists []. by rewrite app_nil_r. }
  destruct (String.eqb_spec c "1") as [->|H1];
    [|destruct (String.eqb_spec c "2") as [->|H2];
      [|destruct (String.eqb_spec c "3") as [->|H3]]].
  4: { exists c. split; [by left|done]. }
  all: match goal with
       | |- context [collect_patterns _ ?acc'] => specialize (IH acc')
       end;
    destruct (collect_patterns _ _) as [patterns|];
    [ destruct IH as (collected & -> & IH); eexists (_ :: collected);
      rewrite <- (assoc_L (++)); split; [done|]; constructor; [|done]; auto
    | destruct IH as (c' & Hc' & IH); exists c'; split; [by right|done] ].
Qed.

(** X12. [show_workflow_menu] reads lines until one is a selection.  A
    line is a selection when, stripped, it is "4", which stands for all
    three patterns, or when every piece between its commas is, stripped,
    one of "1", "2", "3"; the patterns are then those of the pieces, in
    the order typed and with repetitions kept.  A line with any other
    piece is refused as a whole, "4" among several pieces included.  The
    list returned is never empty, so the message asking for at least one
    pattern is never reached; when no line is a selection the menu ends in
    EOFError. *)
Theorem show_workflow_menu_returns_first_selection p :
  let pattern_of (c pattern : string) :=
    (c = "1" ∧ pattern = "sequential") ∨ (c = "2" ∧ pattern = "parallel") ∨
    (c = "3" ∧ pattern = "branching") in
  let pieces (line : string) := str_strip <$> split_on ","%char (str_strip line) in
  let refused (line : string) :=
    str_strip line ≠ "4" ∧ ∃ c, c ∈ pieces line ∧ c ≠ "1" ∧ c ≠ "2" ∧ c ≠ "3" in
  match show_workflow_menu p with
  | (inr patterns, p') =>
      ∃ skipped line,
        stdin p = (skipped ++ line :: stdin p')%list ∧
        Forall refused skipped ∧
        (str_strip line = "4" ∧ patterns = ["sequential"; "parallel"; "branching"]
         ∨ str_strip line ≠ "4" ∧ Forall2 pattern_of (pieces line) patterns) ∧
        patterns ≠ [] ∧
        p' = with_stdin (stdin p') p
  | (inl e, p') => e = EOFError ∧ Forall refused (stdin p) ∧ p' = with_stdin [] p
  end.
Proof.
  intros pattern_of pieces refused. unfold show_workflow_menu.
  assert (Hloop : ∀ lines,
    match show_workflow_menu_loop lines with
    | (inr patterns, rest) =>
        ∃ skipped line,
          lines = (skipped ++ line :: rest)%list ∧ Forall refused skipped ∧
          (str_strip line = "4" ∧ patterns = ["sequential"; "parallel"; "branching"]
           ∨ str_strip line ≠ "4" ∧ Forall2 pattern_of (pieces line) patterns) ∧
          patterns ≠ []
    | (inl e, rest) => e = EOFError ∧ Forall refused lines ∧ rest = []
    end).
  { induction lines as [|line lines IH]; simpl; [done|].
    destruct (String.eqb_spec (str_strip line) "4") as [H4|H4].
    { exists [], line. split_and!; [done|done|by left|done]. }
    pose proof (collect_patterns_result
                  (str_strip <$> split_on ","%char (str_strip line)) []) as Hcollect.
    assert (Hskip : ∀ r : (exn + list string) * list string,
              refused line →
              match r with
              | (inr patterns, rest) =>
                  ∃ skipped line0,
                    lines = (skipped ++ line0 :: rest)%list ∧ Forall refused skipped ∧
                    (str_strip line0 = "4"
                     ∧ patterns = ["sequential"; "parallel"; "branching"]
                     ∨ str_strip line0 ≠ "4" ∧ Forall2 pattern_of (pieces line0) patterns) ∧
                    patterns ≠ []
              | (inl e, rest) => e = EOFError ∧ Forall refused lines ∧ rest = []
              end →
              match r with
              | (inr patterns, rest) =>
                  ∃ skipped line0,
                    line :: lines = (skipped ++ line0 :: rest)%list ∧ Forall refused skipped ∧
                    (str_strip line0 = "4"
                     ∧ patterns = ["sequential"; "parallel"; "branching"]
                     ∨ str_strip line0 ≠ "4" ∧ Forall2 pattern_of (pieces line0) patterns) ∧
                    patterns ≠ []
              | (inl e, rest) => e = EOFError ∧ Forall refused (line :: lines) ∧ rest = []
              end).
    { intros [[e|patterns] rest] Href.
      - intros (-> & Hall & ->). split_and!; [done|by constructor|done].
      - intros (skipped & line0 & -> & Hall & Hsel). exists (line :: skipped), line0.
        split_and!; [done|by constructor|apply Hsel|apply Hsel]. }
    destruct (collect_patterns _ []) as [[|pattern patterns]|].
    - destruct Hcollect as (collected & Hnil & Hall).
      symmetry in Hnil. apply app_eq_nil in Hnil as [_ ->].
      apply Forall2_nil_inv_r in Hall. apply fmap_nil_inv in Hall.
      by apply split_on_nonempty in Hall.
    - destruct Hcollect as (collected & Hcollected & Hall). simpl in Hcollected. subst.
      exists [], line. split_and!; [done|done|by right|done].
    - apply Hskip; [|apply IH]. by split. }
  specialize (Hloop (stdin p)).
  destruct (show_workflow_menu_loop (stdin p)) as [[e|patterns] rest].
  - destruct Hloop as (-> & Hall & ->). done.
  - destruct Hloop as (skipped & line & Hlines & Hall & Hsel & Hne).
    exists skipped, line. simpl. split_and!; done.
Qed.









End visualization_facts.

(** ** new_16: the loop of [main] *)

Section main_facts.
Context `{rt : !Runtime, inst : !Installation}.
Import sequential_workflow sequential_main.


End main_facts.

(** ** new_19: the menu that returns the invoice *)

Section invoice_menu_facts.
Context `{rt : !Runtime}.
Import interactive_menu.


End invoice_menu_facts.

(** ** invoice_utils: saving and archiving *)

Section archive_facts.
Context `{rt : !Runtime}.

(** X17. A saved invoice is archived once.  After
    [save_invoice_file] in the output directory of the scripts,
    [archive_old_invoice] returns True: the file is gone from the output
    directory and is in the archive directory under
    <id>_<timestamp>.txt, a name no output file has.  A second call then
    returns False and changes nothing, as does every call, for any two
    directories, when the output file does not exist. *)
Theorem saved_invoice_is_archived_once (invoice_id content : string) p :
  let output_dir := branching_workflow.OUTPUT_DIR in
  let archive_dir := branching_workflow.ARCHIVE_DIR in
  let filepath := path_join output_dir (invoice_id +:+ ".txt") in
  (∃ p1 p2,
     save_invoice_file invoice_id content output_dir p = (inr filepath, p1) ∧
     archive_old_invoice invoice_id output_dir archive_dir p1 = (inr true, p2) ∧
     (filepath ∉ files p2) ∧
     path_join archive_dir (invoice_id +:+ "_" +:+ now p +:+ ".txt") ∈ files p2 ∧
     stdin p2 = stdin p ∧
     archive_old_invoice invoice_id output_dir archive_dir p2 = (inr false, p2)) ∧
  (∀ any_output_dir any_archive_dir q,
     path_join any_output_dir (invoice_id +:+ ".txt") ∉ files q →
     archive_old_invoice invoice_id any_output_dir any_archive_dir q = (inr false, q)).
Proof.
  intros output_dir archive_dir filepath.
  assert (Hmissing : ∀ any_output_dir any_archive_dir q,
            path_join any_output_dir (invoice_id +:+ ".txt") ∉ files q →
            archive_old_invoice invoice_id any_output_dir any_archive_dir q = (inr false, q)).
  { intros any_output_dir any_archive_dir [ls fs tm g] Hq.
    unfold archive_old_invoice. io_unfold. simpl in *.
    by rewrite bool_decide_eq_false_2. }
  split; [|exact Hmissing].
  destruct p as [ls fs tm g].
  assert (Hgone : filepath ∉ ({[path_join archive_dir (invoice_id +:+ "_" +:+ tm +:+ ".txt")]}
                               ∪ (({[filepath]} ∪ fs) ∖ {[filepath]}) : gset string)).
  { intros [Hin%elem_of_singleton|Hin%elem_of_difference]%elem_of_union.
    - by apply output_file_not_archived in Hin.
    - destruct Hin as [_ Hin]. apply Hin. by apply elem_of_singleton. }
  do 2 eexists. split_and!.
  - unfold save_invoice_file. io_unfold. reflexivity.
  - unfold archive_old_invoice. io_unfold. simpl.
    rewrite bool_decide_eq_true_2; [reflexivity|].
    apply elem_of_union. left. by apply elem_of_singleton.
  - exact Hgone.
  - simpl. apply elem_of_union. left. by apply elem_of_singleton.
  - done.
  - by apply Hmissing.
Qed.

End archive_facts.

(** ** new_18: processing an invoice again *)

Section reprocessing_facts.
Context `{rt : !Runtime, inst : !Installation}.
Import branching_workflow.

(** X18. Processing an invoice again keeps the old copy.  When the output
    file of the invoice exists and the console holds a line for the pause,
    [ArchiveHandler.archive_old] completes: the old file is then in the
    archive directory under <id>_<timestamp>.txt and no longer in the
    output directory, and the decision sent on is "high_value",
    "preferred" or "standard" with the totals unchanged.
    [InvoiceFinalizer.finalize] on that decision then writes the output
    file anew and names the branch in its output; afterwards both the new
    file and the archived copy exist. *)
Theorem reprocessed_invoice_keeps_old_copy invoice config decision_type reason p line rest :
  let decision :=
    InvoiceDecision.mk invoice config (calculate_invoice_totals invoice config)
                       decision_type reason in
  let output_file := path_join OUTPUT_DIR (invoice_id invoice +:+ ".txt") in
  let archived_file :=
    path_join ARCHIVE_DIR (invoice_id invoice +:+ "_" +:+ now p +:+ ".txt") in
  output_file ∈ files p →
  stdin p = line :: rest →
  ∃ decision' p1 output p2,
    ArchiveHandler_archive_old decision p = (inr decision', p1) ∧
    (output_file ∉ files p1) ∧ archived_file ∈ files p1 ∧
    InvoiceDecision.decision_type decision' ∈ ["high_value"; "preferred"; "standard"] ∧
    InvoiceDecision.invoice decision' = invoice ∧
    InvoiceDecision.totals decision' = calculate_invoice_totals invoice config ∧
    InvoiceFinalizer_finalize decision' p1 = (inr output, p2) ∧
    output = "Branching workflow completed! Invoice " +:+ invoice_id invoice
             +:+ " processed via " +:+ InvoiceDecision.decision_type decision'
             +:+ " branch." ∧
    output_file ∈ files p2 ∧ archived_file ∈ files p2 ∧ stdin p2 = rest.
Proof.
  intros decision output_file archived_file Hexists Hline.
  destruct p as [ls fs tm g]. simpl in Hexists, Hline, archived_file. subst ls.
  pose proof (output_file_not_archived (invoice_id invoice) tm) as Hnot_archived.
  pose proof (output_file_not_log (invoice_id invoice)) as Hnot_log.
  fold output_file archived_file in Hnot_archived, Hnot_log.
  set (fs1 := ({[path_join LOGS_DIR "invoice_workflow.log"]}
               ∪ ({[archived_file]} ∪ (({[ARCHIVE_DIR]} ∪ fs) ∖ {[output_file]}))
               : gset string)).
  assert (Hgone : output_file ∉ fs1).
  { unfold fs1.
    rewrite !elem_of_union, elem_of_difference, !elem_of_singleton.
    intros [?|[?|[_ ?]]]; done. }
  set (decision_type' :=
         if (subtotal invoice >=? high_value_threshold config)%float then "high_value"
         else if invoice_utils.is_preferred invoice then "preferred" else "standard").
  assert (Hrun : ∃ reason',
            ArchiveHandler_archive_old decision (mkProcess (line :: rest) fs tm g)
            = (inr (InvoiceDecision.mk invoice config (calculate_invoice_totals invoice config)
                      decision_type' reason'),
               mkProcess rest fs1 tm g)).
  { unfold ArchiveHandler_archive_old. subst decision. cbv zeta.
    cbn [InvoiceDecision.invoice InvoiceDecision.config InvoiceDecision.totals].
    unfold mbind at 1, io_bind at 1.
    assert (ensure_directories [ARCHIVE_DIR] (mkProcess (line :: rest) fs tm g)
            = (inr tt, mkProcess (line :: rest) ({[ARCHIVE_DIR]} ∪ fs) tm g)) as ->
      by reflexivity.
    unfold mbind at 1, io_bind at 1.
    assert (archive_old_invoice (invoice_id invoice) OUTPUT_DIR ARCHIVE_DIR
              (mkProcess (line :: rest) ({[ARCHIVE_DIR]} ∪ fs) tm g)
            = (inr true,
               mkProcess (line :: rest)
                 ({[archived_file]} ∪ (({[ARCHIVE_DIR]} ∪ fs) ∖ {[output_file]})) tm g)) as ->.
    { unfold archive_old_invoice. io_unfold. simpl. fold output_file.
      rewrite bool_decide_eq_true_2; [done|]. apply elem_of_union. by right. }
    unfold mbind at 1, io_bind at 1.
    assert (log_action ("Archived old invoice " +:+ invoice_id invoice) LOGS_DIR
              (mkProcess (line :: rest)
                 ({[archived_file]} ∪ (({[ARCHIVE_DIR]} ∪ fs) ∖ {[output_file]})) tm g)
            = (inr tt, mkProcess (line :: rest) fs1 tm g)) as -> by reflexivity.
    unfold mbind at 1, io_bind at 1.
    destruct (analyze_invoice_routing_result invoice config (mkProcess (line :: rest) fs1 tm g))
      as [reason' Hanalysis].
    rewrite Hanalysis. simpl files. fold output_file.
    rewrite bool_decide_eq_false_2 by done. fold decision_type'.
    exists reason'. unfold wait_for_user, sequential_workflow.wait_for_user.
    io_unfold. reflexivity. }
  destruct Hrun as [reason' Hrun].
  set (decision' := InvoiceDecision.mk invoice config (calculate_invoice_totals invoice config)
                      decision_type' reason') in *.
  set (fs2 := ({[path_join LOGS_DIR "invoice_workflow.log"]}
               ∪ ({[output_file]} ∪ ({[LOGS_DIR]} ∪ ({[OUTPUT_DIR]} ∪ fs1)))
               : gset string)).
  assert (Hfinal : InvoiceFinalizer_finalize decision' (mkProcess rest fs1 tm g)
                   = (inr ("Branching workflow completed! Invoice " +:+ invoice_id invoice
                           +:+ " processed via " +:+ decision_type' +:+ " branch."),
                      mkProcess rest fs2 tm g)).
  { unfold InvoiceFinalizer_finalize, save_invoice_file. cbv zeta. io_unfold. reflexivity. }
  exists decision', (mkProcess rest fs1 tm g).
  eexists. exists (mkProcess rest fs2 tm g).
  split; [exact Hrun|]. cbn [files stdin]. split; [exact Hgone|].
  split.
  { unfold fs1. rewrite !elem_of_union, !elem_of_singleton. auto. }
  split.
  { cbn [decision' InvoiceDecision.decision_type]. unfold decision_type'.
    destruct (_ >=? _)%float; [by left|].
    destruct (invoice_utils.is_preferred invoice); [right; by left|right; right; by left]. }
  split; [done|]. split; [done|]. split; [exact Hfinal|]. split; [done|].
  split.
  { unfold fs2. rewrite !elem_of_union, !elem_of_singleton. auto. }
  split; [|done].
  unfold fs2, fs1. rewrite !elem_of_union, !elem_of_singleton. auto 10.
Qed.

End reprocessing_facts.

(** * Part III: the programs run on a concrete installation *)

Import examples.

(** The loader run on the concrete console: INV-001 (3 x 2000.0, preferred
    client, no output file) is sent to the high-value handler only. *)
Lemma switch_case_exactly_one_edge_fires_witness :
  let decision :=
    branching_workflow.InvoiceDecision.mk inv_001 default_config
      (calculate_invoice_totals inv_001 default_config)
      "high_value" "High value ($#.##) - applying discount" in
  let p' :=
    mkProcess [""; ""; ""; ""] {["/srv/Part-3/logs/invoice_workflow.log"]}
              "20241209_103000" (Some "INV-001") in
  branching_workflow.InvoiceLoader_load_and_analyze "start" fresh_process
    = (inr decision, p') ∧
  engine.deliveries branching_workflow.loader_group decision
    = [branching_workflow.high_value_handler] ∧
  branching_workflow.preferred_handler
    ∉ engine.deliveries branching_workflow.loader_group decision.
Proof.
  intros decision p'.
  assert (Hrun : branching_workflow.InvoiceLoader_load_and_analyze "start" fresh_process
                 = (inr decision, p')) by (vm_compute; reflexivity).
  split; [exact Hrun|].
  apply (proj2 (proj2 (@switch_case_exactly_one_edge_fires runtime installation))
           fresh_process p' decision Hrun).
  - vm_compute. reflexivity.
  - reflexivity.
  - apply not_elem_of_empty.
Defined.

(** The archive handler on the console of a second run: the file the first
    run wrote is moved away and the decision becomes "high_value". *)
Lemma archive_step_never_rearchives_witness :
  let decision :=
    branching_workflow.InvoiceDecision.mk inv_001 default_config
      (calculate_invoice_totals inv_001 default_config)
      "archive_needed" "Existing file found - needs archiving" in
  let decision' :=
    branching_workflow.InvoiceDecision.mk inv_001 default_config
      (calculate_invoice_totals inv_001 default_config)
      "high_value" "High value ($#.##) - applying discount" in
  let p' :=
    mkProcess [""; ""; ""; ""; ""]
      ({["/srv/Part-3/logs/invoice_workflow.log"]}
       ∪ ({["/srv/Part-3/archive/INV-001_20241209_103000.txt"]}
          ∪ (({["/srv/Part-3/archive"]} ∪ {["/srv/Part-3/output/INV-001.txt"]})
             ∖ {["/srv/Part-3/output/INV-001.txt"]})))
      "20241209_103000" None in
  branching_workflow.ArchiveHandler_archive_old decision rerun_process
    = (inr decision', p') ∧
  ("/srv/Part-3/output/INV-001.txt" ∉ files p') ∧
  branching_workflow.InvoiceDecision.decision_type decision' ≠ "archive_needed".
Proof.
  intros decision decision' p'.
  assert (Hrun : branching_workflow.ArchiveHandler_archive_old decision rerun_process
                 = (inr decision', p')) by (vm_compute; reflexivity).
  split; [exact Hrun|].
  pose proof (proj1 (@archive_step_never_rearchives runtime installation)
                decision decision' rerun_process p' Hrun) as (Hgone & Hne & _).
  split; [exact Hgone|exact Hne].
Defined.

(** The four inputs arriving with the totals first and the client info
    last: nothing is sent after two deliveries, one merged result after
    all four. *)
Lemma merge_fires_once_after_all_inputs_witness :
  let arrivals :=
    [concurrent_workflow.MTotals totals_001; concurrent_workflow.MOriginal data_001;
     concurrent_workflow.MCredit credit_001; concurrent_workflow.MClient client_001] in
  (∃ self',
     concurrent_workflow.ResultsMerger.deliver_all concurrent_workflow.ResultsMerger.init
       [concurrent_workflow.MTotals totals_001; concurrent_workflow.MOriginal data_001]
       fresh_process
     = (inr ([], self'), fresh_process)) ∧
  concurrent_workflow.ResultsMerger.deliver_all concurrent_workflow.ResultsMerger.init
    arrivals fresh_process
  = (inr ([concurrent_workflow.MergedResult.mk inv_001 default_config
             (calculate_invoice_totals inv_001 default_config)
             (concurrent_workflow.ClientResult.client_info client_001)
             (concurrent_workflow.CreditResult.credit_check credit_001)],
          concurrent_workflow.ResultsMerger.init),
     with_stdin [""; ""; ""; ""; ""] fresh_process).
Proof.
  intros arrivals.
  assert (Hperm : arrivals ≡ₚ concurrent_workflow.merger_inbox
                                data_001 totals_001 client_001 credit_001).
  { unfold arrivals, concurrent_workflow.merger_inbox.
    etrans; [apply perm_swap|]. do 2 apply perm_skip. apply perm_swap. }
  destruct (merge_fires_once_after_all_inputs
              data_001 totals_001 client_001 credit_001 arrivals fresh_process Hperm)
    as [Hbefore Hall].
  split; [|exact Hall].
  apply (Hbefore _ [concurrent_workflow.MCredit credit_001;
                    concurrent_workflow.MClient client_001]); done.
Defined.

(** Two arrival orders of the same four inputs end alike. *)
Lemma merged_result_ignores_arrival_order_witness :
  concurrent_workflow.ResultsMerger.deliver_all concurrent_workflow.ResultsMerger.init
    [concurrent_workflow.MTotals totals_001; concurrent_workflow.MOriginal data_001;
     concurrent_workflow.MCredit credit_001; concurrent_workflow.MClient client_001]
    fresh_process
  = concurrent_workflow.ResultsMerger.deliver_all concurrent_workflow.ResultsMerger.init
      [concurrent_workflow.MOriginal data_001; concurrent_workflow.MTotals totals_001;
       concurrent_workflow.MCredit credit_001; concurrent_workflow.MClient client_001]
      fresh_process.
Proof.
  refine (proj1 (merged_result_ignores_arrival_order
                   data_001 totals_001 client_001 credit_001 _ _ fresh_process _ _)).
  - unfold concurrent_workflow.merger_inbox.
    etrans; [apply perm_swap|]. do 2 apply perm_skip. apply perm_swap.
  - unfold concurrent_workflow.merger_inbox. do 2 apply perm_skip. apply perm_swap.
Defined.

(** An invoice with a quantity of 10^400: evaluating its subtotal raises
    OverflowError, and so does [calculate_invoice_totals], which returns no
    dictionary for it; for the first invoice of the examples it returns
    the dictionary. *)
Lemma calculate_invoice_totals_overflows :
  quantity inv_big = (10 ^ 400)%Z ∧
  InvoiceData_subtotal inv_big = inl OverflowError ∧
  raising.calculate_invoice_totals inv_big default_config = inl OverflowError ∧
  raising.calculate_invoice_totals inv_001 default_config
  = inr (calculate_invoice_totals inv_001 default_config).
Proof. split_and!; vm_compute; reflexivity. Qed.



(** The selecting handlers on the concrete console: before the step the
    global is None, after it the global holds the selection, "INV-001",
    which is what the next run in this process finds there. *)
Lemma selection_kept_in_module_global :
  let p1 :=
    mkProcess [""; ""; ""; ""] {["/srv/Part-3/logs/invoice_workflow.log"]}
              "20241209_103000" (Some "INV-001") in
  selected_invoice_id fresh_process = None ∧
  sequential_workflow.read_invoice_data default_config fresh_process
    = (inr (default_config, inv_001), p1) ∧
  concurrent_workflow.Dispatcher_dispatch "start" fresh_process
    = (inr data_001, p1) ∧
  selected_invoice_id p1 = Some "INV-001" ∧
  selected_invoice_id p1 ≠ selected_invoice_id fresh_process.
Proof.
  intros p1. split_and!.
  - reflexivity.
  - vm_compute. reflexivity.
  - vm_compute. reflexivity.
  - reflexivity.
  - discriminate.
Qed.

(** The message of [read_invoice_data] does not change when the global
    already holds another run's selection. *)
Lemma selection_written_to_global_and_sent_witness :
  let p1 :=
    mkProcess [""; ""; ""; ""] {["/srv/Part-3/logs/invoice_workflow.log"]}
              "20241209_103000" (Some "INV-001") in
  sequential_workflow.read_invoice_data default_config
    (with_selected_invoice_id (Some "INV-002") fresh_process)
  = (inr (default_config, inv_001), p1) ∧
  selected_invoice_id p1 = Some "INV-001".
Proof.
  intros p1.
  assert (Hrun : sequential_workflow.read_invoice_data default_config fresh_process
                 = (inr (default_config, inv_001), p1)) by (vm_compute; reflexivity).
  destruct (proj1 (@selection_written_to_global_and_sent runtime installation)
              default_config fresh_process (default_config, inv_001) p1 Hrun)
    as [Hglobal Hsame].
  split; [apply Hsame|exact Hglobal].
Defined.

(** INV-001 run from an empty context as run 7: the pass pauses at the tax
    request; the resume with run id 7 and the response to request 1 invokes
    the tax processor and the discount requester and leaves the run paused
    again, at the discount request; the finalizer has not run and there is
    no output. *)
Lemma resume_pauses_again_at_discount_request :
  let ctx0 := interactive_checkpointing.mkContext ∅ ∅ in
  let response :=
    interactive_checkpointing.TaxConfirmationRequest.mk
      (VStr "INV-001") "Confirm tax calculation for INV-001?" 600.0
      "Type 'yes' to confirm or 'no' to skip" in
  ∃ rs1 steps1 rs2 steps2,
    engine.run interactive_checkpointing.workflow None 6
      interactive_checkpointing.preparer 7 ctx0
      (interactive_checkpointing.PInvoiceData inv_001) fresh_process
      = (inr (rs1, steps1), fresh_process) ∧
    engine.run_status rs1 = engine.Paused ∧
    engine.awaiting rs1 = Some (1, [interactive_checkpointing.tax_processor]) ∧
    engine.resume interactive_checkpointing.workflow 6 {[7 := rs1]} 7
      (engine.mkResponse 1 (interactive_checkpointing.PTaxConfirmationRequest response))
      fresh_process
      = (inr (inr steps2, <[7 := rs2]> {[7 := rs1]}), fresh_process) ∧
    engine.invocations steps2
      = [interactive_checkpointing.tax_processor;
         interactive_checkpointing.discount_requester] ∧
    engine.run_status rs2 = engine.Paused ∧
    engine.awaiting rs2 = Some (3, [interactive_checkpointing.discount_processor]) ∧
    (interactive_checkpointing.finalizer ∉ engine.invocations steps2) ∧
    ∀ data, engine.run_status rs2 ≠ engine.Completed data.
Proof.
  intros ctx0 response.
  destruct (@resume_runs_to_next_request runtime installation 0 7 ctx0 inv_001
              fresh_process response
              (interactive_checkpointing.DiscountConfirmationRequest.mk
                 (VStr "INV-001") "Apply discount to INV-001?" 480.0
                 "Type 'yes' to apply or 'no' to skip"))
    as (rs1 & steps1 & rs2 & steps2 & _ & _ & _ &
        Hrun & Hpaused1 & Hawait1 & Hresume & Hsteps & Hpaused2 & Hawait2 & _).
  exists rs1, steps1, rs2, steps2. split_and!; try done.
  - rewrite Hsteps. intros Hin.
    apply elem_of_cons in Hin as [Hin|Hin]; [done|].
    apply elem_of_cons in Hin as [Hin|Hin]; [done|].
    by apply elem_of_nil in Hin.
  - intros data. by rewrite Hpaused2.
Qed.

(** A runtime that holds run 7 paused at its tax request: a response sent
    to run 8 is rejected and run 7 is as it was; the script's runner on the
    concrete console reads "1" and "" as the two answers and leaves the run
    paused at the tax request. *)
Lemma resume_rejects_mismatch_and_runs_to_next_request_witness :
  let ctx0 := interactive_checkpointing.mkContext ∅ ∅ in
  let response :=
    interactive_checkpointing.TaxConfirmationRequest.mk
      (VStr "INV-001") "Confirm tax calculation for INV-001?" 600.0
      "Type 'yes' to confirm or 'no' to skip" in
  let rs :=
    engine.mkRunState 7 2 ctx0 [] (Some (1, [interactive_checkpointing.tax_processor]))
      engine.Paused in
  engine.resume interactive_checkpointing.workflow 6 {[7 := rs]} 8
    (engine.mkResponse 1 (interactive_checkpointing.PTaxConfirmationRequest response))
    fresh_process
  = (inr (inl engine.CorrelationMismatchError, {[7 := rs]}), fresh_process) ∧
  ∃ rs1 steps1,
    engine.run interactive_checkpointing.workflow None 6
      interactive_checkpointing.preparer 7 ctx0
      (interactive_checkpointing.PInvoiceData inv_001) fresh_process
      = (inr (rs1, steps1), fresh_process) ∧
    engine.run_status rs1 = engine.Paused ∧
    engine.awaiting rs1 = Some (1, [interactive_checkpointing.tax_processor]) ∧
    engine.invocations steps1
      = [interactive_checkpointing.preparer; interactive_checkpointing.tax_requester] ∧
    interactive_checkpointing.run_interactive_workflow 6 7 ctx0 inv_001 fresh_process
      = (inr (interactive_checkpointing.ResponsesCollected
                (str_strip_lower "1") (str_strip_lower ""), rs1),
         with_stdin [""; ""; ""; ""] fresh_process).
Proof.
  intros ctx0 response rs.
  destruct (@resume_rejects_mismatch_and_runs_to_next_request runtime installation)
    as (Hmismatch & _ & Hrunner).
  split.
  - apply Hmismatch. intros rs' seq waiting Hlookup.
    rewrite lookup_singleton_ne in Hlookup; [discriminate | lia].
  - apply (Hrunner 0 7 ctx0 inv_001 fresh_process "1" "" [""; ""; ""; ""] eq_refl).
Defined.


(** INV-002 (subtotal 300.0, not preferred) has a computed discount of
    exactly zero, and the preparer's state carries it.  Run as run 7 and
    resumed at the tax request, the workflow still has the discount
    requester emit a DiscountConfirmationRequest, for 480.0, and pauses
    at it: no InvoiceState reaches the discount processor and nothing is
    unroutable. *)
Lemma zero_discount_invoice_gets_discount_request :
  let ctx0 := interactive_checkpointing.mkContext ∅ ∅ in
  let response :=
    interactive_checkpointing.TaxConfirmationRequest.mk
      (VStr "INV-002") "Confirm tax calculation for INV-002?" 30.0
      "Type 'yes' to confirm or 'no' to skip" in
  let state1 :=
    interactive_checkpointing.InvoiceState.mk
      (VStr "INV-002") 6000.0 0.10 30.0 0.08 480.0 true false "tax_processed" in
  let request :=
    interactive_checkpointing.DiscountConfirmationRequest.mk
      (VStr "INV-002") "Apply discount to INV-002?" 480.0
      "Type 'yes' to apply or 'no' to skip" in
  calculate_invoice_totals inv_002 default_config !! "total_discount" = Some 0.0%float ∧
  (0.0 =? 0)%float = true ∧
  (∃ state0 ctx1,
     interactive_checkpointing.InvoicePreparation_prepare "preparer" inv_002 ctx0
       fresh_process = (inr (state0, ctx1), fresh_process) ∧
     interactive_checkpointing.InvoiceState.discount_amount state0 = 0.0%float) ∧
  ∃ rs1 steps1 rs2,
    engine.run interactive_checkpointing.workflow None 6
      interactive_checkpointing.preparer 7 ctx0
      (interactive_checkpointing.PInvoiceData inv_002) fresh_process
      = (inr (rs1, steps1), fresh_process) ∧
    engine.run_status rs1 = engine.Paused ∧
    engine.resume interactive_checkpointing.workflow 6 {[7 := rs1]} 7
      (engine.mkResponse 1 (interactive_checkpointing.PTaxConfirmationRequest response))
      fresh_process
      = (inr (inr [engine.Invoked interactive_checkpointing.tax_processor
                     (interactive_checkpointing.PTaxConfirmationRequest response);
                   engine.Emitted interactive_checkpointing.tax_processor
                     (interactive_checkpointing.PInvoiceState state1);
                   engine.Invoked interactive_checkpointing.discount_requester
                     (interactive_checkpointing.PInvoiceState state1);
                   engine.Emitted interactive_checkpointing.discount_requester
                     (interactive_checkpointing.PDiscountConfirmationRequest request)],
              <[7 := rs2]> {[7 := rs1]}), fresh_process) ∧
    engine.run_status rs2 = engine.Paused ∧
    engine.run_status rs2 ≠ engine.Failed engine.UnroutableMessageError.
Proof.
  intros ctx0 response state1 request.
  assert (Hzero : calculate_invoice_totals inv_002 default_config !! "total_discount"
                  = Some 0.0%float) by (vm_compute; reflexivity).
  split; [exact Hzero|]. split; [reflexivity|]. split.
  - destruct (prepare_result "preparer" inv_002 ctx0 fresh_process)
      as (state0 & ctx1 & Hprep & _).
    exists state0, ctx1. split; [exact Hprep|].
    apply prepare_discount_amount in Hprep.
    change (@InvoiceConfig_init installation) with default_config in Hprep.
    rewrite Hzero in Hprep. by injection Hprep as <-.
  - destruct (@resumed_run_requests_discount runtime installation 0 7 ctx0 inv_002
                fresh_process response)
      as (rs1 & steps1 & rs2 & Hrun & Hpaused1 & _ & Hresume & Hpaused2 & _).
    exists rs1, steps1, rs2. split_and!; try done.
    by rewrite Hpaused2.
Qed.


(** The first invoice, selected on the concrete console: the handler
    returns it, and its totals can be computed. *)
Lemma selected_invoice_has_its_totals_witness :
  let p1 :=
    mkProcess [""; ""; ""; ""] {["/srv/Part-3/logs/invoice_workflow.log"]}
              "20241209_103000" (Some "INV-001") in
  sequential_workflow.read_invoice_data default_config fresh_process
  = (inr (default_config, inv_001), p1) ∧
  raising.calculate_invoice_totals inv_001 default_config
  = inr (calculate_invoice_totals inv_001 default_config).
Proof.
  intros p1.
  assert (Hrun : sequential_workflow.read_invoice_data default_config fresh_process
                 = (inr (default_config, inv_001), p1)) by (vm_compute; reflexivity).
  split; [exact Hrun|].
  exact (proj2 (proj1 (@selected_invoice_has_its_totals runtime installation)
                  default_config fresh_process (default_config, inv_001) p1 Hrun)
           default_config).
Defined.

(** The credit check of the second invoice (300.0, not preferred): limit
    10000, approved, 9700.0 available. *)
Lemma credit_check_decisions_witness :
  let d :=
    concurrent_workflow.CreditResult.credit_check
      (concurrent_tasks.CreditChecker_check_credit data_002) in
  d !! "credit_limit" = Some (VInt 10000) ∧
  d !! "approved" = Some (VBool true) ∧
  d !! "available_credit" = Some (VFloat (float_of_int 10000 - subtotal inv_002)%float).
Proof.
  intros d.
  assert (Hle : (subtotal inv_002 <=? float_of_int 5000)%float = true)
    by (vm_compute; reflexivity).
  destruct (credit_check_decisions data_002) as (_ & _ & _ & _ & Hsmall & _).
  destruct (Hsmall eq_refl Hle) as ((_ & Hlimit & _) & Happroved & Havailable).
  split; [exact Hlimit|]. split; [exact Happroved|exact Havailable].
Defined.


(** The first invoice processed a second time: the file of the first run
    goes to the archive and a new one is written. *)
Lemma reprocessed_invoice_keeps_old_copy_witness :
  let decision :=
    branching_workflow.InvoiceDecision.mk inv_001 default_config
      (calculate_invoice_totals inv_001 default_config)
      "archive_needed" "Existing file found - needs archiving" in
  let output_file :=
    path_join branching_workflow.OUTPUT_DIR (invoice_id inv_001 +:+ ".txt") in
  let archived_file :=
    path_join branching_workflow.ARCHIVE_DIR
      (invoice_id inv_001 +:+ "_" +:+ now rerun_process +:+ ".txt") in
  output_file = "/srv/Part-3/output/INV-001.txt" ∧
  archived_file = "/srv/Part-3/archive/INV-001_20241209_103000.txt" ∧
  ∃ decision' p1 output p2,
    branching_workflow.ArchiveHandler_archive_old decision rerun_process
      = (inr decision', p1) ∧
    (output_file ∉ files p1) ∧ archived_file ∈ files p1 ∧
    branching_workflow.InvoiceDecision.decision_type decision'
      ∈ ["high_value"; "preferred"; "standard"] ∧
    branching_workflow.InvoiceDecision.invoice decision' = inv_001 ∧
    branching_workflow.InvoiceDecision.totals decision'
      = calculate_invoice_totals inv_001 default_config ∧
    branching_workflow.InvoiceFinalizer_finalize decision' p1 = (inr output, p2) ∧
    output = "Branching workflow completed! Invoice " +:+ invoice_id inv_001
             +:+ " processed via "
             +:+ branching_workflow.InvoiceDecision.decision_type decision'
             +:+ " branch." ∧
    output_file ∈ files p2 ∧ archived_file ∈ files p2 ∧
    stdin p2 = [""; ""; ""; ""; ""].
Proof.
  intros decision output_file archived_file.
  split; [reflexivity|]. split; [reflexivity|].
  assert (Hexists : output_file ∈ files rerun_process).
  { change (files rerun_process) with ({["/srv/Part-3/output/INV-001.txt"]} : gset string).
    apply elem_of_singleton_2. reflexivity. }
  exact (reprocessed_invoice_keeps_old_copy inv_001 default_config
           "archive_needed" "Existing file found - needs archiving"
           rerun_process "1" [""; ""; ""; ""; ""] Hexists eq_refl).
Defined.
